(** * The DefiLlama scraper pipeline: numeric parsing, ratio, SQLite history

    A shallow embedding of [defillama/pipelines.py],
    [defillama/spiders/defillama_spider.py], [query_database.py],
    [load_dataframe.py], [extract_historical_data.py] and [df_database.py].

    Python values are the four kinds the pipeline can meet in an item
    ([None], [str], [int], [float]); text is a [string] whose characters are
    the code points below 256; a [float] is an IEEE binary64 value
    ([spec_float] at precision 53), with Python's [float(str)] and
    [format(x, ".2f")] written out on it; exceptions are explicit
    ([outcome]); the SQLite table is the list of its rows in rowid order, a
    timestamp is the clock reading in microseconds, a ticker is the text
    SQLite keeps in the [TEXT] column. What SQLite and [pandas] do with
    these values is written out where the program depends on it; the text
    SQLite makes of a [REAL] is left as a parameter ([RealText]). *)

From Stdlib Require Import ZArith NArith Ascii String DecimalString Lia Bool.
From Stdlib Require Import Floats.SpecFloat.
From stdpp Require Import gmap strings list sorting.

Local Open Scope Z_scope.

(** ** Exceptions *)

Inductive exn : Type :=
| ValueError
| AttributeError
| TypeError
| OverflowError
| ZeroDivisionError
| IntegrityError
| DatabaseError.

Inductive outcome (A : Type) : Type :=
| Returns (a : A)
| Raises (e : exn).

Arguments Returns {A} a.
Arguments Raises {A} e.

Definition obind {A B} (m : outcome A) (k : A -> outcome B) : outcome B :=
  match m with
  | Returns a => k a
  | Raises e => Raises e
  end.

#[global] Instance outcome_ret : MRet outcome := fun A a => Returns a.
#[global] Instance outcome_bind : MBind outcome := fun A B k m => obind m k.

(** [try: body except (e1, e2, ...): handler]: [caught] says which
    exceptions the clause names. *)
Definition try_except {A} (body : outcome A) (caught : exn -> bool)
    (handler : outcome A) : outcome A :=
  match body with
  | Returns a => Returns a
  | Raises e => if caught e then handler else Raises e
  end.

(** ** Text: the [str] methods the pipeline calls *)

(** Dropping the characters [sp] accepts from the left end, and from the
    right end, of a text. *)
Fixpoint ltrim (sp : ascii -> bool) (s : string) : string :=
  match s with
  | EmptyString => EmptyString
  | String c s' => if sp c then ltrim sp s' else s
  end.

Fixpoint rtrim (sp : ascii -> bool) (s : string) : string :=
  match s with
  | EmptyString => EmptyString
  | String c s' =>
      match rtrim sp s' with
      | EmptyString => if sp c then EmptyString else String c EmptyString
      | r => String c r
      end
  end.

Module Str.

Definition code (c : ascii) : N := N_of_ascii c.

(** [c.isspace()] on the code points below 256: what [str.strip()]
    removes. *)
Definition isspace (c : ascii) : bool :=
  let n := code c in
  ((9 <=? n) && (n <=? 13) || (28 <=? n) && (n <=? 32)
   || (n =? 133) || (n =? 160))%N.

(** [c.lower()] on the code points below 256. *)
Definition lower_char (c : ascii) : ascii :=
  let n := code c in
  if ((65 <=? n) && (n <=? 90)
      || (192 <=? n) && (n <=? 222) && negb (n =? 215))%N
  then ascii_of_N (n + 32) else c.

Fixpoint lower (s : string) : string :=
  match s with
  | EmptyString => EmptyString
  | String c s' => String (lower_char c) (lower s')
  end.

Definition strip (s : string) : string := rtrim isspace (ltrim isspace s).

(** [s.replace(old, new)] for a non-empty [old]: left to right, without
    overlap; [skip] counts the characters of a match still to drop. *)
Fixpoint replace_from (old new : string) (skip : nat) (s : string) : string :=
  match s with
  | EmptyString => EmptyString
  | String c s' =>
      match skip with
      | S k => replace_from old new k s'
      | O =>
          if String.prefix old s
          then new +:+ replace_from old new (Nat.pred (String.length old)) s'
          else String c (replace_from old new O s')
      end
  end.

Definition replace (old new s : string) : string := replace_from old new O s.

(** [sub in s] for a non-empty [sub]. *)
Fixpoint contains (sub s : string) : bool :=
  match s with
  | EmptyString => false
  | String _ s' => String.prefix sub s || contains sub s'
  end.

End Str.

(** ** Floats: IEEE binary64 *)

Abbreviation float := spec_float.

Module Float.

Definition prec : Z := 53.
Definition emax : Z := 1024.

Definition mul : float -> float -> float := SFmul prec emax.
Definition div : float -> float -> float := SFdiv prec emax.
Definition ltb : float -> float -> bool := SFltb.
Definition eqb : float -> float -> bool := SFeqb.

(** The nearest binary64 value to an integer (ties to even). *)
Definition of_Z (n : Z) : float := binary_normalize prec emax n 0 false.

Definition zero : float := S754_zero false.

Definition is_nan (x : float) : bool :=
  match x with S754_nan => true | _ => false end.

(** [bool(x)]: a float is false exactly when it equals zero. *)
Definition truthy (x : float) : bool := negb (eqb x zero).

(** The nearest binary64 value to [(-1)^neg * m * 10^e], as
    [float(str)] rounds a decimal numeral (correctly, ties to even). *)
Definition of_decimal (neg : bool) (m : Z) (e : Z) : float :=
  match m with
  | Zpos p =>
      match e with
      | Zneg k =>
          SFdiv prec emax (S754_finite neg p 0)
            (S754_finite false (10 ^ k)%positive 0)
      | _ => binary_normalize prec emax ((if neg then -1 else 1) * m * 10 ^ e) 0 false
      end
  | _ => S754_zero neg
  end.

End Float.

(** ** [float(s)] for a [str] *)

Module FloatParse.

(** The white space [float] skips at both ends: the C locale's, and the
    two code points in 128..255 that are Unicode spaces (28..31 are not
    skipped, although [str.strip] removes them). *)
Definition isspace (c : ascii) : bool :=
  let n := Str.code c in
  ((9 <=? n) && (n <=? 13) || (n =? 32) || (n =? 133) || (n =? 160))%N.

Definition digit (c : ascii) : option Z :=
  let n := Str.code c in
  if ((48 <=? n) && (n <=? 57))%N then Some (Z.of_N n - 48) else None.

Definition is_digit (c : ascii) : bool :=
  match digit c with Some _ => true | None => false end.

(** An underscore is allowed only between two digits; [prev] is the
    character before the current one. *)
Fixpoint underscores_ok (prev : option ascii) (s : string) : bool :=
  match s with
  | EmptyString =>
      match prev with
      | Some p => negb (Ascii.eqb p "_")
      | None => true
      end
  | String c s' =>
      let prev_digit := match prev with Some p => is_digit p | None => false end in
      let prev_us := match prev with Some p => Ascii.eqb p "_" | None => false end in
      (if Ascii.eqb c "_" then prev_digit
       else negb prev_us || is_digit c)
      && underscores_ok (Some c) s'
  end.

Fixpoint drop_underscores (s : string) : string :=
  match s with
  | EmptyString => EmptyString
  | String c s' =>
      if Ascii.eqb c "_" then drop_underscores s' else String c (drop_underscores s')
  end.

(** An optional sign: [(negative, rest)]. *)
Definition sign (s : string) : bool * string :=
  match s with
  | String c s' =>
      if Ascii.eqb c "-" then (true, s')
      else if Ascii.eqb c "+" then (false, s')
      else (false, s)
  | EmptyString => (false, s)
  end.

(** The leading digits of [s], read after [acc]: the value, how many
    digits were read, and what follows them. *)
Fixpoint digits (acc : Z) (n : Z) (s : string) : Z * Z * string :=
  match s with
  | EmptyString => (acc, n, s)
  | String c s' =>
      match digit c with
      | Some d => digits (10 * acc + d) (n + 1) s'
      | None => (acc, n, s)
      end
  end.

(** A decimal numeral without sign: digits, an optional point and more
    digits (at least one digit in all), an optional exponent with at
    least one digit. The result [(m, e)] stands for [m * 10^e]. *)
Definition decimal (s : string) : option (Z * Z) :=
  let '(ip, ni, r1) := digits 0 0 s in
  let '(m, nf, r2) :=
    match r1 with
    | String c r => if Ascii.eqb c "." then digits ip 0 r else (ip, 0, r1)
    | EmptyString => (ip, 0, r1)
    end in
  if ni + nf =? 0 then None
  else
    match r2 with
    | EmptyString => Some (m, - nf)
    | String c r3 =>
        if Ascii.eqb c "e" || Ascii.eqb c "E" then
          let '(eneg, r4) := sign r3 in
          let '(ev, ne, r5) := digits 0 0 r4 in
          if ne =? 0 then None
          else
            match r5 with
            | EmptyString => Some (m, (if eneg then - ev else ev) - nf)
            | String _ _ => None
            end
        else None
    end.

(** [float(s)]: [ValueError] unless [s], white space at its ends
    apart, is a signed [inf], [infinity], [nan] (any case) or decimal
    numeral. *)
Definition float_of_str (s : string) : outcome float :=
  let t := rtrim isspace (ltrim isspace s) in
  if underscores_ok None t then
    let '(neg, body) := sign (drop_underscores t) in
    let low := Str.lower body in
    if String.eqb low "inf" || String.eqb low "infinity"
    then Returns (S754_infinity neg)
    else if String.eqb low "nan" then Returns S754_nan
    else
      match decimal body with
      | Some (m, e) => Returns (Float.of_decimal neg m e)
      | None => Raises ValueError
      end
  else Raises ValueError.

End FloatParse.

(** ** [format(x, ".2f")] *)

Module FloatFormat.

Definition decimal_of_N (n : N) : string := NilZero.string_of_uint (N.to_uint n).

(** [x * 100] rounded to an integer, ties to even, for
    [x = m * 2^e]. *)
Definition hundredths (m : positive) (e : Z) : N :=
  match e with
  | Zneg k =>
      let num := (Npos m * 100)%N in
      let den := Npos (2 ^ k)%positive in
      let q := (num / den)%N in
      let r := (num mod den)%N in
      match (2 * r ?= den)%N with
      | Lt => q
      | Gt => (q + 1)%N
      | Eq => if N.even q then q else (q + 1)%N
      end
  | _ => (Npos m * 2 ^ Z.to_N e * 100)%N
  end.

Definition two_digits (n : N) : string :=
  if (n <? 10)%N then "0" +:+ decimal_of_N n else decimal_of_N n.

Definition sign_text (s : bool) : string := if s then "-" else "".

Definition format_2f (x : float) : string :=
  match x with
  | S754_nan => "nan"
  | S754_infinity s => sign_text s +:+ "inf"
  | S754_zero s => sign_text s +:+ "0.00"
  | S754_finite s m e =>
      let h := hundredths m e in
      sign_text s +:+ decimal_of_N (h / 100)%N +:+ "." +:+ two_digits (h mod 100)%N
  end.

End FloatFormat.

(** ** Python values *)

Inductive pyval : Type :=
| VNone
| VStr (s : string)
| VInt (n : Z)
| VFloat (x : float).

#[global] Instance float_eq_dec : EqDecision float.
Proof. solve_decision. Defined.

#[global] Instance pyval_eq_dec : EqDecision pyval.
Proof. solve_decision. Defined.

(** [bool(v)], as [if v] and [v and ...] test it. *)
Definition truthy (v : pyval) : bool :=
  match v with
  | VNone => false
  | VStr s => negb (String.eqb s "")
  | VInt n => negb (n =? 0)
  | VFloat x => Float.truthy x
  end.

(** [v != s] for a [str] literal [s]: only an equal [str] is equal. *)
Definition ne_str (v : pyval) (s : string) : bool :=
  match v with
  | VStr t => negb (String.eqb t s)
  | _ => true
  end.

(** Looking up a [str] method ([replace], [strip], [lower]) on [v]. *)
Definition str_method (v : pyval) : outcome string :=
  match v with
  | VStr s => Returns s
  | _ => Raises AttributeError
  end.

(** [float(v)]. *)
Definition py_float (v : pyval) : outcome float :=
  match v with
  | VStr s => FloatParse.float_of_str s
  | VFloat x => Returns x
  | VInt n =>
      match Float.of_Z n with
      | S754_infinity _ => Raises OverflowError
      | x => Returns x
      end
  | VNone => Raises TypeError
  end.

(** [x / y] on floats. *)
Definition truediv (x y : float) : outcome float :=
  if Float.eqb y Float.zero then Raises ZeroDivisionError
  else Returns (Float.div x y).

(** ** Items: the dict-like objects the spider yields *)

Abbreviation Item := (gmap string pyval).

(** [item.get(key)] and [item.get(key, default)]. *)
Definition item_get (item : Item) (key : string) : pyval :=
  default VNone (item !! key).

Definition item_get_default (item : Item) (key : string) (d : pyval) : pyval :=
  default d (item !! key).

(** ** The [defillama_metrics] table *)

(** A timestamp is the clock reading [datetime.now()], in microseconds:
    [sqlite3] stores its ISO text, whose order is the order of the
    readings. A ticker is the text of the [TEXT NOT NULL] column. *)
Record row : Type := Row {
  row_id : Z;
  row_timestamp : Z;
  row_ticker : string;
  row_price : option float;
  row_market_cap : option float;
  row_annualized_revenue : option float;
  row_pe_ratio : option float
}.

(** The rows in rowid order, and the largest rowid the table ever held
    (the [sqlite_sequence] entry that [AUTOINCREMENT] keeps). Where a
    function opens the database file itself, it is given an
    [option database]: [None] when the file, or the table in it, does not
    exist. *)
Record database : Type := Database {
  rows : list row;
  seq : Z
}.

Definition empty_db : database := {| rows := []; seq := 0 |}.

Definition max_rowid (rs : list row) : Z :=
  foldr (fun r m => Z.max (row_id r) m) 0 rs.

(** [INTEGER PRIMARY KEY AUTOINCREMENT]: one more than the largest rowid
    that ever existed. *)
Definition next_rowid (db : database) : Z :=
  Z.max (seq db) (max_rowid (rows db)) + 1.

(** A Python float-or-None bound to a [REAL] column: SQLite stores a NaN
    as [NULL], and a zero of either sign as the integer 0, which reads
    back as 0.0. *)
Definition bind_real (v : option float) : option float :=
  match v with
  | Some x =>
      if Float.is_nan x then None
      else match x with
           | S754_zero _ => Some Float.zero
           | _ => Some x
           end
  | None => None
  end.

(** SQLite's rendering of a [REAL] as text (its [%!.15g] conversion,
    whose digits depend on the version and the build of the library) is a
    parameter of the model. *)
Class RealText := real_text : float -> string.

(** The decimal text of an [INTEGER]. *)
Definition integer_text (n : Z) : string := NilZero.string_of_int (Z.to_int n).

(** A Python value bound to a parameter that takes [TEXT] affinity (the
    [ticker] column of an [INSERT], the other side of [ticker = ?]):
    [NULL] for [None] and for a NaN, the decimal text of an [int] that
    fits 64 bits ([sqlite3] raises [OverflowError] on any other), the
    rendering of a [float]. *)
Definition bind_text `{!RealText} (v : pyval) : outcome (option string) :=
  match v with
  | VNone => Returns None
  | VStr s => Returns (Some s)
  | VInt n =>
      if (- 2 ^ 63 <=? n) && (n <? 2 ^ 63) then Returns (Some (integer_text n))
      else Raises OverflowError
  | VFloat x => if Float.is_nan x then Returns None else Returns (Some (real_text x))
  end.

(** [INSERT INTO defillama_metrics (timestamp, ticker, price, market_cap,
    annualized_revenue, pe_ratio) VALUES (?, ?, ?, ?, ?, ?)] and the
    commit; [ticker] is [NOT NULL]. *)
Definition insert_metrics `{!RealText} (timestamp : Z) (ticker : pyval)
    (price market_cap annualized_revenue pe_ratio : option float)
    (db : database) : outcome database :=
  bound ← bind_text ticker;
  match bound with
  | None => Raises IntegrityError
  | Some text =>
      Returns {| rows := rows db ++
                   [ {| row_id := next_rowid db;
                        row_timestamp := timestamp;
                        row_ticker := text;
                        row_price := bind_real price;
                        row_market_cap := bind_real market_cap;
                        row_annualized_revenue := bind_real annualized_revenue;
                        row_pe_ratio := bind_real pe_ratio |} ];
                 seq := next_rowid db |}
  end.

(** ** [defillama/spiders/defillama_spider.py] *)

Module DefillamaSpider.

(** [parse]: the item yielded for the spider's [protocol], given what the
    two XPath queries found on the page ([None] when nothing matched). *)
Definition parse (protocol : string) (market_cap annual_revenue : option string) : Item :=
  let field (found : option string) : pyval :=
    match found with
    | Some s => if truthy (VStr s) then VStr (Str.strip s) else VStr "Not found"
    | None => VStr "Not found"
    end in
  <["annual_revenue" := field annual_revenue]>
    (<["market_cap" := field market_cap]>
       (<["protocol" := VStr protocol]> ∅)).

Definition _convert_to_number (value_str : pyval) : outcome (option float) :=
  try_except
    (s ← str_method value_str;
     if Str.contains "b" (Str.lower s) then
       x ← FloatParse.float_of_str (Str.replace "b" "" (Str.lower s));
       mret (Some (Float.mul x (Float.of_Z 1000000000)))
     else if Str.contains "m" (Str.lower s) then
       x ← FloatParse.float_of_str (Str.replace "m" "" (Str.lower s));
       mret (Some (Float.mul x (Float.of_Z 1000000)))
     else
       x ← FloatParse.float_of_str s;
       mret (Some x))
    (fun e => match e with ValueError | AttributeError => true | _ => false end)
    (Returns None).

End DefillamaSpider.

(** ** [defillama/pipelines.py] *)

Module DefillamaPipeline.

(** [setup_database]: [CREATE TABLE IF NOT EXISTS] on the database file,
    which [sqlite3.connect] creates when it is absent. *)
Definition setup_database (file : option database) : database :=
  default empty_db file.

(** [value.replace("$", "").replace(",", "").strip()] *)
Definition clean (s : string) : string :=
  Str.strip (Str.replace "," "" (Str.replace "$" "" s)).

Definition _convert_to_number (value_str : pyval) : outcome (option float) :=
  try_except
    (s ← str_method value_str;
     let clean_str := clean s in
     if Str.contains "b" (Str.lower clean_str) then
       x ← FloatParse.float_of_str (Str.replace "b" "" (Str.lower clean_str));
       mret (Some (Float.mul x (Float.of_Z 1000000000)))
     else if Str.contains "m" (Str.lower clean_str) then
       x ← FloatParse.float_of_str (Str.replace "m" "" (Str.lower clean_str));
       mret (Some (Float.mul x (Float.of_Z 1000000)))
     else
       x ← FloatParse.float_of_str clean_str;
       mret (Some x))
    (fun e => match e with ValueError | AttributeError => true | _ => false end)
    (Returns None).

(** [store_in_database]: every exception of its body is caught and
    printed; the method returns [None]. [now] is what [datetime.now()]
    reads. *)
Definition store_in_database `{!RealText} (item : Item) (now : Z) (db : database)
    : pyval * database :=
  let body :=
    market_cap_num ← _convert_to_number (item_get_default item "market_cap" (VStr "0"));
    annual_revenue_num ← _convert_to_number (item_get_default item "annual_revenue" (VStr "0"));
    pe_ratio_num ←
      (if ne_str (item_get item "pe_ratio") "Not calculable"
       then x ← py_float (item_get_default item "pe_ratio" (VStr "0")); mret (Some x)
       else mret None);
    insert_metrics now (item_get_default item "protocol" (VStr "")) None
      market_cap_num annual_revenue_num pe_ratio_num db in
  (VNone, match body with Returns db' => db' | Raises _ => db end).

(** One turn of the cleaning loop of [process_item]. *)
Definition clean_field (item : Item) (field : string) : Item :=
  if truthy (item_get item field) then
    match item_get item field with
    | VStr s => <[field := VStr (clean s)]> item
    | _ => item
    end
  else item.

(** The value [process_item] gives [item["pe_ratio"]], from the
    original (uncleaned) fields. *)
Definition pe_ratio_text (original_market_cap original_annual_revenue : pyval)
    : outcome string :=
  if truthy original_market_cap && truthy original_annual_revenue
     && ne_str original_market_cap "Not found"
     && ne_str original_annual_revenue "Not found"
  then
    a ← str_method original_market_cap;
    market_cap_num ← _convert_to_number (VStr (Str.strip a));
    b ← str_method original_annual_revenue;
    annual_revenue_num ← _convert_to_number (VStr (Str.strip b));
    match market_cap_num, annual_revenue_num with
    | Some m, Some r =>
        if Float.truthy m && Float.truthy r && Float.ltb Float.zero r then
          pe_ratio ← truediv m r;
          mret (FloatFormat.format_2f pe_ratio)
        else mret "Not calculable"
    | _, _ => mret "Not calculable"
    end
  else mret "Not calculable".

(** How a call of [process_item] ends. It changes the item it is given in
    place: [Returned item db] is a call that returns that same object,
    with the contents the item has and the table there is after the call;
    [Raised e item db] is a call that raises, with the contents the
    caller's item is left with. *)
Inductive completion : Type :=
| Returned (item : Item) (db : database)
| Raised (e : exn) (item : Item) (db : database).

Definition process_item `{!RealText} (item : Item) (now : Z) (db : database)
    : completion :=
  let original_market_cap := item_get item "market_cap" in
  let original_annual_revenue := item_get item "annual_revenue" in
  let item := foldl clean_field item ["market_cap"; "annual_revenue"] in
  match pe_ratio_text original_market_cap original_annual_revenue with
  | Raises e => Raised e item db
  | Returns pe =>
      let item := <["pe_ratio" := VStr pe]> item in
      let '(_, db) := store_in_database item now db in
      Returned item db
  end.

End DefillamaPipeline.

(** ** Queries and data frames *)

(** A stable sort: SQLite's sorter leaves rows that compare equal in the
    order the scan met them. *)
Fixpoint insert_by {A} (R : relation A) `{!RelDecision R} (x : A) (l : list A) : list A :=
  match l with
  | [] => [x]
  | y :: l' => if decide (R x y) then x :: l else y :: insert_by R x l'
  end.

Definition sort_by {A} (R : relation A) `{!RelDecision R} (l : list A) : list A :=
  foldr (insert_by R) [] l.

Definition newer_first (a b : row) : Prop := row_timestamp b <= row_timestamp a.

#[global] Instance newer_first_dec : RelDecision newer_first.
Proof. intros a b. unfold newer_first. apply _. Defined.

(** [ORDER BY timestamp DESC] *)
Definition order_by_timestamp_desc (rs : list row) : list row :=
  sort_by newer_first rs.

(** The order of [TEXT] values: byte by byte. *)
Definition text_le (a b : string) : Prop := String.leb a b = true.

#[global] Instance text_le_dec : RelDecision text_le.
Proof. intros a b. unfold text_le. apply _. Defined.

(** [MAX(col)] over the rows of one ticker. *)
Definition group_max (col : row -> Z) (t : string) (rs : list row) : option Z :=
  foldr (fun r acc =>
           if decide (row_ticker r = t)
           then Some (match acc with Some m => Z.max (col r) m | None => col r end)
           else acc) None rs.

(** The groups of [GROUP BY ticker], which SQLite forms by sorting. *)
Definition tickers (rs : list row) : list string :=
  sort_by text_le (remove_dups (row_ticker <$> rs)).

(** [series.unique()] and [SELECT DISTINCT]: the distinct values in the
    order they first appear. *)
Fixpoint unique (seen : list string) (l : list string) : list string :=
  match l with
  | [] => []
  | x :: l' =>
      if decide (x ∈ seen) then unique seen l' else x :: unique (x :: seen) l'
  end.

(** [pd.to_datetime] on the timestamp column, as [pandas] 2 does it. A
    clock reading counts the microseconds since the first second of 1970;
    its text has six digits of microseconds, and none on a whole second.
    [pandas] takes the format of the first value and raises [ValueError]
    when another value does not have it, or when a value does not fit its
    64-bit count of nanoseconds ([OutOfBoundsDatetime], a [ValueError]). *)
Definition whole_second (t : Z) : bool := t mod 1000000 =? 0.

Definition nanoseconds_fit (t : Z) : bool :=
  (- 2 ^ 63 <? t * 1000) && (t * 1000 <? 2 ^ 63).

Definition to_datetime (column : list Z) : outcome (list Z) :=
  match column with
  | [] => Returns []
  | first :: _ =>
      if forallb (fun t => Bool.eqb (whole_second t) (whole_second first)
                           && nanoseconds_fit t) column
      then Returns column
      else Raises ValueError
  end.

(** [pd.read_sql_query] of [SELECT id, timestamp, ticker, price,
    market_cap, annualized_revenue, pe_ratio FROM defillama_metrics ORDER
    BY timestamp DESC], the query of the history readers ([df_database.py]
    writes the column list as a star); [pandas] raises [DatabaseError]
    when the table does not exist. *)
Definition select_history (file : option database) : outcome (list row) :=
  match file with
  | None => Raises DatabaseError
  | Some db => Returns (order_by_timestamp_desc (rows db))
  end.

(** The value of a [try] whose [except Exception] clause returns [None]. *)
Definition or_none {A} (body : outcome A) : option A :=
  match body with
  | Returns a => Some a
  | Raises _ => None
  end.

(** A value of a [REAL] column in a data frame: [pandas] reads a [NULL]
    as NaN, and as [None] when the whole column of the result is [NULL]. *)
Inductive cell : Type :=
| CNone
| CFloat (x : float).

Definition read_real (column : list (option float)) (v : option float) : cell :=
  match v with
  | Some x => CFloat x
  | None =>
      if forallb (fun o => bool_decide (o = None)) column then CNone
      else CFloat S754_nan
  end.

(** [isnull] on such a value: [None] or a NaN. *)
Definition isnull (c : cell) : bool :=
  match c with
  | CNone => true
  | CFloat x => Float.is_nan x
  end.

(** ** [query_database.py] *)

(** [SELECT MAX(id) FROM defillama_metrics GROUP BY ticker] *)
Definition max_id_by_ticker (rs : list row) : list Z :=
  omap (fun t => group_max row_id t rs) (tickers rs).

(** The frame [query_database] reads: the rows whose id is in that list,
    [ORDER BY timestamp DESC]. *)
Definition latest_entries (db : database) : list row :=
  order_by_timestamp_desc
    (filter (fun r => row_id r ∈ max_id_by_ticker (rows db)) (rows db)).

(** What [query_database] prints for a row of its frame: the timestamp,
    the ticker, and the market cap, the revenue and the ratio, each as its
    number or, when the value is falsy ([None] or zero), as "N/A". The
    price is not printed. *)
Record entry : Type := Entry {
  entry_timestamp : Z;
  entry_ticker : string;
  entry_market_cap : option float;
  entry_annual_revenue : option float;
  entry_pe_ratio : option float
}.

Definition shown (c : cell) : option float :=
  match c with
  | CNone => None
  | CFloat x => if Float.truthy x then Some x else None
  end.

Definition print_entry (df : list row) (r : row) : entry :=
  {| entry_timestamp := row_timestamp r;
     entry_ticker := row_ticker r;
     entry_market_cap := shown (read_real (row_market_cap <$> df) (row_market_cap r));
     entry_annual_revenue :=
       shown (read_real (row_annualized_revenue <$> df) (row_annualized_revenue r));
     entry_pe_ratio := shown (read_real (row_pe_ratio <$> df) (row_pe_ratio r)) |}.

(** The output of [query_database]: the message of its [except] clause,
    "No data found in database.", or the entries under the heading. *)
Inductive printed : Type :=
| QueryError
| NoData
| Entries (entries : list entry).

(** [query_database]: it returns [None] on every path; its result is what
    it prints. *)
Definition query_database (file : option database) : pyval * printed :=
  match file with
  | None => (VNone, QueryError)
  | Some db =>
      let df := latest_entries db in
      match df with
      | [] => (VNone, NoData)
      | _ => (VNone, Entries (print_entry df <$> df))
      end
  end.

(** The frames [get_latest_data] returns: the rows of the first query, or
    the ticker and latest timestamp pairs of the second. *)
Inductive dataframe : Type :=
| DfRows (records : list row)
| DfTickers (latest : list (string * Z)).

(** [get_latest_data(ticker)]: [None] when the query raises (no table, or
    a parameter [sqlite3] cannot bind). *)
Definition get_latest_data `{!RealText} (ticker : pyval) (file : option database)
    : option dataframe :=
  match file with
  | None => None
  | Some db =>
      if truthy ticker then
        or_none
          (bound ← bind_text ticker;
           mret (DfRows (take 1 (order_by_timestamp_desc
                                   (filter (fun r => Some (row_ticker r) = bound) (rows db))))))
      else
        Some (DfTickers (omap (fun t => (fun m => (t, m)) <$> group_max row_timestamp t (rows db))
                           (tickers (rows db))))
  end.

(** [series.min()] and [series.max()] of the timestamps, and SQL's
    [MIN(timestamp)] and [MAX(timestamp)]: nothing on an empty frame. *)
Definition min_timestamp (df : list row) : option Z :=
  foldr (fun r acc =>
           Some (match acc with
                 | Some m => Z.min (row_timestamp r) m
                 | None => row_timestamp r
                 end)) None df.

Definition max_timestamp (df : list row) : option Z :=
  foldr (fun r acc =>
           Some (match acc with
                 | Some m => Z.max (row_timestamp r) m
                 | None => row_timestamp r
                 end)) None df.

Definition table_columns : list string :=
  ["id"; "timestamp"; "ticker"; "price"; "market_cap"; "annualized_revenue"; "pe_ratio"].

(** ** [load_dataframe.py] *)

Module LoadDataframe.

(** [load_historical_data]: the frame of the query with its timestamps
    converted; [None] when the database file does not exist (the
    [FileNotFoundError] is caught like every other exception) and when
    the query or the conversion raises. *)
Definition load_historical_data (file : option database) : option (list row) :=
  or_none
    (df ← select_history file;
     _ ← to_datetime (row_timestamp <$> df);
     mret df).

Record summary : Type := Summary {
  total_records : nat;
  summary_tickers : list string;
  date_range : option Z * option Z;
  summary_columns : list string;
  missing_values : list (string * nat)
}.

(** [df[col].isnull().sum()] for a [REAL] column. *)
Definition count_null (col : row -> option float) (df : list row) : nat :=
  length (filter (fun r => isnull (read_real (col <$> df) (col r)) = true) df).

(** [get_data_summary]: [len(df)], the distinct tickers, the first and
    last timestamp, the column names, and [df.isnull().sum()] by column
    (no id, converted timestamp or ticker is null). *)
Definition get_data_summary (df : list row) : summary :=
  {| total_records := length df;
     summary_tickers := unique [] (row_ticker <$> df);
     date_range := (min_timestamp df, max_timestamp df);
     summary_columns := table_columns;
     missing_values :=
       [("id", 0%nat);
        ("timestamp", 0%nat);
        ("ticker", 0%nat);
        ("price", count_null row_price df);
        ("market_cap", count_null row_market_cap df);
        ("annualized_revenue", count_null row_annualized_revenue df);
        ("pe_ratio", count_null row_pe_ratio df)] |}.

End LoadDataframe.

(** ** [extract_historical_data.py] *)

Module ExtractHistoricalData.

Record info : Type := Info {
  total_records : nat;
  info_tickers : list string;
  earliest_date : option Z;
  latest_date : option Z;
  info_columns : list string
}.

(** [get_database_info]: the row count, [SELECT DISTINCT ticker], [MIN] and
    [MAX] of the timestamps, and the column names of the table; [None]
    when the table does not exist (the first query raises). *)
Definition get_database_info (file : option database) : option info :=
  db ← file;
  Some {| total_records := length (rows db);
          info_tickers := unique [] (row_ticker <$> rows db);
          earliest_date := min_timestamp (rows db);
          latest_date := max_timestamp (rows db);
          info_columns := table_columns |}.

(** [extract_all_data]: the frame of the query with its timestamps
    converted; [None] when the query or the conversion raises. *)
Definition extract_all_data (file : option database) : option (list row) :=
  or_none
    (df ← select_history file;
     _ ← to_datetime (row_timestamp <$> df);
     mret df).

End ExtractHistoricalData.

(** ** [df_database.py] *)

(** The frame the script prints, [df.head()]: the first five records of
    the frame. The script has no [try]: what the query or the conversion
    raises ends it. *)
Definition df_database (file : option database) : outcome (list row) :=
  df ← select_history file;
  _ ← to_datetime (row_timestamp <$> df);
  mret (take 5 df).

(** ** Character-wise views of the text operations, for the proofs *)

Fixpoint sfilter (keep : ascii -> bool) (s : string) : string :=
  match s with
  | EmptyString => EmptyString
  | String c s' => if keep c then String c (sfilter keep s') else sfilter keep s'
  end.

Fixpoint sall (P : ascii -> bool) (s : string) : bool :=
  match s with
  | EmptyString => true
  | String c s' => P c && sall P s'
  end.

Fixpoint sany (P : ascii -> bool) (s : string) : bool :=
  match s with
  | EmptyString => false
  | String c s' => P c || sany P s'
  end.

Definition is_not (c : ascii) : ascii -> bool := fun a => negb (Ascii.eqb c a).

(** The characters of the numeric prefix of a magnitude string: digits,
    the decimal point and the thousands separator. *)
Definition numeral_char (c : ascii) : bool :=
  FloatParse.is_digit c || Ascii.eqb c "." || Ascii.eqb c ",".

(** What [_convert_to_number] makes of the result of [float]: the value
    scaled by [k], or [None] when [float] raised. *)
Definition scaled (k : Z) (r : outcome float) : outcome (option float) :=
  match r with
  | Returns x => Returns (Some (Float.mul x (Float.of_Z k)))
  | Raises _ => Returns None
  end.

Definition plain (r : outcome float) : outcome (option float) :=
  match r with
  | Returns x => Returns (Some x)
  | Raises _ => Returns None
  end.

(** The value of a run of digits read after [acc], and the length of a
    text as an integer. *)
Fixpoint dval (acc : Z) (s : string) : Z :=
  match s with
  | EmptyString => acc
  | String c s' =>
      match FloatParse.digit c with
      | Some d => dval (10 * acc + d) s'
      | None => acc
      end
  end.

Definition slen (s : string) : Z := Z.of_nat (String.length s).

(** The characters of a fixed-point numeral as [format] prints it. *)
Definition fixed_char (c : ascii) : bool :=
  FloatParse.is_digit c || Ascii.eqb c "." || Ascii.eqb c "-".

(** The text [DefillamaPipeline._convert_to_number] hands to [float]: the
    cleaned text, in lower case and without its unit indicator when it has
    one. *)
Definition remainder (s : string) : string :=
  let c := DefillamaPipeline.clean s in
  if Str.contains "b" (Str.lower c) then Str.replace "b" "" (Str.lower c)
  else if Str.contains "m" (Str.lower c) then Str.replace "m" "" (Str.lower c)
  else c.

(** The characters [clean] keeps. *)
Definition kept (c : ascii) : bool := is_not "$" c && is_not "," c.

(** The value a field holds after the cleaning loop of [process_item]. *)
Definition cleaned (v : pyval) : pyval :=
  match v with
  | VStr s => if truthy v then VStr (DefillamaPipeline.clean s) else v
  | _ => v
  end.

(** A field as the spider fills it (a [str]) or leaves it ([None]). *)
Definition raw_field (v : pyval) : bool :=
  match v with
  | VNone | VStr _ => true
  | _ => false
  end.

(** The number [_convert_to_number] returns, [None] included. *)
Definition number_of (v : pyval) : option float :=
  match DefillamaPipeline._convert_to_number v with
  | Returns o => o
  | Raises _ => None
  end.

(** The quotient [process_item] formats: both fields read as numbers, the
    market cap is not zero and the revenue is greater than zero. *)
Definition quotient (market_cap annual_revenue : pyval) : option float :=
  match number_of market_cap, number_of annual_revenue with
  | Some m, Some r =>
      if Float.truthy m && Float.ltb Float.zero r then Some (Float.div m r) else None
  | _, _ => None
  end.

Definition ratio_text (q : option float) : string :=
  match q with
  | Some x => FloatFormat.format_2f x
  | None => "Not calculable"
  end.

(** What [store_in_database] binds to [pe_ratio] for the text
    [process_item] has put in the item. *)
Definition stored_ratio (q : option float) : option float :=
  match q with
  | Some x =>
      match FloatParse.float_of_str (FloatFormat.format_2f x) with
      | Returns y => Some y
      | Raises _ => None
      end
  | None => None
  end.

(** The text [store_in_database] binds to [ticker], or the exception of
    an insert that SQLite or [sqlite3] refuses. *)
Definition ticker_bound `{!RealText} (item : Item) : outcome string :=
  bound ← bind_text (item_get_default item "protocol" (VStr ""));
  match bound with
  | Some text => Returns text
  | None => Raises IntegrityError
  end.

(** The row [store_in_database] inserts for an item whose ticker is bound
    as [ticker] and whose ratio text converts to [pe]. *)
Definition metric_row (item : Item) (now : Z) (db : database) (ticker : string)
    (pe : option float) : row :=
  {| row_id := next_rowid db;
     row_timestamp := now;
     row_ticker := ticker;
     row_price := None;
     row_market_cap := bind_real (number_of (item_get_default item "market_cap" (VStr "0")));
     row_annualized_revenue :=
       bind_real (number_of (item_get_default item "annual_revenue" (VStr "0")));
     row_pe_ratio := bind_real pe |}.

Definition append_row (db : database) (r : row) : database :=
  {| rows := rows db ++ [r]; seq := row_id r |}.

(** The columns of a record other than the id and timestamp the store
    assigns. *)
Definition record_fields (r : row)
    : string * option float * option float * option float * option float :=
  (row_ticker r, row_price r, row_market_cap r, row_annualized_revenue r, row_pe_ratio r).

(** The rows a call added to the table. *)
Definition appended (before after : database) : list row :=
  drop (length (rows before)) (rows after).

(** The item [process_item] leaves behind and returns, and the table after
    its call to [store_in_database]. *)
Definition processed (item : Item) : Item :=
  <["pe_ratio" :=
      VStr (ratio_text (quotient (item_get item "market_cap")
                          (item_get item "annual_revenue")))]>
    (foldl DefillamaPipeline.clean_field item ["market_cap"; "annual_revenue"]).

Definition stored `{!RealText} (item : Item) (now : Z) (db : database) : database :=
  match ticker_bound item with
  | Returns ticker =>
      append_row db
        (metric_row item now db ticker
           (stored_ratio (quotient (item_get item "market_cap")
                            (item_get item "annual_revenue"))))
  | Raises _ => db
  end.

(** Both raw fields parse, the market cap is not zero, the revenue is
    greater than zero, and [q] is their quotient. *)
Definition calculable (market_cap annual_revenue : pyval) (q : float) : Prop :=
  exists m v,
    DefillamaPipeline._convert_to_number market_cap = Returns (Some m)
    /\ DefillamaPipeline._convert_to_number annual_revenue = Returns (Some v)
    /\ Float.truthy m = true
    /\ Float.ltb Float.zero v = true
    /\ q = Float.div m v.

(** What [store_in_database] binds to [pe_ratio]. *)
Definition ratio_bound (item : Item) : outcome (option float) :=
  if ne_str (item_get item "pe_ratio") "Not calculable"
  then x ← py_float (item_get_default item "pe_ratio" (VStr "0")); mret (Some x)
  else mret None.

(** The records a call of [process_item] on [item] adds to the table,
    without the id and timestamp the store assigns. *)
Definition normalized `{!RealText} (item : Item)
    : list (string * option float * option float * option float * option float) :=
  match ticker_bound item with
  | Returns ticker =>
      [(ticker, None,
        bind_real (number_of (item_get_default item "market_cap" (VStr "0"))),
        bind_real (number_of (item_get_default item "annual_revenue" (VStr "0"))),
        bind_real (stored_ratio (quotient (item_get item "market_cap")
                                   (item_get item "annual_revenue"))))]
  | Raises _ => []
  end.

(** Items as the spider yields them. *)
Definition item_alpha : Item := DefillamaSpider.parse "alpha" (Some "$4B") (Some "$1B").
Definition item_zero_cap : Item := DefillamaSpider.parse "hyperliquid" (Some "0") (Some "$2B").
Definition item_hyperliquid : Item :=
  DefillamaSpider.parse "hyperliquid" (Some "$1.5B") (Some "$250M").
Definition item_unparseable : Item :=
  DefillamaSpider.parse "hyperliquid" (Some "n/a") (Some "$250M").

(** The test that opens the ratio computation of [process_item]. *)
Definition guard (a b : pyval) : bool :=
  truthy a && truthy b && ne_str a "Not found" && ne_str b "Not found".

(** [r] is the record of ticker [t] with the largest id. *)
Definition latest_of (t : string) (rs : list row) (r : row) : Prop :=
  r ∈ rs /\ row_ticker r = t
  /\ forall r', r' ∈ rs -> row_ticker r' = t -> row_id r' <= row_id r.

(** A batch of appends: each item stored at its clock reading. *)
Fixpoint appends `{!RealText} (batch : list (Item * Z)) (db : database) : database :=
  match batch with
  | [] => db
  | (item, now) :: rest =>
      appends rest (DefillamaPipeline.store_in_database item now db).2
  end.

(** An item of ticker [k] that [store_in_database] accepts. *)
Definition accepted (k : string) (item : Item) : Prop :=
  item_get_default item "protocol" (VStr "") = VStr k
  /\ exists pe, ratio_bound item = Returns pe.

(** Tables for the examples: one key stored twice and another once; and
    one key stored at a clock reading of 20, then of 10. *)
Definition db_three `{!RealText} : database :=
  appends [(processed item_alpha, 10); (processed item_hyperliquid, 20);
           (processed (DefillamaSpider.parse "alpha" (Some "$6B") (Some "$1B")), 30)]
    empty_db.

Definition db_clock_back `{!RealText} : database :=
  appends [(processed item_alpha, 20);
           (processed (DefillamaSpider.parse "alpha" (Some "$6B") (Some "$1B")), 10)]
    empty_db.

(** The examples are run with this rendering of a [REAL]; no ticker of
    theirs is a [float], so that it is never called. *)
Definition example_real_text : RealText := fun _ => "".
(** A character that [float] accepts nowhere in a text: no white space,
    digit, point, sign, underscore nor letter of an exponent, [inf],
    [infinity] or [nan]. *)
Definition foreign (c : ascii) : bool :=
  negb (FloatParse.isspace c || FloatParse.is_digit c
        || sany (Ascii.eqb c) "._+-"
        || sany (Ascii.eqb (Str.lower_char c)) "einftya").

(** The float that the digits [D], a point and the digits [F] denote. *)
Definition numeral_value (D F : string) : float :=
  Float.of_decimal false (dval (dval 0 D) F) (- slen F).

(** The factor of a unit indicator. *)
Definition unit_factor (sfx : string) : option Z :=
  if String.eqb sfx "b" || String.eqb sfx "B" then Some (10 ^ 9)
  else if String.eqb sfx "m" || String.eqb sfx "M" then Some (10 ^ 6)
  else None.

(** Text without currency symbol, thousands separator and white space at
    its ends. *)
Definition tidy (s : string) : Prop :=
  sall kept s = true /\ Str.strip s = s.

(** A table as the pipeline builds it: the i-th record has the id i + 1,
    the sequence holds the number of records, and every record has no
    price and numbers as SQLite keeps them (no NaN, no negative zero). *)
Definition pipeline_row (r : row) : Prop :=
  row_price r = None
  /\ bind_real (row_market_cap r) = row_market_cap r
  /\ bind_real (row_annualized_revenue r) = row_annualized_revenue r
  /\ bind_real (row_pe_ratio r) = row_pe_ratio r.

Definition pipeline_table (db : database) : Prop :=
  (forall (i : nat) r, rows db !! i = Some r -> row_id r = Z.of_nat i + 1)
  /\ seq db = Z.of_nat (length (rows db))
  /\ Forall pipeline_row (rows db).

(** [r] is a record of ticker [t] with the latest timestamp. *)
Definition newest_of (t : string) (rs : list row) (r : row) : Prop :=
  r ∈ rs /\ row_ticker r = t
  /\ forall r', r' ∈ rs -> row_ticker r' = t -> row_timestamp r' <= row_timestamp r.

(** The timestamps of a frame have one format: all are on a whole
    second, or none is. *)
Definition one_format (rs : list row) : Prop :=
  forall r r', r ∈ rs -> r' ∈ rs ->
    whole_second (row_timestamp r) = whole_second (row_timestamp r').

(** The timestamps that [pd.to_datetime] converts: of one format, and
    within the range of a 64-bit count of nanoseconds (the years 1678 to
    2261 are). *)
Definition convertible (rs : list row) : Prop :=
  one_format rs /\ forall r, r ∈ rs -> nanoseconds_fit (row_timestamp r) = true.

(** The values [sqlite3] refuses to bind or SQLite to store as a ticker:
    [None], a NaN, an [int] outside 64 bits. *)
Definition refused (v : pyval) : Prop :=
  v = VNone
  \/ (exists x, v = VFloat x /\ Float.is_nan x = true)
  \/ (exists n, v = VInt n /\ ~ (- 2 ^ 63 <= n < 2 ^ 63)).

(** The entries in what [query_database] printed. *)
Definition listed (output : printed) : list entry :=
  match output with
  | Entries entries => entries
  | _ => []
  end.
(** ** Text lemmas *)

Section text.

Lemma prefix_single c a s :
  String.prefix (String c EmptyString) (String a s) = Ascii.eqb c a.
Proof.
  cbn [String.prefix]. destruct (ascii_dec c a) as [Heq|Hne].
  - subst. rewrite Ascii.eqb_refl. by destruct s.
  - symmetry. by apply Ascii.eqb_neq.
Qed.

Lemma replace_single c s :
  Str.replace (String c EmptyString) "" s = sfilter (is_not c) s.
Proof.
  unfold Str.replace. induction s as [|a s IH]; [done|].
  cbn [Str.replace_from sfilter]. rewrite prefix_single. unfold is_not at 1.
  destruct (Ascii.eqb c a); simpl; by rewrite IH.
Qed.

Lemma contains_single c s :
  Str.contains (String c EmptyString) s = sany (Ascii.eqb c) s.
Proof.
  induction s as [|a s IH]; [done|].
  cbn [Str.contains sany]. by rewrite prefix_single, IH.
Qed.

Lemma append_cons c s t : String c s +:+ t = String c (s +:+ t).
Proof. reflexivity. Qed.

Lemma append_empty_l s : "" +:+ s = s.
Proof. reflexivity. Qed.

Lemma append_empty_r s : s +:+ "" = s.
Proof. induction s as [|c s IH]; [done|]. by rewrite append_cons, IH. Qed.

Lemma sfilter_app f a b : sfilter f (a +:+ b) = sfilter f a +:+ sfilter f b.
Proof. induction a as [|c a IH]; simpl; [done|]. destruct (f c); simpl; by rewrite IH. Qed.

Lemma sall_app P a b : sall P (a +:+ b) = sall P a && sall P b.
Proof. induction a as [|c a IH]; simpl; [done|]. by rewrite IH, andb_assoc. Qed.

Lemma sany_app P a b : sany P (a +:+ b) = sany P a || sany P b.
Proof. induction a as [|c a IH]; simpl; [done|]. by rewrite IH, orb_assoc. Qed.

Lemma sall_impl (P Q : ascii -> bool) s :
  (forall c, P c = true -> Q c = true) -> sall P s = true -> sall Q s = true.
Proof.
  intros HPQ. induction s as [|c s IH]; simpl; [done|].
  intros [Hc Hs]%andb_true_iff. rewrite (HPQ c Hc). by apply IH.
Qed.

Lemma sfilter_id f s : sall f s = true -> sfilter f s = s.
Proof.
  induction s as [|c s IH]; simpl; [done|].
  intros [-> Hs]%andb_true_iff. by rewrite IH.
Qed.

Lemma sall_sfilter f s : sall f (sfilter f s) = true.
Proof.
  induction s as [|c s IH]; simpl; [done|].
  destruct (f c) eqn:Hc; simpl; [by rewrite Hc|done].
Qed.

Lemma sall_sfilter_keep P f s : sall P s = true -> sall P (sfilter f s) = true.
Proof.
  induction s as [|c s IH]; simpl; [done|].
  intros [Hc Hs]%andb_true_iff. destruct (f c); simpl; [rewrite Hc|]; by apply IH.
Qed.

Lemma sany_false_sall P s : sany P s = negb (sall (fun c => negb (P c)) s).
Proof.
  induction s as [|c s IH]; simpl; [done|].
  rewrite IH. by destruct (P c).
Qed.

Lemma lower_app a b : Str.lower (a +:+ b) = Str.lower a +:+ Str.lower b.
Proof. induction a as [|c a IH]; simpl; [done|]. by rewrite IH. Qed.

Lemma lower_id s :
  sall (fun c => Ascii.eqb (Str.lower_char c) c) s = true -> Str.lower s = s.
Proof.
  induction s as [|c s IH]; simpl; [done|].
  intros [Hc%Ascii.eqb_eq Hs]%andb_true_iff. by rewrite Hc, IH.
Qed.

Lemma rtrim_cons sp c s :
  rtrim sp (String c s) =
  if sp c && String.eqb (rtrim sp s) "" then EmptyString
  else String c (rtrim sp s).
Proof.
  cbn [rtrim]. destruct (rtrim sp s); simpl; by destruct (sp c).
Qed.

Lemma ltrim_rtrim sp s : ltrim sp (rtrim sp s) = rtrim sp (ltrim sp s).
Proof.
  induction s as [|c s IH]; [done|].
  rewrite rtrim_cons. cbn [ltrim].
  destruct (sp c) eqn:Hc.
  - cbn [andb]. destruct (String.eqb_spec (rtrim sp s) "") as [He|Hne].
    + rewrite <- IH, He. done.
    + cbn [ltrim]. by rewrite Hc.
  - cbn [andb ltrim]. rewrite Hc. by rewrite rtrim_cons, Hc.
Qed.

Lemma ltrim_nospace sp s : sall (fun c => negb (sp c)) s = true -> ltrim sp s = s.
Proof. destruct s as [|c s]; simpl; [done|]. by intros [->%negb_true_iff _]%andb_true_iff. Qed.

Lemma rtrim_nospace sp s : sall (fun c => negb (sp c)) s = true -> rtrim sp s = s.
Proof.
  induction s as [|c s IH]; [done|].
  cbn [sall]. intros [Hc%negb_true_iff Hs]%andb_true_iff.
  by rewrite rtrim_cons, Hc, IH.
Qed.

Lemma strip_nospace s : sall (fun c => negb (Str.isspace c)) s = true -> Str.strip s = s.
Proof. intros H. unfold Str.strip. by rewrite ltrim_nospace, rtrim_nospace. Qed.

End text.

(** ** Rounding never yields a NaN *)

Section rounding.

Lemma shr_1_nonneg mrs : 0 <= shr_m mrs -> 0 <= shr_m (shr_1 mrs).
Proof. destruct mrs as [[|[p|p|]|p] r s]; simpl; lia. Qed.

Lemma iter_shr_1_nonneg p mrs : 0 <= shr_m mrs -> 0 <= shr_m (SpecFloat.iter_pos shr_1 p mrs).
Proof.
  revert mrs. induction p as [p IH|p IH|]; intros mrs H; simpl.
  - apply IH, IH. by apply shr_1_nonneg.
  - by apply IH, IH.
  - by apply shr_1_nonneg.
Qed.

Lemma shr_fexp_nonneg m e l :
  0 <= m -> 0 <= shr_m (shr_fexp Float.prec Float.emax m e l).1.
Proof.
  intros Hm. unfold shr_fexp, shr.
  assert (0 <= shr_m (shr_record_of_loc m l)) as H0 by (by destruct l as [|[]]).
  destruct (_ - e); simpl; [done| |done].
  by apply iter_shr_1_nonneg.
Qed.

Lemma round_nearest_even_nonneg m l : 0 <= m -> 0 <= round_nearest_even m l.
Proof. intros Hm. destruct l as [|[]]; simpl; try lia. destruct (Z.even m); lia. Qed.

Lemma binary_round_aux_not_nan s m e l :
  0 <= m -> Float.is_nan (binary_round_aux Float.prec Float.emax s m e l) = false.
Proof.
  intros Hm. unfold binary_round_aux.
  pose proof (shr_fexp_nonneg m e l Hm) as H1.
  destruct (shr_fexp Float.prec Float.emax m e l) as [mrs' e']. simpl in H1.
  pose proof (shr_fexp_nonneg _ e' loc_Exact
                (round_nearest_even_nonneg _ (loc_of_shr_record mrs') H1)) as H2.
  destruct (shr_fexp _ _ (round_nearest_even _ _) e' loc_Exact) as [mrs'' e''].
  simpl in H2. destruct (shr_m mrs'') as [|p|p]; [done| |lia].
  by destruct (e'' <=? _).
Qed.

Lemma binary_normalize_not_nan n e :
  Float.is_nan (binary_normalize Float.prec Float.emax n e false) = false.
Proof.
  destruct n as [|p|p]; simpl; [done| |].
  all: unfold binary_round; destruct (shl_align _ _ _) as [mz ez];
    by apply binary_round_aux_not_nan.
Qed.

Lemma div_finite_not_nan sx mx ex sy my ey :
  Float.is_nan (SFdiv Float.prec Float.emax
                  (S754_finite sx mx ex) (S754_finite sy my ey)) = false.
Proof.
  unfold SFdiv, SFdiv_core_binary.
  set (m' := match _ - _ - _ with Z0 => Z.pos mx | Z.pos _ => _ | Z.neg _ => 0 end).
  assert (0 <= m') as Hm'.
  { subst m'. destruct (_ - _ - _); [lia| |lia]. by apply Z.shiftl_nonneg. }
  pose proof (Z.div_eucl_eq m' (Z.pos my) ltac:(lia)) as Heq.
  pose proof (Z.mod_pos_bound m' (Z.pos my) ltac:(lia)) as Hmod.
  unfold Z.modulo in Hmod.
  destruct (Z.div_eucl m' (Z.pos my)) as [q r].
  apply binary_round_aux_not_nan. nia.
Qed.

Lemma of_decimal_not_nan neg m e : Float.is_nan (Float.of_decimal neg m e) = false.
Proof.
  unfold Float.of_decimal. destruct m as [|p|p]; [done| |done].
  destruct e as [|k|k].
  - apply binary_normalize_not_nan.
  - apply binary_normalize_not_nan.
  - apply div_finite_not_nan.
Qed.

End rounding.

(** ** [float] reads what [format] prints *)

Ltac by_chars c :=
  destruct c as [[] [] [] [] [] [] [] []]; vm_compute;
  try (intros; discriminate); try reflexivity; auto.

Section parsing.

Lemma fixed_char_nospace c :
  fixed_char c = true -> negb (FloatParse.isspace c) = true.
Proof. by_chars c. Qed.

Lemma fixed_char_no_underscore c :
  fixed_char c = true -> Ascii.eqb c "_" = false.
Proof. by_chars c. Qed.

Lemma digit_fixed c : FloatParse.is_digit c = true -> fixed_char c = true.
Proof. by_chars c. Qed.

Lemma digit_no_sign c :
  FloatParse.is_digit c = true -> Ascii.eqb c "-" = false /\ Ascii.eqb c "+" = false.
Proof. by_chars c. Qed.

Lemma digit_lower c :
  FloatParse.is_digit c = true -> Ascii.eqb (Str.lower_char c) c = true.
Proof. by_chars c. Qed.

Lemma digit_not_letter c :
  FloatParse.is_digit c = true ->
  Ascii.eqb c "i" = false /\ Ascii.eqb c "n" = false.
Proof. by_chars c. Qed.

Lemma digits_app D : forall acc n r,
  sall FloatParse.is_digit D = true ->
  FloatParse.digits acc n (D +:+ r) = FloatParse.digits (dval acc D) (n + slen D) r.
Proof.
  induction D as [|c D IH]; intros acc n r H.
  - simpl. unfold slen. simpl. by rewrite Z.add_0_r.
  - cbn [sall] in H. apply andb_true_iff in H as [Hc HD].
    unfold FloatParse.is_digit in Hc.
    change (String c D +:+ r) with (String c (D +:+ r)).
    cbn [FloatParse.digits dval].
    destruct (FloatParse.digit c) as [d|]; [|done].
    rewrite IH by done. f_equal. unfold slen. cbn [String.length]. lia.
Qed.

Lemma underscores_ok_none s prev :
  sall (fun c => negb (Ascii.eqb c "_")) s = true ->
  match prev with Some p => Ascii.eqb p "_" | None => false end = false ->
  FloatParse.underscores_ok prev s = true.
Proof.
  revert prev. induction s as [|c s IH]; intros prev Hs Hp.
  - simpl. destruct prev; [by rewrite Hp|done].
  - cbn [sall] in Hs. apply andb_true_iff in Hs as [Hc Hs].
    cbn [FloatParse.underscores_ok]. rewrite Hp.
    apply negb_true_iff in Hc. rewrite Hc. simpl.
    apply IH; done.
Qed.

Lemma drop_underscores_none s :
  sall (fun c => negb (Ascii.eqb c "_")) s = true -> FloatParse.drop_underscores s = s.
Proof.
  induction s as [|c s IH]; [done|].
  cbn [sall]. intros [Hc%negb_true_iff Hs]%andb_true_iff.
  cbn [FloatParse.drop_underscores]. by rewrite Hc, IH.
Qed.

Lemma string_of_uint_digits d :
  sall FloatParse.is_digit (NilEmpty.string_of_uint d) = true.
Proof. induction d; simpl; done. Qed.

Lemma decimal_of_N_digits n : sall FloatParse.is_digit (FloatFormat.decimal_of_N n) = true.
Proof.
  unfold FloatFormat.decimal_of_N, NilZero.string_of_uint.
  destruct (N.to_uint n); try done; apply string_of_uint_digits.
Qed.

Lemma decimal_of_N_nonempty n : FloatFormat.decimal_of_N n <> EmptyString.
Proof.
  unfold FloatFormat.decimal_of_N, NilZero.string_of_uint.
  by destruct (N.to_uint n).
Qed.

Lemma two_digits_digits n : sall FloatParse.is_digit (FloatFormat.two_digits n) = true.
Proof.
  unfold FloatFormat.two_digits. destruct (n <? 10)%N; simpl; apply decimal_of_N_digits.
Qed.

(** A printed fixed-point numeral reads back as a number. *)
Lemma float_of_str_fixed neg D F :
  sall FloatParse.is_digit D = true -> D <> EmptyString ->
  sall FloatParse.is_digit F = true ->
  FloatParse.float_of_str (FloatFormat.sign_text neg +:+ D +:+ "." +:+ F) =
  Returns (Float.of_decimal neg (dval (dval 0 D) F) (- slen F)).
Proof.
  intros HD Hne HF.
  assert (sall fixed_char (D +:+ "." +:+ F) = true) as Hbody.
  { rewrite !sall_app, (sall_impl _ _ _ digit_fixed HD), (sall_impl _ _ _ digit_fixed HF). done. }
  assert (sall fixed_char (FloatFormat.sign_text neg +:+ D +:+ "." +:+ F) = true) as Hall.
  { rewrite sall_app, Hbody. by destruct neg. }
  unfold FloatParse.float_of_str.
  rewrite ltrim_nospace, rtrim_nospace
    by (eapply sall_impl; [apply fixed_char_nospace|done]).
  assert (sall (fun c => negb (Ascii.eqb c "_"))
            (FloatFormat.sign_text neg +:+ D +:+ "." +:+ F) = true) as Hus.
  { eapply sall_impl; [|exact Hall].
    intros c Hc. by rewrite (fixed_char_no_underscore c Hc). }
  rewrite underscores_ok_none, drop_underscores_none by done.
  destruct D as [|c D]; [done|]. clear Hne.
  cbn [sall] in HD. apply andb_true_iff in HD as [Hc HD].
  assert (FloatParse.sign
            (FloatFormat.sign_text neg +:+ String c D +:+ "." +:+ F)
          = (neg, String c D +:+ "." +:+ F)) as ->.
  { destruct neg; [done|].
    change (FloatParse.sign (String c (D +:+ "." +:+ F)) = (false, String c D +:+ "." +:+ F)).
    unfold FloatParse.sign. by destruct (digit_no_sign c Hc) as [-> ->]. }
  assert (Str.lower (String c D +:+ "." +:+ F) = String c D +:+ "." +:+ F) as ->.
  { apply lower_id. rewrite !sall_app. cbn [sall].
    rewrite (digit_lower c Hc), (sall_impl _ _ _ digit_lower HD),
      (sall_impl _ _ _ digit_lower HF). done. }
  destruct (digit_not_letter c Hc) as [Hi Hn].
  change (String c D +:+ "." +:+ F) with (String c (D +:+ "." +:+ F)).
  assert (forall X w, (w = "inf" \/ w = "infinity" \/ w = "nan") ->
                      String.eqb (String c X) w = false) as Hw.
  { intros X w [->|[->| ->]]; simpl; by rewrite ?Hi, ?Hn. }
  rewrite !Hw by auto. cbn [orb].
  assert (FloatParse.decimal (String c (D +:+ "." +:+ F))
          = Some (dval (dval 0 (String c D)) F, - slen F)) as ->; [|done].
  unfold FloatParse.decimal.
  change (String c (D +:+ "." +:+ F)) with (String c D +:+ "." +:+ F).
  rewrite digits_app by (cbn [sall]; by rewrite Hc, HD).
  change ("." +:+ F) with (String "."%char F).
  cbn [FloatParse.digits]. change (FloatParse.digit ".") with (@None Z).
  cbn match. change (Ascii.eqb "." ".") with true. cbn match.
  rewrite <- (append_empty_r F) at 1.
  rewrite digits_app by done. cbn [FloatParse.digits].
  assert ((0 + slen (String c D) + (0 + slen F) =? 0) = false) as ->.
  { apply Z.eqb_neq. unfold slen. cbn [String.length]. lia. }
  by rewrite Z.add_0_l.
Qed.

Lemma float_of_format x :
  exists y, FloatParse.float_of_str (FloatFormat.format_2f x) = Returns y
            /\ Float.is_nan y = Float.is_nan x.
Proof.
  destruct x as [s|s| |s m e].
  - exists (S754_zero s). by destruct s.
  - exists (S754_infinity s). by destruct s.
  - by exists S754_nan.
  - eexists. split.
    + unfold FloatFormat.format_2f.
      apply float_of_str_fixed;
        auto using decimal_of_N_digits, decimal_of_N_nonempty, two_digits_digits.
    + apply of_decimal_not_nan.
Qed.

Lemma float_of_str_raises s e : FloatParse.float_of_str s = Raises e -> e = ValueError.
Proof.
  unfold FloatParse.float_of_str.
  repeat (match goal with
          | |- context [if ?b then _ else _] => destruct b
          | |- context [let '(_, _) := ?p in _] => destruct p
          | |- context [match ?o with Some _ => _ | None => _ end] => destruct o
          end; try congruence).
Qed.

End parsing.

(** ** Sorting *)

Section sorting.

Context {A : Type} (R : relation A) `{!RelDecision R}.

Lemma insert_by_perm x l : insert_by R x l ≡ₚ x :: l.
Proof.
  induction l as [|y l IH]; [done|]. cbn [insert_by].
  destruct (decide (R x y)); [done|]. rewrite IH. apply Permutation_swap.
Qed.

Lemma sort_by_perm l : sort_by R l ≡ₚ l.
Proof.
  induction l as [|x l IH]; [done|]. cbn [sort_by foldr]. fold (sort_by R l).
  by rewrite insert_by_perm, IH.
Qed.

Lemma insert_by_sorted `{!Transitive R} `{!Total R} x l :
  StronglySorted R l -> StronglySorted R (insert_by R x l).
Proof.
  induction l as [|y l IH]; intros Hl; cbn [insert_by].
  - repeat constructor.
  - apply StronglySorted_cons in Hl as [Hy Hl].
    destruct (decide (R x y)) as [Hxy|Hxy].
    + constructor; [by constructor|]. constructor; [done|].
      eapply Forall_impl; [exact Hy|]. intros z Hz. by transitivity y.
    + constructor; [by apply IH|]. rewrite insert_by_perm. constructor; [|done].
      by destruct (total R x y).
Qed.

Lemma sort_by_sorted `{!Transitive R} `{!Total R} l : StronglySorted R (sort_by R l).
Proof.
  induction l as [|x l IH]; [constructor|]. cbn [sort_by foldr]. fold (sort_by R l).
  by apply insert_by_sorted.
Qed.

End sorting.

Section filtering.

Context {A : Type}.

Lemma filter_all (P : A -> Prop) `{forall x, Decision (P x)} (l : list A) :
  Forall P l -> filter P l = l.
Proof.
  induction 1 as [|x l Hx _ IH]; [done|]. by rewrite filter_cons, decide_True, IH.
Qed.

Lemma filter_none (P : A -> Prop) `{forall x, Decision (P x)} (l : list A) :
  Forall (fun x => ~ P x) l -> filter P l = [].
Proof.
  induction 1 as [|x l Hx _ IH]; [done|]. by rewrite filter_cons, decide_False, IH.
Qed.

Lemma filter_equiv (P Q : A -> Prop) `{forall x, Decision (P x)}
    `{forall x, Decision (Q x)} (l : list A) :
  Forall (fun x => P x <-> Q x) l -> filter P l = filter Q l.
Proof.
  induction 1 as [|x l [H1 H2] _ IH]; [done|]. rewrite !filter_cons, IH.
  destruct (decide (P x)) as [p|np], (decide (Q x)) as [q|nq]; try done.
  - by destruct (nq (H1 p)).
  - by destruct (np (H2 q)).
Qed.

End filtering.

Section newest_first.

#[global] Instance newer_first_trans : Transitive newer_first.
Proof. intros a b c. unfold newer_first. lia. Qed.

#[global] Instance newer_first_total : Total newer_first.
Proof. intros a b. unfold newer_first. lia. Qed.

Lemma order_by_timestamp_desc_perm rs : order_by_timestamp_desc rs ≡ₚ rs.
Proof. apply sort_by_perm. Qed.

Lemma order_by_timestamp_desc_sorted rs :
  StronglySorted newer_first (order_by_timestamp_desc rs).
Proof. apply sort_by_sorted; apply _. Qed.

Lemma elem_of_tickers t rs : t ∈ tickers rs <-> t ∈ row_ticker <$> rs.
Proof. unfold tickers. by rewrite sort_by_perm, elem_of_remove_dups. Qed.

Lemma NoDup_tickers rs : NoDup (tickers rs).
Proof. unfold tickers. rewrite sort_by_perm. apply NoDup_remove_dups. Qed.

End newest_first.

(** ** NumericParser: [_convert_to_number] *)

Section numeric_parser.

Import DefillamaPipeline.

Lemma convert_str s :
  _convert_to_number (VStr s) =
  if Str.contains "b" (Str.lower (clean s))
  then scaled 1000000000 (FloatParse.float_of_str (Str.replace "b" "" (Str.lower (clean s))))
  else if Str.contains "m" (Str.lower (clean s))
  then scaled 1000000 (FloatParse.float_of_str (Str.replace "m" "" (Str.lower (clean s))))
  else plain (FloatParse.float_of_str (clean s)).
Proof.
  unfold _convert_to_number, str_method. cbn [mbind outcome_bind obind].
  destruct (Str.contains "b" _); [|destruct (Str.contains "m" _)].
  all: destruct (FloatParse.float_of_str _) as [x|e] eqn:E; [done|].
  all: apply float_of_str_raises in E; by subst.
Qed.

Lemma convert_not_str v :
  (forall s, v <> VStr s) -> _convert_to_number v = Returns None.
Proof. intros H. destruct v; try done. by destruct (H s). Qed.

Lemma convert_total v : exists r, _convert_to_number v = Returns r.
Proof.
  destruct v as [|s|n|x]; try (by eexists).
  rewrite convert_str. unfold scaled, plain. repeat case_match; by eexists.
Qed.

Lemma numeral_char_facts c :
  numeral_char c = true ->
  is_not "$" c = true /\ negb (Str.isspace c) = true
  /\ Ascii.eqb (Str.lower_char c) c = true
  /\ is_not "b" c = true /\ is_not "m" c = true.
Proof. by_chars c. Qed.

(** The cleaned, lower-case form of a magnitude string: currency symbol,
    numeric prefix, unit indicator. *)
Lemma magnitude_clean cur p sfx low :
  (cur = "" \/ cur = "$") ->
  ((sfx = "b" \/ sfx = "B") /\ low = "b" \/ (sfx = "m" \/ sfx = "M") /\ low = "m") ->
  sall numeral_char p = true ->
  Str.lower (clean (cur +:+ p +:+ sfx)) = Str.replace "," "" p +:+ low
  /\ sall numeral_char (Str.replace "," "" p) = true.
Proof.
  intros Hcur Hsfx Hp. rewrite replace_single.
  set (p' := sfilter (is_not ",") p).
  assert (sall numeral_char p' = true) as Hp' by by apply sall_sfilter_keep.
  split; [|done].
  assert (clean (cur +:+ p +:+ sfx) = p' +:+ sfx) as ->.
  { unfold clean. rewrite !replace_single, !sfilter_app.
    rewrite (sfilter_id (is_not "$") p)
      by (eapply sall_impl; [|exact Hp]; intros c Hc; by apply numeral_char_facts).
    fold p'.
    assert (sfilter (is_not ",") (sfilter (is_not "$") cur) = "") as ->
      by (by destruct Hcur as [-> | ->]).
    assert (sfilter (is_not ",") (sfilter (is_not "$") sfx) = sfx) as ->
      by (by destruct Hsfx as [[[-> | ->] _]|[[-> | ->] _]]).
    rewrite append_empty_l. apply strip_nospace. rewrite sall_app.
    rewrite (sall_impl numeral_char _ p') by (done || intros c Hc; by apply numeral_char_facts).
    by destruct Hsfx as [[[-> | ->] _]|[[-> | ->] _]]. }
  rewrite lower_app, lower_id
    by (eapply sall_impl; [|exact Hp']; intros c Hc; by apply numeral_char_facts).
  by destruct Hsfx as [[[-> | ->] ->]|[[-> | ->] ->]].
Qed.

(** C1: a magnitude string whose cleaned form holds the billion indicator
    is read as its remainder times 10^9, one that holds the million
    indicator (and no billion indicator) as its remainder times 10^6, and
    any other text as a plain decimal number ([None] when [float] rejects
    the remainder). For a string made of an optional currency symbol, a
    numeric prefix and the indicator, the remainder is the prefix without
    its thousands separators. "$1.5B" gives 1_500_000_000 and "250M" gives
    250_000_000. *)
Theorem convert_to_number_magnitude :
  (forall s, Str.contains "b" (Str.lower (clean s)) = true ->
     _convert_to_number (VStr s) =
     scaled (10 ^ 9) (FloatParse.float_of_str (Str.replace "b" "" (Str.lower (clean s)))))
  /\ (forall s, Str.contains "b" (Str.lower (clean s)) = false ->
        Str.contains "m" (Str.lower (clean s)) = true ->
        _convert_to_number (VStr s) =
        scaled (10 ^ 6) (FloatParse.float_of_str (Str.replace "m" "" (Str.lower (clean s)))))
  /\ (forall s, Str.contains "b" (Str.lower (clean s)) = false ->
        Str.contains "m" (Str.lower (clean s)) = false ->
        _convert_to_number (VStr s) = plain (FloatParse.float_of_str (clean s)))
  /\ (forall cur p sfx, (cur = "" \/ cur = "$") -> (sfx = "b" \/ sfx = "B") ->
        sall numeral_char p = true ->
        _convert_to_number (VStr (cur +:+ p +:+ sfx)) =
        scaled (10 ^ 9) (FloatParse.float_of_str (Str.replace "," "" p)))
  /\ (forall cur p sfx, (cur = "" \/ cur = "$") -> (sfx = "m" \/ sfx = "M") ->
        sall numeral_char p = true ->
        _convert_to_number (VStr (cur +:+ p +:+ sfx)) =
        scaled (10 ^ 6) (FloatParse.float_of_str (Str.replace "," "" p)))
  /\ _convert_to_number (VStr "$1.5B") = Returns (Some (Float.of_Z 1500000000))
  /\ _convert_to_number (VStr "250M") = Returns (Some (Float.of_Z 250000000)).
Proof.
  split_and!.
  - intros s Hb. by rewrite convert_str, Hb.
  - intros s Hb Hm. by rewrite convert_str, Hb, Hm.
  - intros s Hb Hm. by rewrite convert_str, Hb, Hm.
  - intros cur p sfx Hcur Hsfx Hp.
    destruct (magnitude_clean cur p sfx "b" Hcur) as [Hlow Hp']; [by left|done|].
    rewrite convert_str, Hlow, contains_single, sany_app. cbn [sany].
    rewrite Ascii.eqb_refl, orb_true_r, (replace_single "b"), sfilter_app.
    rewrite sfilter_id
      by (eapply sall_impl; [|exact Hp']; intros c Hc; by apply numeral_char_facts).
    by rewrite append_empty_r.
  - intros cur p sfx Hcur Hsfx Hp.
    destruct (magnitude_clean cur p sfx "m" Hcur) as [Hlow Hp']; [by right|done|].
    rewrite convert_str, Hlow, !contains_single, !sany_app. cbn [sany].
    assert (sany (Ascii.eqb "b") (Str.replace "," "" p) = false) as ->.
    { rewrite sany_false_sall. apply negb_false_iff.
      eapply sall_impl; [|exact Hp']. intros c Hc. by apply numeral_char_facts. }
    rewrite Ascii.eqb_refl, orb_true_r. cbn [orb].
    change (Ascii.eqb "b" "m") with false. cbn match.
    rewrite (replace_single "m"), sfilter_app.
    rewrite sfilter_id
      by (eapply sall_impl; [|exact Hp']; intros c Hc; by apply numeral_char_facts).
    by rewrite append_empty_r.
  - vm_compute. reflexivity.
  - vm_compute. reflexivity.
Qed.

Lemma convert_to_number_magnitude_witness :
  _convert_to_number (VStr ("$" +:+ "1,250.5" +:+ "B")) =
  scaled (10 ^ 9) (FloatParse.float_of_str (Str.replace "," "" "1,250.5")).
Proof.
  apply (proj1 (proj2 (proj2 (proj2 convert_to_number_magnitude)))).
  - right. reflexivity.
  - right. reflexivity.
  - reflexivity.
Defined.

(** C4: the parser never raises; the empty string, a lone currency
    symbol, [None] and every string whose cleaned remainder [float] rejects
    give [None]. *)
Theorem convert_to_number_unparseable :
  (forall v, exists r, _convert_to_number v = Returns r)
  /\ _convert_to_number (VStr "") = Returns None
  /\ _convert_to_number (VStr "$") = Returns None
  /\ _convert_to_number VNone = Returns None
  /\ (forall s e, FloatParse.float_of_str (remainder s) = Raises e ->
        _convert_to_number (VStr s) = Returns None).
Proof.
  split; [apply convert_total|].
  split_and!; try done.
  intros s e He. rewrite convert_str. unfold remainder in He.
  repeat case_match; by rewrite He.
Qed.

Lemma convert_to_number_unparseable_witness :
  _convert_to_number (VStr "$ 12 apples") = Returns None.
Proof.
  apply (proj2 (proj2 (proj2 (proj2 convert_to_number_unparseable))) _ ValueError).
  vm_compute. reflexivity.
Defined.

(** C5, as the code has it: a number handed to the parser (an [int] or a
    [float]) has no [replace] method, the [AttributeError] is caught, and
    the parser returns [None]; so does the spider's copy. *)
Theorem convert_to_number_of_number :
  (forall n, _convert_to_number (VInt n) = Returns None)
  /\ (forall x, _convert_to_number (VFloat x) = Returns None)
  /\ (forall n, DefillamaSpider._convert_to_number (VInt n) = Returns None)
  /\ (forall x, DefillamaSpider._convert_to_number (VFloat x) = Returns None).
Proof. split_and!; done. Qed.

(** C5 as stated fails: the float 2.0 is not returned. *)
Lemma convert_to_number_of_number_counterexample :
  _convert_to_number (VFloat (Float.of_Z 2)) = Returns None
  /\ _convert_to_number (VFloat (Float.of_Z 2)) <> Returns (Some (Float.of_Z 2))
  /\ DefillamaSpider._convert_to_number (VInt 2) <> Returns (Some (Float.of_Z 2)).
Proof. split_and!; done. Qed.

End numeric_parser.

(** ** Cleaning is idempotent and absorbs [strip] *)

Section cleaning.

Import DefillamaPipeline.

Lemma sfilter_sfilter f g s :
  sfilter g (sfilter f s) = sfilter (fun c => f c && g c) s.
Proof.
  induction s as [|c s IH]; [done|]. cbn [sfilter].
  destruct (f c); cbn [sfilter andb]; [destruct (g c)|]; by rewrite IH.
Qed.

Lemma clean_kept s : clean s = Str.strip (sfilter kept s).
Proof. unfold clean. by rewrite !replace_single, sfilter_sfilter. Qed.

Lemma space_kept c : Str.isspace c = true -> kept c = true.
Proof. by_chars c. Qed.

Lemma ltrim_sfilter sp f s :
  (forall c, sp c = true -> f c = true) ->
  ltrim sp (sfilter f (ltrim sp s)) = ltrim sp (sfilter f s).
Proof.
  intros Hsp. induction s as [|c s IH]; [done|].
  cbn [ltrim]. destruct (sp c) eqn:Hc; [|done].
  cbn [sfilter]. rewrite (Hsp c Hc). cbn [ltrim]. by rewrite Hc.
Qed.

Lemma rtrim_sfilter sp f s :
  (forall c, sp c = true -> f c = true) ->
  rtrim sp (sfilter f (rtrim sp s)) = rtrim sp (sfilter f s).
Proof.
  intros Hsp. induction s as [|c s IH]; [done|].
  rewrite rtrim_cons.
  destruct (sp c && String.eqb (rtrim sp s) "") eqn:Hcase.
  - apply andb_true_iff in Hcase as [Hc He%String.eqb_eq].
    cbn [sfilter]. rewrite (Hsp c Hc), rtrim_cons, <- IH, He, Hc. done.
  - cbn [sfilter]. destruct (f c); [|done].
    by rewrite !rtrim_cons, IH.
Qed.

Lemma strip_sfilter f s :
  (forall c, Str.isspace c = true -> f c = true) ->
  Str.strip (sfilter f (Str.strip s)) = Str.strip (sfilter f s).
Proof.
  intros Hsp. unfold Str.strip.
  rewrite <- (ltrim_rtrim _ (sfilter f (rtrim _ _))), rtrim_sfilter by done.
  by rewrite ltrim_rtrim, ltrim_sfilter.
Qed.

Lemma clean_strip s : clean (Str.strip s) = clean s.
Proof. rewrite !clean_kept. apply strip_sfilter, space_kept. Qed.

Lemma clean_idem s : clean (clean s) = clean s.
Proof.
  rewrite !clean_kept, strip_sfilter by apply space_kept.
  by rewrite (sfilter_id kept (sfilter kept s)) by apply sall_sfilter.
Qed.

Lemma convert_clean a b :
  clean a = clean b -> _convert_to_number (VStr a) = _convert_to_number (VStr b).
Proof. intros H. by rewrite !convert_str, H. Qed.

Lemma convert_strip s :
  _convert_to_number (VStr (Str.strip s)) = _convert_to_number (VStr s).
Proof. apply convert_clean, clean_strip. Qed.

Lemma convert_cleaned v : _convert_to_number (cleaned v) = _convert_to_number v.
Proof.
  destruct v as [|s|n|x]; try done. unfold cleaned.
  destruct (truthy _); [|done]. apply convert_clean, clean_idem.
Qed.

Lemma number_of_cleaned v : number_of (cleaned v) = number_of v.
Proof. unfold number_of. by rewrite convert_cleaned. Qed.

End cleaning.

(** ** RatioCalculator: the ratio text of [process_item] *)

Section ratio.

Import DefillamaPipeline.

Lemma positive_nonzero r : Float.ltb Float.zero r = true -> Float.eqb r Float.zero = false.
Proof. destruct r as [s|s| |s m e]; try done; by destruct s. Qed.

Lemma positive_truthy r : Float.ltb Float.zero r = true -> Float.truthy r = true.
Proof. intros H. unfold Float.truthy. by rewrite positive_nonzero. Qed.

Lemma number_of_returns v : _convert_to_number v = Returns (number_of v).
Proof. unfold number_of. by destruct (convert_total v) as [r ->]. Qed.

Lemma number_of_not_str v : (forall s, v <> VStr s) -> number_of v = None.
Proof. intros H. unfold number_of. by rewrite convert_not_str. Qed.

Lemma quotient_none_l a b : number_of a = None -> quotient a b = None.
Proof. unfold quotient. by intros ->. Qed.

Lemma quotient_none_r a b : number_of b = None -> quotient a b = None.
Proof. unfold quotient. intros ->. by destruct (number_of a). Qed.

(** With the guard of [process_item] passed, on two strings. *)
Lemma pe_ratio_text_guarded a b :
  (a ← _convert_to_number (VStr (Str.strip a));
   b0 ← str_method (VStr b);
   r ← _convert_to_number (VStr (Str.strip b0));
   match a, r with
   | Some m, Some r =>
       if Float.truthy m && Float.truthy r && Float.ltb Float.zero r
       then pe_ratio ← truediv m r; mret (FloatFormat.format_2f pe_ratio)
       else mret "Not calculable"
   | _, _ => mret "Not calculable"
   end) = Returns (ratio_text (quotient (VStr a) (VStr b))).
Proof.
  rewrite !convert_strip. cbn [str_method mbind outcome_bind obind].
  rewrite convert_strip, !number_of_returns. unfold quotient.
  destruct (number_of (VStr a)) as [m|]; [|by destruct (number_of (VStr b))].
  destruct (number_of (VStr b)) as [r|]; [|done].
  cbn [mbind outcome_bind obind].
  destruct (Float.ltb Float.zero r) eqn:Hr.
  - rewrite (positive_truthy r Hr), !andb_true_r.
    destruct (Float.truthy m); [|done].
    unfold truediv. by rewrite (positive_nonzero r Hr).
  - by rewrite !andb_false_r.
Qed.

Lemma pe_ratio_text_raw a b :
  raw_field a = true -> raw_field b = true ->
  pe_ratio_text a b = Returns (ratio_text (quotient a b)).
Proof.
  intros Ha Hb. unfold pe_ratio_text.
  destruct a as [|a|?|?]; try done.
  destruct b as [|b|?|?]; try done.
  { rewrite quotient_none_r by done. cbn [truthy]. by rewrite andb_false_r. }
  cbn [truthy ne_str].
  destruct (String.eqb_spec a "") as [->|_]; [by rewrite quotient_none_l|].
  destruct (String.eqb_spec b "") as [->|_]; [by rewrite quotient_none_r|].
  destruct (String.eqb_spec a "Not found") as [->|_]; [by rewrite quotient_none_l|].
  destruct (String.eqb_spec b "Not found") as [->|_]; [by rewrite quotient_none_r|].
  cbn [negb andb]. cbn [str_method mbind outcome_bind obind].
  apply pe_ratio_text_guarded.
Qed.

Lemma pe_ratio_text_returns a b t :
  pe_ratio_text a b = Returns t -> t = ratio_text (quotient a b).
Proof.
  destruct (raw_field a) eqn:Ha, (raw_field b) eqn:Hb.
  - rewrite pe_ratio_text_raw by done. congruence.
  - rewrite (quotient_none_r a b) by (by destruct b).
    unfold pe_ratio_text. destruct (_ && _ && _ && _) eqn:Hg; [|by intros [= <-]].
    destruct a as [|a|?|?]; try done.
    cbn [str_method mbind outcome_bind obind]. rewrite number_of_returns. cbn [obind].
    by destruct b.
  - rewrite (quotient_none_l a b) by (by destruct a).
    unfold pe_ratio_text. destruct (_ && _ && _ && _) eqn:Hg; [|by intros [= <-]].
    by destruct a.
  - rewrite (quotient_none_l a b) by (by destruct a).
    unfold pe_ratio_text. destruct (_ && _ && _ && _) eqn:Hg; [|by intros [= <-]].
    by destruct a.
Qed.

(** C3, as the code has it: the quotient, formatted to two decimals, when
    both raw strings parse, the market cap parsed is not zero and the
    revenue parsed is greater than zero; "Not calculable" when a raw field
    does not parse, the market cap parses to zero or the revenue is not
    greater than zero. ("$10B", "$2B") gives "5.00", ("$10B", "0") and an
    absent market cap give "Not calculable". *)
Theorem ratio_calculator :
  (forall a b m r,
     _convert_to_number (VStr a) = Returns (Some m) ->
     _convert_to_number (VStr b) = Returns (Some r) ->
     Float.truthy m = true -> Float.ltb Float.zero r = true ->
     pe_ratio_text (VStr a) (VStr b) = Returns (FloatFormat.format_2f (Float.div m r)))
  /\ (forall a b,
        raw_field a = true -> raw_field b = true ->
        _convert_to_number a = Returns None \/ _convert_to_number b = Returns None
        \/ (exists m, _convert_to_number a = Returns (Some m) /\ Float.truthy m = false)
        \/ (exists r, _convert_to_number b = Returns (Some r)
                      /\ Float.ltb Float.zero r = false) ->
        pe_ratio_text a b = Returns "Not calculable")
  /\ pe_ratio_text (VStr "$10B") (VStr "$2B") = Returns "5.00"
  /\ pe_ratio_text (VStr "$10B") (VStr "0") = Returns "Not calculable"
  /\ pe_ratio_text VNone (VStr "$2B") = Returns "Not calculable".
Proof.
  split_and!.
  - intros a b m r Ha Hb Hm Hr.
    rewrite pe_ratio_text_raw by done. unfold quotient, number_of.
    by rewrite Ha, Hb, Hm, Hr.
  - intros a b Ha Hb H. rewrite pe_ratio_text_raw by done.
    unfold quotient, number_of.
    destruct H as [->|[->|[(m & -> & Hm)|(r & -> & Hr)]]]; try done.
    + by destruct (_convert_to_number a) as [[]|].
    + destruct (_convert_to_number b) as [[]|]; try done. by rewrite Hm.
    + destruct (_convert_to_number a) as [[]|]; try done. by rewrite Hr, andb_false_r.
  - vm_compute. reflexivity.
  - vm_compute. reflexivity.
  - vm_compute. reflexivity.
Qed.

Lemma ratio_calculator_witness :
  pe_ratio_text (VStr "$4B") (VStr "$1B")
  = Returns (FloatFormat.format_2f (Float.div (Float.of_Z 4000000000) (Float.of_Z 1000000000))).
Proof.
  apply (proj1 ratio_calculator); vm_compute; reflexivity.
Defined.

(** C3 as stated fails: a market cap of "0" and a revenue of "$2B" are
    present, are not the sentinel, parse, and the revenue is greater than
    zero; the quotient would print as "0.00", the code answers "Not
    calculable". *)
Lemma ratio_calculator_counterexample :
  _convert_to_number (VStr "0") = Returns (Some Float.zero)
  /\ _convert_to_number (VStr "$2B") = Returns (Some (Float.of_Z 2000000000))
  /\ Float.ltb Float.zero (Float.of_Z 2000000000) = true
  /\ FloatFormat.format_2f (Float.div Float.zero (Float.of_Z 2000000000)) = "0.00"
  /\ pe_ratio_text (VStr "0") (VStr "$2B") = Returns "Not calculable".
Proof. split_and!; vm_compute; reflexivity. Qed.

End ratio.

(** ** Normalizer: [process_item] and [store_in_database] *)

Section normalizer.

Import DefillamaPipeline.

Context {rt : RealText}.

Lemma clean_field_lookup (item : Item) f k :
  clean_field item f !! k = if decide (k = f) then cleaned <$> item !! k else item !! k.
Proof.
  unfold clean_field, item_get.
  destruct (decide (k = f)) as [->|Hne].
  - destruct (item !! f) as [[|s|n|x]|] eqn:E;
      cbv [default cleaned fmap option_fmap option_map id];
      destruct (truthy _); rewrite ?lookup_insert_eq, ?E; done.
  - destruct (truthy _); [|done].
    destruct (default VNone (item !! f)); try done. by rewrite lookup_insert_ne.
Qed.

Lemma processed_lookup (item : Item) k :
  processed item !! k =
  if decide (k = "pe_ratio")
  then Some (VStr (ratio_text (quotient (item_get item "market_cap")
                                 (item_get item "annual_revenue"))))
  else if decide (k = "market_cap" \/ k = "annual_revenue")
       then cleaned <$> item !! k else item !! k.
Proof.
  unfold processed. cbn [foldl].
  destruct (decide (k = "pe_ratio")) as [->|Hpe]; [by rewrite lookup_insert_eq|].
  rewrite lookup_insert_ne by done. rewrite !clean_field_lookup.
  destruct (decide (k = "annual_revenue")) as [->|?].
  - rewrite decide_False by done. by rewrite decide_True by auto.
  - destruct (decide (k = "market_cap")) as [->|?].
    + by rewrite decide_True by auto.
    + by rewrite decide_False by (intros [?|?]; done).
Qed.

Lemma number_of_default_cleaned (o : option pyval) d :
  number_of (default d (cleaned <$> o)) = number_of (default d o).
Proof. destruct o as [v|]; [apply number_of_cleaned|done]. Qed.

Lemma processed_protocol item : processed item !! "protocol" = item !! "protocol".
Proof.
  rewrite processed_lookup, decide_False by done.
  by rewrite decide_False by (intros [?|?]; done).
Qed.

Lemma processed_market_cap item :
  processed item !! "market_cap" = cleaned <$> item !! "market_cap".
Proof. rewrite processed_lookup, decide_False by done. by rewrite decide_True by (by left). Qed.

Lemma processed_annual_revenue item :
  processed item !! "annual_revenue" = cleaned <$> item !! "annual_revenue".
Proof. rewrite processed_lookup, decide_False by done. by rewrite decide_True by (by right). Qed.

Lemma processed_pe_ratio item :
  processed item !! "pe_ratio" =
  Some (VStr (ratio_text (quotient (item_get item "market_cap")
                            (item_get item "annual_revenue")))).
Proof. by rewrite processed_lookup, decide_True. Qed.

Lemma metric_row_processed item now db t pe :
  metric_row (processed item) now db t pe = metric_row item now db t pe.
Proof.
  unfold metric_row, item_get_default.
  rewrite processed_market_cap, processed_annual_revenue.
  by rewrite !number_of_default_cleaned.
Qed.

Lemma ticker_bound_processed item : ticker_bound (processed item) = ticker_bound item.
Proof. unfold ticker_bound, item_get_default. by rewrite processed_protocol. Qed.

Lemma eqb_cons a s b t : String.eqb (String a s) (String b t) = Ascii.eqb a b && String.eqb s t.
Proof.
  cbn [String.eqb]. by destruct (Ascii.eqb a b).
Qed.

Lemma digit_not_N c : FloatParse.is_digit c = true -> Ascii.eqb c "N" = false.
Proof. by_chars c. Qed.

Lemma format_not_sentinel x :
  String.eqb (FloatFormat.format_2f x) "Not calculable" = false.
Proof.
  destruct x as [[]|[]| |s m e]; try done.
  unfold FloatFormat.format_2f. destruct s; [done|].
  rewrite append_empty_l.
  pose proof (decimal_of_N_digits (FloatFormat.hundredths m e / 100)) as Hd.
  pose proof (decimal_of_N_nonempty (FloatFormat.hundredths m e / 100)) as Hne.
  destruct (FloatFormat.decimal_of_N _) as [|c D]; [done|].
  cbn [sall] in Hd. apply andb_true_iff in Hd as [Hc _].
  rewrite append_cons.
  change "Not calculable" with (String "N"%char "ot calculable").
  by rewrite eqb_cons, (digit_not_N c Hc).
Qed.

Lemma stored_ratio_some x :
  exists y, FloatParse.float_of_str (FloatFormat.format_2f x) = Returns y
            /\ stored_ratio (Some x) = Some y /\ Float.is_nan y = Float.is_nan x.
Proof.
  destruct (float_of_format x) as (y & Hy & Hnan). exists y.
  unfold stored_ratio. by rewrite Hy.
Qed.

Lemma insert_metrics_bound item now db m r pe :
  insert_metrics now (item_get_default item "protocol" (VStr "")) None m r pe db
  = (t ← ticker_bound item;
     mret {| rows := rows db ++
               [ {| row_id := next_rowid db; row_timestamp := now; row_ticker := t;
                    row_price := None; row_market_cap := bind_real m;
                    row_annualized_revenue := bind_real r;
                    row_pe_ratio := bind_real pe |} ];
             seq := next_rowid db |}).
Proof.
  unfold insert_metrics, ticker_bound.
  destruct (bind_text _) as [[t|]|e]; reflexivity.
Qed.

(** [store_in_database] on an item that carries the ratio text of
    [process_item]. *)
Lemma store_processed (item : Item) now db q :
  item !! "pe_ratio" = Some (VStr (ratio_text q)) ->
  store_in_database item now db =
  (VNone,
   match ticker_bound item with
   | Returns t => append_row db (metric_row item now db t (stored_ratio q))
   | Raises _ => db
   end).
Proof.
  intros Hpe. unfold store_in_database. f_equal.
  rewrite !number_of_returns. cbn [mbind outcome_bind obind].
  assert (item_get item "pe_ratio" = VStr (ratio_text q)) as ->
    by (unfold item_get; by rewrite Hpe).
  assert (item_get_default item "pe_ratio" (VStr "0") = VStr (ratio_text q)) as ->
    by (unfold item_get_default; by rewrite Hpe).
  cbn [ne_str py_float].
  assert ((if negb (String.eqb (ratio_text q) "Not calculable")
           then x ← FloatParse.float_of_str (ratio_text q); mret (Some x)
           else mret None) = Returns (stored_ratio q)) as ->.
  { destruct q as [x|]; [|done]. cbn [ratio_text].
    rewrite format_not_sentinel. cbn [negb].
    destruct (stored_ratio_some x) as (y & -> & -> & _). done. }
  cbn [mbind outcome_bind obind]. rewrite insert_metrics_bound.
  by destruct (ticker_bound item).
Qed.

Lemma stored_processed item now db :
  (store_in_database (processed item) now db).2 = stored item now db.
Proof.
  rewrite (store_processed _ _ _ (quotient (item_get item "market_cap")
                                    (item_get item "annual_revenue")))
    by apply processed_pe_ratio.
  cbn [snd]. unfold stored. rewrite ticker_bound_processed.
  destruct (ticker_bound item); [|done]. by rewrite metric_row_processed.
Qed.

Lemma process_item_text item now db :
  pe_ratio_text (item_get item "market_cap") (item_get item "annual_revenue")
  = Returns (ratio_text (quotient (item_get item "market_cap")
                           (item_get item "annual_revenue"))) ->
  process_item item now db = Returned (processed item) (stored item now db).
Proof.
  intros Ht. unfold process_item. rewrite Ht.
  fold (processed item). rewrite <- stored_processed.
  by destruct (store_in_database (processed item) now db).
Qed.

(** A call that returns has left [processed item] and [stored item now db]. *)
Lemma process_item_returns item now db item' db' :
  process_item item now db = Returned item' db' ->
  item' = processed item /\ db' = stored item now db.
Proof.
  intros H0.
  destruct (pe_ratio_text (item_get item "market_cap") (item_get item "annual_revenue"))
    as [t|e] eqn:Ht.
  - pose proof (pe_ratio_text_returns _ _ _ Ht) as ->.
    rewrite (process_item_text item now db Ht) in H0. by inversion H0.
  - unfold process_item in H0. by rewrite Ht in H0.
Qed.

(** A call that raises has run the cleaning loop and nothing else. *)
Lemma process_item_raised item now db e item' db' :
  process_item item now db = Raised e item' db' <->
  pe_ratio_text (item_get item "market_cap") (item_get item "annual_revenue") = Raises e
  /\ item' = foldl clean_field item ["market_cap"; "annual_revenue"] /\ db' = db.
Proof.
  unfold process_item.
  destruct (pe_ratio_text (item_get item "market_cap") (item_get item "annual_revenue"))
    as [t|e0].
  - destruct (store_in_database _ _ _). split; [done|by intros (? & _)].
  - split; [by intros [= -> <- <-]|by intros ([= ->] & -> & ->)].
Qed.

(** On the fields the spider produces the call always returns. *)
Lemma process_item_raw item now db :
  raw_field (item_get item "market_cap") = true ->
  raw_field (item_get item "annual_revenue") = true ->
  process_item item now db = Returned (processed item) (stored item now db).
Proof.
  intros Hm Hr. apply (process_item_text item now db). by apply pe_ratio_text_raw.
Qed.

End normalizer.

(** ** The stored ratio, the effects of the Normalizer, idempotence *)

Section pipeline.

Import DefillamaPipeline.

Context {rt : RealText}.

Lemma quotient_some a b q : quotient a b = Some q <-> calculable a b q.
Proof.
  unfold quotient, calculable. rewrite (number_of_returns a), (number_of_returns b).
  destruct (number_of a) as [m|]; [|split; [done|by intros (?&?&?&?)]].
  destruct (number_of b) as [v|]; [|split; [done|by intros (?&?&?&?&?)]].
  destruct (Float.truthy m) eqn:Hm, (Float.ltb Float.zero v) eqn:Hv; cbn [andb].
  - split; [intros [= <-]; by exists m, v|]. by intros (?&?&[= <-]&[= <-]&_&_&->).
  - split; [done|]. intros (?&?&[= <-]&[= <-]&?&?&_); congruence.
  - split; [done|]. intros (?&?&[= <-]&[= <-]&?&?&_); congruence.
  - split; [done|]. intros (?&?&[= <-]&[= <-]&?&?&_); congruence.
Qed.

Lemma bind_real_none v : bind_real v = None <-> v = None \/ exists x, v = Some x /\ Float.is_nan x = true.
Proof.
  destruct v as [x|]; cbn [bind_real]; [|split; [by left|done]].
  destruct (Float.is_nan x) eqn:Hx.
  - split; [intros _; right; by exists x|done].
  - split; [by destruct x|]. intros [?|(? & [= <-] & ?)]; congruence.
Qed.

Lemma bind_real_stored q :
  bind_real (stored_ratio q) <> None <-> exists x, q = Some x /\ Float.is_nan x = false.
Proof.
  rewrite bind_real_none.
  destruct q as [x|]; [|split; [intros H0; destruct H0; by left|by intros (?&?&?)]].
  destruct (stored_ratio_some x) as (y & _ & -> & Hnan).
  destruct (Float.is_nan x) eqn:Hx.
  - split; [intros H0; destruct H0; right; by exists y|]. intros (? & [= <-] & ?). congruence.
  - split; [by exists x|]. intros _ [?|(? & [= <-] & ?)]; congruence.
Qed.

Lemma ticker_bound_returns item t :
  ticker_bound item = Returns t
  <-> bind_text (item_get_default item "protocol" (VStr "")) = Returns (Some t).
Proof.
  unfold ticker_bound. destruct (bind_text _) as [[t'|]|e]; cbn; split; congruence.
Qed.

Lemma stored_with_ticker item now db t :
  bind_text (item_get_default item "protocol" (VStr "")) = Returns (Some t) ->
  stored item now db =
  append_row db (metric_row item now db t
                   (stored_ratio (quotient (item_get item "market_cap")
                                    (item_get item "annual_revenue")))).
Proof. intros H0%ticker_bound_returns. unfold stored. by rewrite H0. Qed.

Lemma ticker_refused v :
  (forall t, bind_text v <> Returns (Some t)) <-> refused v.
Proof.
  unfold refused. destruct v as [|s|n|x]; cbn [bind_text].
  - split; [by left|done].
  - split.
    + intros H0. by destruct (H0 s).
    + intros [?|[(? & ? & _)|(? & ? & _)]]; done.
  - destruct ((- 2 ^ 63 <=? n) && (n <? 2 ^ 63)) eqn:Hn.
    + split.
      * intros H0. by destruct (H0 (integer_text n)).
      * intros [?|[(? & ? & _)|(n' & [= <-] & Hn')]]; try done. destruct Hn'. lia.
    + split; [|done]. intros _. right. right. exists n. split; [done|]. lia.
  - destruct (Float.is_nan x) eqn:Hx.
    + split; [|done]. intros _. right. left. by exists x.
    + split.
      * intros H0. by destruct (H0 (real_text x)).
      * intros [?|[(x' & [= <-] & ?)|(? & ? & _)]]; congruence.
Qed.

Lemma stored_refused item now db :
  refused (item_get_default item "protocol" (VStr "")) -> stored item now db = db.
Proof.
  intros Hr0. pose proof (proj2 (ticker_refused _) Hr0) as Hr. unfold stored.
  destruct (ticker_bound item) as [t|] eqn:Ht; [|done].
  apply ticker_bound_returns in Ht. by destruct (Hr t).
Qed.

(** C2, as the code has it: the ratio stored for an item is not null
    exactly when both raw fields parse, the market cap parsed is not zero,
    the revenue parsed is greater than zero and their quotient is a number;
    when the first three fail the item carries "Not calculable" and the
    stored ratio is null. The record is stored when SQLite takes the
    ticker; for a ticker it refuses the call returns the same item and
    stores nothing. *)
Theorem pe_ratio_stored item now db :
  raw_field (item_get item "market_cap") = true ->
  raw_field (item_get item "annual_revenue") = true ->
  exists item' db',
    process_item item now db = Returned item' db'
    /\ ((forall q, ~ calculable (item_get item "market_cap")
                     (item_get item "annual_revenue") q) ->
        item' !! "pe_ratio" = Some (VStr "Not calculable"))
    /\ (refused (item_get_default item "protocol" (VStr "")) -> db' = db)
    /\ forall t,
         bind_text (item_get_default item "protocol" (VStr "")) = Returns (Some t) ->
         exists r,
           db' = append_row db r
           /\ row_ticker r = t
           /\ (row_pe_ratio r <> None <->
               exists q, calculable (item_get item "market_cap")
                           (item_get item "annual_revenue") q
                         /\ Float.is_nan q = false)
           /\ ((forall q, ~ calculable (item_get item "market_cap")
                            (item_get item "annual_revenue") q) ->
               row_pe_ratio r = None).
Proof.
  intros Hm Hr. eexists _, _. split; [by apply process_item_raw|]. split_and!.
  - intros Hno. rewrite processed_pe_ratio.
    destruct (quotient _ _) as [q|] eqn:Hq; [|done].
    by destruct (Hno q); apply quotient_some.
  - apply stored_refused.
  - intros t Ht. rewrite (stored_with_ticker _ _ _ t) by done.
    eexists. split; [reflexivity|]. cbn [metric_row row_ticker row_pe_ratio].
    split_and!; [done|..].
    + rewrite bind_real_stored.
      split; intros (q & Hq & Hnan); exists q; split; try done; by apply quotient_some.
    + intros Hno. destruct (quotient _ _) as [q|] eqn:Hq; [|done].
      by destruct (Hno q); apply quotient_some.
Qed.

Lemma cleaned_raw v : raw_field (cleaned v) = raw_field v.
Proof. destruct v as [|s|n|x]; try done. unfold cleaned. by destruct (truthy _). Qed.

Lemma cleaned_idem v : cleaned (cleaned v) = cleaned v.
Proof.
  destruct v as [|s|n|x]; try done.
  assert (cleaned (VStr s) = if truthy (VStr s) then VStr (clean s) else VStr s) as Hc by done.
  destruct (truthy (VStr s)) eqn:Hs; rewrite Hc.
  - change (cleaned (VStr (clean s)))
      with (if truthy (VStr (clean s)) then VStr (clean (clean s)) else VStr (clean s)).
    destruct (truthy (VStr (clean s))); by rewrite ?clean_idem.
  - by rewrite Hc.
Qed.

Lemma quotient_cleaned a b : quotient (cleaned a) (cleaned b) = quotient a b.
Proof. unfold quotient. by rewrite !number_of_cleaned. Qed.

Lemma truthy_cleaned_false v : truthy v = false -> cleaned v = v.
Proof. destruct v as [|s|n|x]; try done. unfold cleaned. by intros ->. Qed.

Lemma sentinel_cleaned v :
  ne_str v "Not found" = false -> ne_str (cleaned v) "Not found" = false.
Proof.
  destruct v as [|s|n|x]; try done. cbn [ne_str].
  intros Hs%negb_false_iff%String.eqb_eq. by subst.
Qed.

Lemma guard_cleaned_false a b : guard a b = false -> guard (cleaned a) (cleaned b) = false.
Proof.
  unfold guard. intros H.
  apply andb_false_iff in H as [H|H]; [|by rewrite (sentinel_cleaned b H), andb_false_r].
  apply andb_false_iff in H as [H|H];
    [|by rewrite (sentinel_cleaned a H), andb_false_r].
  apply andb_false_iff in H as [H|H];
    rewrite (truthy_cleaned_false _ H), H; by rewrite ?andb_false_r.
Qed.

Lemma pe_ratio_text_guard a b :
  pe_ratio_text a b =
  if guard a b then
    a0 ← str_method a;
    market_cap_num ← _convert_to_number (VStr (Str.strip a0));
    b0 ← str_method b;
    annual_revenue_num ← _convert_to_number (VStr (Str.strip b0));
    match market_cap_num, annual_revenue_num with
    | Some m, Some r =>
        if Float.truthy m && Float.truthy r && Float.ltb Float.zero r then
          pe_ratio ← truediv m r;
          mret (FloatFormat.format_2f pe_ratio)
        else mret "Not calculable"
    | _, _ => mret "Not calculable"
    end
  else mret "Not calculable".
Proof. reflexivity. Qed.

(** A call that returns although a field is no raw field did not pass the
    guard. *)
Lemma not_raw_returns a b t :
  pe_ratio_text a b = Returns t -> raw_field a && raw_field b = false ->
  guard a b = false /\ quotient a b = None.
Proof.
  rewrite pe_ratio_text_guard. intros H Hraw.
  assert (quotient a b = None) as Hq.
  { apply andb_false_iff in Hraw as [Hraw|Hraw].
    - apply quotient_none_l. by destruct a.
    - apply quotient_none_r. by destruct b. }
  split; [|done]. destruct (guard a b); [|done]. exfalso.
  destruct a as [|a|?|?]; try done.
  cbn [str_method mbind outcome_bind obind] in H.
  rewrite number_of_returns in H. cbn [obind] in H. by destruct b.
Qed.

Lemma pe_ratio_text_cleaned a b t :
  pe_ratio_text a b = Returns t -> pe_ratio_text (cleaned a) (cleaned b) = Returns t.
Proof.
  intros H. pose proof (pe_ratio_text_returns _ _ _ H) as ->.
  destruct (raw_field a && raw_field b) eqn:Hraw.
  - apply andb_true_iff in Hraw as [Ha Hb].
    rewrite pe_ratio_text_raw by (by rewrite cleaned_raw). by rewrite quotient_cleaned.
  - destruct (not_raw_returns _ _ _ H Hraw) as [Hg ->].
    by rewrite pe_ratio_text_guard, guard_cleaned_false.
Qed.

Lemma item_get_processed_market_cap item :
  item_get (processed item) "market_cap" = cleaned (item_get item "market_cap").
Proof. unfold item_get. rewrite processed_market_cap. by destruct (item !! _). Qed.

Lemma item_get_processed_annual_revenue item :
  item_get (processed item) "annual_revenue" = cleaned (item_get item "annual_revenue").
Proof. unfold item_get. rewrite processed_annual_revenue. by destruct (item !! _). Qed.

Lemma processed_idem item : processed (processed item) = processed item.
Proof.
  apply map_eq. intros k. rewrite (processed_lookup (processed item)).
  rewrite item_get_processed_market_cap, item_get_processed_annual_revenue,
    quotient_cleaned.
  rewrite !(processed_lookup item).
  destruct (decide (k = "pe_ratio")); [done|].
  destruct (decide (k = "market_cap" \/ k = "annual_revenue")); [|done].
  destruct (item !! k) as [v|]; [|done]. cbn. by rewrite cleaned_idem.
Qed.

Lemma appended_append_row db r : appended db (append_row db r) = [r].
Proof. unfold appended, append_row. cbn [rows]. by rewrite drop_app_length. Qed.

Lemma appended_same db : appended db db = [].
Proof. unfold appended. by rewrite drop_all. Qed.

(** The records a call stores do not depend on the clock or on the table. *)
Lemma appended_stored item now db :
  record_fields <$> appended db (stored item now db) = normalized item.
Proof.
  unfold stored, normalized.
  destruct (ticker_bound item) as [t|e]; by rewrite ?appended_same, ?appended_append_row.
Qed.

Lemma normalized_processed item : normalized (processed item) = normalized item.
Proof.
  unfold normalized, item_get_default.
  rewrite item_get_processed_market_cap, item_get_processed_annual_revenue,
    quotient_cleaned, ticker_bound_processed.
  rewrite processed_market_cap, processed_annual_revenue.
  by rewrite !number_of_default_cleaned.
Qed.

(** C9: the Normalizer is idempotent. When a call on [item] returns,
    a call on the item it left behind (at any time, on any table) returns
    that same item and stores the same record fields, and so does another
    call on an item equal to the original. *)
Theorem normalizer_idempotent item now db item1 db1 :
  process_item item now db = Returned item1 db1 ->
  forall now' db',
    (exists db2, process_item item1 now' db' = Returned item1 db2
                 /\ record_fields <$> appended db' db2
                    = record_fields <$> appended db db1)
    /\ (exists db2, process_item item now' db' = Returned item1 db2
                    /\ record_fields <$> appended db' db2
                       = record_fields <$> appended db db1).
Proof.
  intros H0 now' db'.
  destruct (process_item_returns _ _ _ _ _ H0) as [-> ->].
  assert (pe_ratio_text (item_get item "market_cap") (item_get item "annual_revenue")
          = Returns (ratio_text (quotient (item_get item "market_cap")
                                   (item_get item "annual_revenue")))) as Ht.
  { unfold process_item in H0.
    destruct (pe_ratio_text _ _) as [t|e] eqn:Ht; [|done].
    by rewrite (pe_ratio_text_returns _ _ _ Ht). }
  split.
  - exists (stored (processed item) now' db'). split.
    + rewrite <- (processed_idem item) at 2. apply process_item_text.
      rewrite item_get_processed_market_cap, item_get_processed_annual_revenue,
        quotient_cleaned.
      by apply pe_ratio_text_cleaned.
    + by rewrite !appended_stored, normalized_processed.
  - exists (stored item now' db'). split.
    + by apply process_item_text.
    + by rewrite !appended_stored.
Qed.

Lemma cleaning_lookup (item : Item) k :
  foldl clean_field item ["market_cap"; "annual_revenue"] !! k
  = if decide (k = "market_cap" \/ k = "annual_revenue")
    then cleaned <$> item !! k else item !! k.
Proof.
  cbn [foldl]. rewrite !clean_field_lookup.
  destruct (decide (k = "annual_revenue")) as [->|?].
  - rewrite decide_False by done. by rewrite decide_True by auto.
  - destruct (decide (k = "market_cap")) as [->|?].
    + by rewrite decide_True by auto.
    + by rewrite decide_False by (intros [?|?]; done).
Qed.

(** C10, as the code has it: [process_item] rewrites the item it is given.
    After a call that returns, [market_cap] and [annual_revenue] hold
    their cleaned text, [pe_ratio] holds the ratio text, every other key
    is as it was, and the table is what [store_in_database] makes of that
    item; after a call that raises the two fields are cleaned all the same
    and the table is as it was. On the fields the spider produces the call
    always returns. When it returns and SQLite takes the ticker, it has
    stored one record whose market cap and revenue are what the parser
    made of each field on its own and whose ratio is the number read back
    from the ratio text: a field that does not parse is null, the other
    columns are stored all the same. *)
Theorem normalizer_effects item now db :
  (forall item' db',
     process_item item now db = Returned item' db' ->
     (forall k, k <> "market_cap" -> k <> "annual_revenue" -> k <> "pe_ratio" ->
                item' !! k = item !! k)
     /\ item' !! "market_cap" = cleaned <$> item !! "market_cap"
     /\ item' !! "annual_revenue" = cleaned <$> item !! "annual_revenue"
     /\ pe_ratio_text (item_get item "market_cap") (item_get item "annual_revenue")
        = Returns (ratio_text (quotient (item_get item "market_cap")
                                 (item_get item "annual_revenue")))
     /\ item' !! "pe_ratio"
        = Some (VStr (ratio_text (quotient (item_get item "market_cap")
                                    (item_get item "annual_revenue"))))
     /\ db' = (store_in_database item' now db).2)
  /\ (forall e item' db',
        process_item item now db = Raised e item' db' ->
        (forall k, k <> "market_cap" -> k <> "annual_revenue" -> item' !! k = item !! k)
        /\ item' !! "market_cap" = cleaned <$> item !! "market_cap"
        /\ item' !! "annual_revenue" = cleaned <$> item !! "annual_revenue"
        /\ db' = db)
  /\ (raw_field (item_get item "market_cap") = true ->
      raw_field (item_get item "annual_revenue") = true ->
      exists item' db', process_item item now db = Returned item' db')
  /\ (forall item' db' t m v,
        process_item item now db = Returned item' db' ->
        bind_text (item_get_default item "protocol" (VStr "")) = Returns (Some t) ->
        _convert_to_number (item_get_default item "market_cap" (VStr "0")) = Returns m ->
        _convert_to_number (item_get_default item "annual_revenue" (VStr "0")) = Returns v ->
        exists r,
          db' = append_row db r
          /\ r = {| row_id := next_rowid db; row_timestamp := now; row_ticker := t;
                    row_price := None;
                    row_market_cap := bind_real m;
                    row_annualized_revenue := bind_real v;
                    row_pe_ratio :=
                      bind_real (stored_ratio (quotient (item_get item "market_cap")
                                                 (item_get item "annual_revenue"))) |}
          /\ (m = None -> row_market_cap r = None)
          /\ (v = None -> row_annualized_revenue r = None)).
Proof.
  split_and!.
  - intros item' db' H0. destruct (process_item_returns _ _ _ _ _ H0) as [-> ->].
    split_and!.
    + intros k ? ? ?. rewrite processed_lookup, decide_False by done.
      by rewrite decide_False by (intros [?|?]; done).
    + apply processed_market_cap.
    + apply processed_annual_revenue.
    + unfold process_item in H0.
      destruct (pe_ratio_text _ _) as [t|e] eqn:Ht; [|done].
      by rewrite (pe_ratio_text_returns _ _ _ Ht).
    + apply processed_pe_ratio.
    + by rewrite stored_processed.
  - intros e item' db' (_ & -> & ->)%process_item_raised. split_and!; [| | |done].
    + intros k ? ?. rewrite cleaning_lookup. by rewrite decide_False by (intros [?|?]; done).
    + rewrite cleaning_lookup. by rewrite decide_True by (by left).
    + rewrite cleaning_lookup. by rewrite decide_True by (by right).
  - intros Hm Hr. eexists _, _. by apply process_item_raw.
  - intros item' db' t m v H0 Ht Hmc Hrev.
    destruct (process_item_returns _ _ _ _ _ H0) as [_ ->].
    rewrite (stored_with_ticker _ _ _ t) by done. eexists. split; [reflexivity|].
    unfold metric_row, number_of. rewrite Hmc, Hrev. split; [done|].
    split; by intros ->.
Qed.

(** ** TimeSeriesStore: [store_in_database] *)

Lemma store_in_database_unfold item now db :
  store_in_database item now db =
  (VNone,
   match ratio_bound item with
   | Returns pe =>
       match ticker_bound item with
       | Returns t => append_row db (metric_row item now db t pe)
       | Raises _ => db
       end
   | Raises _ => db
   end).
Proof.
  unfold store_in_database. f_equal. rewrite !number_of_returns.
  cbn [mbind outcome_bind obind]. fold (ratio_bound item).
  destruct (ratio_bound item) as [pe|e]; [|done]. cbn [mbind outcome_bind obind].
  rewrite insert_metrics_bound. by destruct (ticker_bound item).
Qed.

Lemma max_rowid_bound (rs : list row) r : r ∈ rs -> row_id r <= max_rowid rs.
Proof.
  induction rs as [|r0 rs IH]; [by intros ?%elem_of_nil|].
  cbn [max_rowid foldr]. fold (max_rowid rs).
  intros [->|Hin]%elem_of_cons; [lia|]. specialize (IH Hin). lia.
Qed.

Lemma next_rowid_fresh db r : r ∈ rows db -> row_id r < next_rowid db.
Proof. intros H0%max_rowid_bound. unfold next_rowid. lia. Qed.

Lemma append_row_changes db r : append_row db r <> db.
Proof.
  intros H0. apply (f_equal (fun d => length (rows d))) in H0.
  cbn [append_row rows] in H0. rewrite length_app in H0. cbn in H0. lia.
Qed.

Lemma append_row_inj db r r' : append_row db r = append_row db r' -> r = r'.
Proof.
  unfold append_row. intros [= H0 _]. apply app_inv_head in H0. by injection H0.
Qed.

(** C6, as the code has it: [store_in_database] returns [None], never the
    id. When [float] accepts the item's ratio text and SQLite takes the
    ticker, it appends one record: a fresh id (larger than every id in
    the table), the clock reading as timestamp, the ticker as text, no
    price, the market cap and the revenue the parser gives and the ratio
    [float] gave, each as SQLite keeps it. In every other case the table
    is left as it was. What [process_item] hands back is the item, and
    the table it leaves is the one [store_in_database] makes of it. *)
Theorem store_in_database_append item now db :
  (store_in_database item now db).1 = VNone
  /\ (forall pe t m v,
        ratio_bound item = Returns pe ->
        bind_text (item_get_default item "protocol" (VStr "")) = Returns (Some t) ->
        _convert_to_number (item_get_default item "market_cap" (VStr "0")) = Returns m ->
        _convert_to_number (item_get_default item "annual_revenue" (VStr "0")) = Returns v ->
        (store_in_database item now db).2
        = {| rows := rows db ++
               [ {| row_id := next_rowid db; row_timestamp := now; row_ticker := t;
                    row_price := None;
                    row_market_cap := bind_real m;
                    row_annualized_revenue := bind_real v;
                    row_pe_ratio := bind_real pe |} ];
             seq := next_rowid db |}
        /\ forall r', r' ∈ rows db -> row_id r' < next_rowid db)
  /\ ((exists e, ratio_bound item = Raises e)
      \/ refused (item_get_default item "protocol" (VStr "")) ->
      (store_in_database item now db).2 = db)
  /\ (forall item' db',
        process_item item now db = Returned item' db' ->
        db' = (store_in_database item' now db).2).
Proof.
  rewrite store_in_database_unfold. split_and!; [done|..].
  - intros pe t m v -> Ht%ticker_bound_returns Hm Hv. rewrite Ht. cbn [snd].
    split; [|intros r' Hr'; by apply next_rowid_fresh].
    unfold append_row, metric_row, number_of. by rewrite Hm, Hv.
  - cbn [snd]. intros [[e ->]|Hr0]; [done|].
    pose proof (proj2 (ticker_refused _) Hr0) as Hr.
    destruct (ratio_bound item); [|done].
    destruct (ticker_bound item) as [t|] eqn:Ht; [|done].
    apply ticker_bound_returns in Ht. by destruct (Hr t).
  - intros item' db' H0. destruct (process_item_returns _ _ _ _ _ H0) as [-> ->].
    by rewrite stored_processed.
Qed.

End pipeline.

(** ** Examples *)

Section pipeline_examples.

Import DefillamaPipeline.

#[local] Existing Instance example_real_text.

Lemma pe_ratio_stored_witness :
  exists item' db',
    process_item item_alpha 10 empty_db = Returned item' db'
    /\ ((forall q, ~ calculable (item_get item_alpha "market_cap")
                     (item_get item_alpha "annual_revenue") q) ->
        item' !! "pe_ratio" = Some (VStr "Not calculable"))
    /\ (refused (item_get_default item_alpha "protocol" (VStr "")) -> db' = empty_db)
    /\ forall t,
         bind_text (item_get_default item_alpha "protocol" (VStr "")) = Returns (Some t) ->
         exists r,
           db' = append_row empty_db r
           /\ row_ticker r = t
           /\ (row_pe_ratio r <> None <->
               exists q, calculable (item_get item_alpha "market_cap")
                           (item_get item_alpha "annual_revenue") q
                         /\ Float.is_nan q = false)
           /\ ((forall q, ~ calculable (item_get item_alpha "market_cap")
                            (item_get item_alpha "annual_revenue") q) ->
               row_pe_ratio r = None).
Proof.
  apply (pe_ratio_stored item_alpha 10 empty_db).
  - reflexivity.
  - reflexivity.
Defined.

(** C2 as stated fails: a market cap of "0" parses (to zero) and the
    revenue "$2B" parses to a number greater than zero, yet the stored
    ratio is null. *)
Lemma pe_ratio_stored_counterexample :
  _convert_to_number (item_get item_zero_cap "market_cap") = Returns (Some Float.zero)
  /\ _convert_to_number (item_get item_zero_cap "annual_revenue")
     = Returns (Some (Float.of_Z 2000000000))
  /\ Float.ltb Float.zero (Float.of_Z 2000000000) = true
  /\ match process_item item_zero_cap 10 empty_db with
     | Returned item' db' =>
         item' !! "pe_ratio" = Some (VStr "Not calculable")
         /\ row_pe_ratio <$> rows db' = [None]
     | Raised _ _ _ => False
     end.
Proof. split_and!; vm_compute; try reflexivity. by split. Qed.

Lemma normalizer_idempotent_witness :
  (exists db2, process_item (processed item_hyperliquid) 20 (stored item_hyperliquid 10 empty_db)
               = Returned (processed item_hyperliquid) db2
               /\ record_fields <$> appended (stored item_hyperliquid 10 empty_db) db2
                  = record_fields <$> appended empty_db (stored item_hyperliquid 10 empty_db))
  /\ (exists db2, process_item item_hyperliquid 20 (stored item_hyperliquid 10 empty_db)
                  = Returned (processed item_hyperliquid) db2
                  /\ record_fields <$> appended (stored item_hyperliquid 10 empty_db) db2
                     = record_fields <$> appended empty_db (stored item_hyperliquid 10 empty_db)).
Proof.
  apply (normalizer_idempotent item_hyperliquid 10 empty_db).
  apply process_item_raw; reflexivity.
Defined.

Lemma normalizer_effects_witness :
  exists r,
    stored item_unparseable 10 empty_db = append_row empty_db r
    /\ r = {| row_id := next_rowid empty_db; row_timestamp := 10;
              row_ticker := "hyperliquid"; row_price := None;
              row_market_cap := bind_real None;
              row_annualized_revenue := bind_real (Some (Float.of_Z 250000000));
              row_pe_ratio :=
                bind_real (stored_ratio (quotient (item_get item_unparseable "market_cap")
                                           (item_get item_unparseable "annual_revenue"))) |}
    /\ (@None float = None -> row_market_cap r = None)
    /\ (Some (Float.of_Z 250000000) = None -> row_annualized_revenue r = None).
Proof.
  apply (proj2 (proj2 (proj2 (normalizer_effects item_unparseable 10 empty_db)))
           (processed item_unparseable)).
  - apply process_item_raw; reflexivity.
  - reflexivity.
  - vm_compute. reflexivity.
  - vm_compute. reflexivity.
Defined.

(** C10 as stated fails: the caller's item is changed. The spider's item
    for "$1.5B" and "$250M" comes back with "1.5B", "250M" and a new
    [pe_ratio] key. *)
Lemma normalizer_effects_counterexample :
  match process_item item_hyperliquid 10 empty_db with
  | Returned item' _ =>
      item' <> item_hyperliquid
      /\ item_hyperliquid !! "market_cap" = Some (VStr "$1.5B")
      /\ item' !! "market_cap" = Some (VStr "1.5B")
      /\ item_hyperliquid !! "pe_ratio" = None
      /\ item' !! "pe_ratio" = Some (VStr "6.00")
  | Raised _ _ _ => False
  end.
Proof.
  rewrite process_item_raw by reflexivity.
  assert (processed item_hyperliquid !! "market_cap" = Some (VStr "1.5B")) as Hm
    by (vm_compute; reflexivity).
  split_and!; try (vm_compute; reflexivity).
  intros Heq. rewrite Heq in Hm. vm_compute in Hm. discriminate.
Qed.

Lemma store_in_database_append_witness :
  (store_in_database (processed item_alpha) 10 empty_db).2
  = {| rows := rows empty_db ++
         [ {| row_id := next_rowid empty_db; row_timestamp := 10; row_ticker := "alpha";
              row_price := None;
              row_market_cap := bind_real (Some (Float.of_Z 4000000000));
              row_annualized_revenue := bind_real (Some (Float.of_Z 1000000000));
              row_pe_ratio := bind_real (Some (Float.of_Z 4)) |} ];
       seq := next_rowid empty_db |}
  /\ forall r', r' ∈ rows empty_db -> row_id r' < next_rowid empty_db.
Proof.
  apply (proj1 (proj2 (store_in_database_append (processed item_alpha) 10 empty_db))).
  - vm_compute. reflexivity.
  - vm_compute. reflexivity.
  - vm_compute. reflexivity.
  - vm_compute. reflexivity.
Defined.

(** C6 as stated fails: the first record stored gets the id 1, the call
    returns [None], and [process_item] hands back the item. *)
Lemma store_in_database_append_counterexample :
  (store_in_database (processed item_alpha) 10 empty_db).1 = VNone
  /\ row_id <$> rows (store_in_database (processed item_alpha) 10 empty_db).2 = [1]
  /\ (store_in_database (processed item_alpha) 10 empty_db).1 <> VInt 1
  /\ process_item item_alpha 10 empty_db
     = Returned (processed item_alpha)
         (store_in_database (processed item_alpha) 10 empty_db).2.
Proof. split_and!; [done|vm_compute; reflexivity|done|vm_compute; reflexivity]. Qed.

End pipeline_examples.

(** ** TimeSeriesStore: the latest record of each key *)

Section latest.

Context {rt : RealText}.

Lemma group_max_none col t rs :
  group_max col t rs = None <-> forall r, r ∈ rs -> row_ticker r <> t.
Proof.
  induction rs as [|r0 rs IH]; cbn [group_max foldr].
  - split; [by intros _ r ?%elem_of_nil|done].
  - fold (group_max col t rs). destruct (decide (row_ticker r0 = t)) as [Ht|Ht].
    + split; [done|]. intros H. destruct (H r0); [by left|done].
    + rewrite IH. split.
      * intros H r [->|Hin]%elem_of_cons; auto.
      * intros H r Hin. apply H. by right.
Qed.

Lemma group_max_some col t rs m :
  group_max col t rs = Some m ->
  (exists r, r ∈ rs /\ row_ticker r = t /\ col r = m)
  /\ forall r, r ∈ rs -> row_ticker r = t -> col r <= m.
Proof.
  revert m. induction rs as [|r0 rs IH]; intros m; cbn [group_max foldr]; [done|].
  fold (group_max col t rs). destruct (decide (row_ticker r0 = t)) as [Ht|Ht].
  - destruct (group_max col t rs) as [m'|] eqn:Hm'.
    + intros [= <-]. destruct (IH m' eq_refl) as [(r & Hin & Hrt & Hrm) Hle]. split.
      * destruct (Z.max_spec (col r0) m') as [[_ ->]|[_ ->]].
        -- exists r. split_and!; [by right|done..].
        -- exists r0. split_and!; [by left|done..].
      * intros r' [->|Hin']%elem_of_cons Hr'; [lia|]. specialize (Hle r' Hin' Hr'). lia.
    + intros [= <-]. split.
      * exists r0. split_and!; [by left|done..].
      * intros r' [->|Hin']%elem_of_cons Hr'; [lia|].
        by destruct (proj1 (group_max_none col t rs) Hm' r' Hin').
  - intros Hm. destruct (IH m Hm) as [(r & Hin & Hrt & Hrm) Hle]. split.
    + exists r. split_and!; [by right|done..].
    + intros r' [->|Hin']%elem_of_cons Hr'; [done|]. by apply Hle.
Qed.

Lemma max_id_elem rs i :
  i ∈ max_id_by_ticker rs <-> exists t, group_max row_id t rs = Some i.
Proof.
  unfold max_id_by_ticker. rewrite list_elem_of_omap. split.
  - intros (t & _ & Ht). by exists t.
  - intros (t & Ht). exists t. split; [|done].
    destruct (group_max_some _ _ _ _ Ht) as [(r & Hin & <- & _) _].
    rewrite elem_of_tickers. by apply list_elem_of_fmap_2.
Qed.

Lemma unique_id (rs : list row) r1 r2 :
  NoDup (row_id <$> rs) -> r1 ∈ rs -> r2 ∈ rs -> row_id r1 = row_id r2 -> r1 = r2.
Proof.
  induction rs as [|r0 rs IH]; [by intros _ ?%elem_of_nil|].
  rewrite fmap_cons, NoDup_cons.
  intros [Hnotin Hnd] [->|H1]%elem_of_cons [->|H2]%elem_of_cons Heq; auto.
  - destruct Hnotin. rewrite Heq. by apply list_elem_of_fmap_2.
  - destruct Hnotin. rewrite <- Heq. by apply list_elem_of_fmap_2.
Qed.

(** With ids unique, a row passes [id IN (SELECT MAX(id) ...)] exactly when
    it is the latest of its own ticker. *)
Lemma latest_selected rs r :
  NoDup (row_id <$> rs) -> r ∈ rs ->
  row_id r ∈ max_id_by_ticker rs <-> latest_of (row_ticker r) rs r.
Proof.
  intros Hnd Hin. rewrite max_id_elem. split.
  - intros (t & Ht). destruct (group_max_some _ _ _ _ Ht) as [(r0 & Hin0 & Ht0 & Hid) Hle].
    assert (r0 = r) as -> by by apply (unique_id rs).
    subst t. by split_and!.
  - intros (_ & _ & Hmax). exists (row_ticker r).
    destruct (group_max row_id (row_ticker r) rs) as [m|] eqn:Hm.
    + destruct (group_max_some _ _ _ _ Hm) as [(r0 & Hin0 & Ht0 & Hid) Hle].
      f_equal. specialize (Hmax r0 Hin0 Ht0). specialize (Hle r Hin eq_refl). lia.
    + by destruct (proj1 (group_max_none _ _ _) Hm r Hin).
Qed.

Lemma filter_print_entry t df (l : list row) :
  filter (fun e => entry_ticker e = t) (print_entry df <$> l)
  = print_entry df <$> filter (fun r => row_ticker r = t) l.
Proof.
  induction l as [|r l IH]; [done|].
  rewrite fmap_cons, !filter_cons. cbn [print_entry entry_ticker].
  destruct (decide (row_ticker r = t)); by rewrite IH.
Qed.

Lemma latest_unique t rs r1 r2 :
  NoDup (row_id <$> rs) -> latest_of t rs r1 -> latest_of t rs r2 -> r1 = r2.
Proof.
  intros Hnd (Hin1 & Ht1 & Hmax1) (Hin2 & Ht2 & Hmax2).
  apply (unique_id rs); try done.
  specialize (Hmax1 r2 Hin2 Ht2). specialize (Hmax2 r1 Hin1 Ht1). lia.
Qed.

Lemma latest_exists t rs :
  t ∈ row_ticker <$> rs -> exists r, latest_of t rs r.
Proof.
  intros (r0 & -> & Hin0)%list_elem_of_fmap_1.
  destruct (group_max row_id (row_ticker r0) rs) as [m|] eqn:Hm.
  - destruct (group_max_some _ _ _ _ Hm) as [(r & Hin & Ht & Hid) Hle].
    exists r. split_and!; try done. intros r' Hin' Ht'. rewrite Hid. by apply Hle.
  - by destruct (proj1 (group_max_none _ _ _) Hm r0 Hin0).
Qed.

Lemma latest_entries_filter db t r :
  NoDup (row_id <$> rows db) -> latest_of t (rows db) r ->
  filter (fun r' => row_ticker r' = t) (latest_entries db) = [r].
Proof.
  intros Hnd Hr. unfold latest_entries.
  set (sel := filter (fun r => row_id r ∈ max_id_by_ticker (rows db)) (rows db)).
  assert (filter (fun r => row_ticker r = t) (order_by_timestamp_desc sel)
          ≡ₚ filter (fun r => row_ticker r = t) sel) as Hperm
    by by rewrite order_by_timestamp_desc_perm.
  assert (filter (fun r => row_ticker r = t) sel ≡ₚ [r]) as Hone.
  { apply NoDup_Permutation.
    - apply NoDup_filter, NoDup_filter. by apply (NoDup_fmap_1 row_id).
    - apply NoDup_singleton.
    - intros r'. subst sel. rewrite !list_elem_of_filter, list_elem_of_singleton. split.
      + intros (<- & Hid & Hin). apply (latest_unique (row_ticker r') (rows db)); try done.
        by apply latest_selected.
      + intros ->. pose proof Hr as (Hin & Ht & _). split_and!; try done.
        apply latest_selected; try done. by rewrite Ht. }
  rewrite Hone in Hperm. by apply Permutation_singleton_r in Hperm.
Qed.

Lemma latest_entries_elem db r :
  r ∈ latest_entries db -> r ∈ rows db.
Proof.
  unfold latest_entries. rewrite order_by_timestamp_desc_perm.
  by intros [_ ?]%list_elem_of_filter.
Qed.

Lemma listed_query_database db :
  listed (query_database (Some db)).2
  = print_entry (latest_entries db) <$> latest_entries db.
Proof. unfold query_database. by destruct (latest_entries db). Qed.

Lemma latest_entry db t r :
  NoDup (row_id <$> rows db) -> latest_of t (rows db) r ->
  filter (fun e => entry_ticker e = t) (listed (query_database (Some db)).2)
  = [print_entry (latest_entries db) r].
Proof.
  intros Hnd Hr. by rewrite listed_query_database, filter_print_entry,
    (latest_entries_filter db t r).
Qed.

(** C7, as the code has it: [query_database] returns [None]; its result
    is what it prints. With the ids unique (the primary key), the
    listing holds, for every ticker with at least one record, exactly
    one entry, that of the ticker's record with the largest id, and no
    entry for any other ticker; on a table without records it prints
    that there is no data, and without a table the message of its
    [except] clause. *)
Theorem query_database_latest db :
  NoDup (row_id <$> rows db) ->
  (query_database (Some db)).1 = VNone
  /\ query_database None = (VNone, QueryError)
  /\ ((query_database (Some db)).2 = NoData <-> rows db = [])
  /\ forall t,
       (t ∈ row_ticker <$> rows db ->
        exists r, latest_of t (rows db) r
                  /\ filter (fun e => entry_ticker e = t)
                       (listed (query_database (Some db)).2)
                     = [print_entry (latest_entries db) r])
       /\ (t ∉ row_ticker <$> rows db ->
           filter (fun e => entry_ticker e = t)
             (listed (query_database (Some db)).2) = []).
Proof.
  intros Hnd. split_and!.
  - unfold query_database. by destruct (latest_entries db).
  - done.
  - unfold query_database. split.
    + destruct (latest_entries db) as [|r0 l] eqn:Hl; [|done]. intros _.
      destruct (decide (rows db = [])) as [|Hne]; [done|]. exfalso.
      destruct (rows db) as [|r1 rs] eqn:Hrows; [done|]. rewrite <- Hrows in Hnd.
      destruct (latest_exists (row_ticker r1) (rows db)) as [r Hr].
      { rewrite Hrows, fmap_cons. by left. }
      pose proof (latest_entries_filter db _ r Hnd Hr) as Hf.
      rewrite Hl in Hf. done.
    + intros Hrows. unfold latest_entries. by rewrite Hrows.
  - intros t. split.
    + intros Ht. destruct (latest_exists t (rows db) Ht) as [r Hr].
      exists r. split; [done|]. by apply latest_entry.
    + intros Ht. rewrite listed_query_database, filter_print_entry.
      assert (filter (fun r => row_ticker r = t) (latest_entries db) = []) as ->; [|done].
      apply elem_of_nil_inv. intros r [Hrt Hin]%list_elem_of_filter.
      destruct Ht. rewrite <- Hrt. apply list_elem_of_fmap_2. by apply latest_entries_elem.
Qed.

(** ** TimeSeriesStore: append, then read the latest record of one key *)

Lemma store_accepted k item now db :
  accepted k item ->
  exists r,
    (DefillamaPipeline.store_in_database item now db).2 = append_row db r
    /\ row_ticker r = k /\ row_timestamp r = now /\ row_id r = next_rowid db.
Proof.
  intros [Hk [pe Hpe]]. rewrite store_in_database_unfold, Hpe.
  unfold ticker_bound. rewrite Hk. cbn [snd].
  by exists (metric_row item now db k pe).
Qed.

Lemma appends_rows k batch : forall db,
  Forall (fun p => accepted k p.1) batch ->
  exists new,
    rows (appends batch db) = rows db ++ new
    /\ row_timestamp <$> new = batch.*2
    /\ Forall (fun r => row_ticker r = k) new
    /\ StronglySorted (fun a b => row_id a < row_id b) new
    /\ forall r r', r ∈ new -> r' ∈ rows db -> row_id r' < row_id r.
Proof.
  induction batch as [|[item now] rest IH]; intros db Hacc.
  - exists []. cbn [appends]. rewrite app_nil_r. split_and!; try done.
    + constructor.
    + by intros r r' ?%elem_of_nil.
  - apply Forall_cons in Hacc as [Hitem Hrest]. cbn [fst] in Hitem.
    destruct (store_accepted k item now db Hitem) as (r0 & Hstore & Ht0 & Hts0 & Hid0).
    cbn [appends]. rewrite Hstore.
    destruct (IH (append_row db r0) Hrest) as (new & Hrows & Hts & Hk & Hids & Hold).
    cbn [append_row rows] in Hrows, Hold.
    exists (r0 :: new). split_and!.
    + by rewrite Hrows, <- app_assoc.
    + by rewrite !fmap_cons, Hts, Hts0.
    + by constructor.
    + constructor; [done|]. apply Forall_forall. intros r Hr.
      apply (Hold r r0 Hr). apply elem_of_app. right. by left.
    + intros r r' [->|Hr]%elem_of_cons Hr'.
      * rewrite Hid0. by apply next_rowid_fresh.
      * apply (Hold r r' Hr). apply elem_of_app. by left.
Qed.

(** C8, as the code has it: [get_latest_data] orders by timestamp. After
    one or more appends for one non-empty key [k], made at strictly
    increasing clock readings that are later than the timestamps of the
    key's earlier records, it returns exactly one record, the one with the
    highest id among those appended. *)
Theorem get_latest_data_after_appends k batch db :
  k <> "" -> batch <> [] ->
  Forall (fun p => accepted k p.1) batch ->
  StronglySorted Z.lt (batch.*2) ->
  (forall r now, r ∈ rows db -> row_ticker r = k -> now ∈ batch.*2 ->
                 row_timestamp r < now) ->
  exists r,
    get_latest_data (VStr k) (Some (appends batch db)) = Some (DfRows [r])
    /\ r ∈ appended db (appends batch db)
    /\ forall r', r' ∈ appended db (appends batch db) -> row_id r' <= row_id r.
Proof.
  intros Hk Hne Hacc Hclock Hold.
  destruct (appends_rows k batch db Hacc) as (new & Hrows & Hts & Hkey & Hids & _).
  assert (appended db (appends batch db) = new) as ->
    by (unfold appended; by rewrite Hrows, drop_app_length).
  destruct new as [|rl new0 _] using rev_ind.
  { destruct batch; [done|]. by rewrite fmap_cons in Hts. }
  exists rl.
  apply Forall_app in Hkey as [Hkey0 Hkl]. rewrite Forall_singleton in Hkl.
  assert (forall r, r ∈ new0 -> row_timestamp r < row_timestamp rl) as Hnew0.
  { intros r Hr. rewrite <- Hts, fmap_snoc in Hclock.
    apply (StronglySorted_app_1_elem_of _ _ _ _ _ Hclock).
    - by apply list_elem_of_fmap_2.
    - by left. }
  assert (forall r, r ∈ rows db -> row_ticker r = k ->
                    row_timestamp r < row_timestamp rl) as Hold'.
  { intros r Hr Hrk. apply Hold; try done. rewrite <- Hts, fmap_snoc.
    apply elem_of_app. right. by left. }
  split_and!.
  - unfold get_latest_data. cbn [truthy].
    assert (String.eqb k "" = false) as -> by by apply String.eqb_neq.
    cbn [negb bind_text mbind outcome_bind obind mret outcome_ret or_none].
    do 2 f_equal. rewrite Hrows, !filter_app.
    assert (filter (fun r => Some (row_ticker r) = Some k) [rl] = [rl]) as ->.
    { rewrite filter_cons, decide_True by (by rewrite Hkl). by rewrite filter_nil. }
    rewrite app_assoc.
    set (F0 := filter _ (rows db) ++ filter _ new0).
    assert (forall r, r ∈ F0 -> row_timestamp r < row_timestamp rl) as HF0.
    { intros r [Hr|Hr]%elem_of_app; apply list_elem_of_filter in Hr as [[= Hrk] Hr]; auto. }
    pose proof (order_by_timestamp_desc_perm (F0 ++ [rl])) as Hperm.
    pose proof (order_by_timestamp_desc_sorted (F0 ++ [rl])) as Hsorted.
    destruct (order_by_timestamp_desc (F0 ++ [rl])) as [|h S'].
    { apply Permutation_nil_l in Hperm. by destruct F0. }
    assert (h = rl) as ->; [|by destruct S'].
    apply StronglySorted_cons in Hsorted as [Hh _].
    assert (h ∈ F0 ++ [rl]) as Hin by (rewrite <- Hperm; by left).
    assert (rl ∈ h :: S') as Hl by (rewrite Hperm, elem_of_app; right; by left).
    apply elem_of_app in Hin as [Hin|Hin%list_elem_of_singleton]; [|done].
    apply elem_of_cons in Hl as [->|Hl]; [done|].
    specialize (HF0 h Hin). rewrite Forall_forall in Hh.
    specialize (Hh rl Hl). unfold newer_first in Hh. lia.
  - apply elem_of_app. right. by left.
  - intros r' [Hr'|Hr'%list_elem_of_singleton]%elem_of_app; [|by subst].
    apply Z.lt_le_incl. apply (StronglySorted_app_1_elem_of _ _ _ _ _ Hids); [done|by left].
Qed.

(** The primary key stays unique under [store_in_database]. *)
Lemma store_keeps_ids_unique item now db :
  NoDup (row_id <$> rows db) ->
  NoDup (row_id <$> rows (DefillamaPipeline.store_in_database item now db).2).
Proof.
  intros Hnd. rewrite store_in_database_unfold. cbn [snd].
  destruct (ratio_bound item) as [pe|]; [|done].
  destruct (ticker_bound item) as [t|]; [|done].
  cbn [append_row rows]. rewrite fmap_app. apply NoDup_app. split_and!;
    [done| |apply NoDup_singleton].
  intros i (r & -> & Hr)%list_elem_of_fmap_1 Hi%list_elem_of_singleton.
  apply next_rowid_fresh in Hr. cbn [metric_row row_id] in Hi. lia.
Qed.

End latest.

(** ** Examples *)

Section latest_examples.

#[local] Existing Instance example_real_text.

Lemma query_database_latest_witness :
  (query_database (Some db_three)).1 = VNone
  /\ query_database None = (VNone, QueryError)
  /\ ((query_database (Some db_three)).2 = NoData <-> rows db_three = [])
  /\ forall t,
       (t ∈ row_ticker <$> rows db_three ->
        exists r, latest_of t (rows db_three) r
                  /\ filter (fun e => entry_ticker e = t)
                       (listed (query_database (Some db_three)).2)
                     = [print_entry (latest_entries db_three) r])
       /\ (t ∉ row_ticker <$> rows db_three ->
           filter (fun e => entry_ticker e = t)
             (listed (query_database (Some db_three)).2) = []).
Proof.
  apply (query_database_latest db_three).
  apply (bool_decide_unpack _). vm_compute. exact I.
Defined.

(** C7 as stated fails: [query_database] returns no record. On the table
    of three records it returns [None] and prints two entries, the one
    of "alpha" being that of its record with the largest id, 3. *)
Lemma query_database_latest_counterexample :
  query_database (Some db_three)
  = (VNone,
     Entries [ {| entry_timestamp := 30; entry_ticker := "alpha";
                  entry_market_cap := Some (Float.of_Z 6000000000);
                  entry_annual_revenue := Some (Float.of_Z 1000000000);
                  entry_pe_ratio := Some (Float.of_Z 6) |};
               {| entry_timestamp := 20; entry_ticker := "hyperliquid";
                  entry_market_cap := Some (Float.of_Z 1500000000);
                  entry_annual_revenue := Some (Float.of_Z 250000000);
                  entry_pe_ratio := Some (Float.of_Z 6) |} ])
  /\ (row_id <$> rows db_three, row_ticker <$> rows db_three)
     = ([1; 2; 3], ["alpha"; "hyperliquid"; "alpha"]).
Proof. split; vm_compute; reflexivity. Qed.

Lemma get_latest_data_after_appends_witness :
  exists r,
    get_latest_data (VStr "alpha")
      (Some (appends [(processed item_alpha, 10); (processed item_alpha, 20)] empty_db))
    = Some (DfRows [r])
    /\ r ∈ appended empty_db
             (appends [(processed item_alpha, 10); (processed item_alpha, 20)] empty_db)
    /\ forall r',
         r' ∈ appended empty_db
                (appends [(processed item_alpha, 10); (processed item_alpha, 20)] empty_db) ->
         row_id r' <= row_id r.
Proof.
  apply (get_latest_data_after_appends "alpha").
  - discriminate.
  - discriminate.
  - repeat constructor; try (vm_compute; reflexivity); eexists; vm_compute; reflexivity.
  - repeat constructor; lia.
  - intros r now Hr. by apply elem_of_nil in Hr.
Defined.

(** C8 as stated fails: two appends for "alpha", the second at an earlier
    clock reading (the clock was set back). The record with the highest id
    is the second (id 2); [get_latest_data] returns the first (id 1). *)
Lemma get_latest_data_after_appends_counterexample :
  row_id <$> rows db_clock_back = [1; 2]
  /\ row_ticker <$> rows db_clock_back = ["alpha"; "alpha"]
  /\ match get_latest_data (VStr "alpha") (Some db_clock_back) with
     | Some (DfRows records) => row_id <$> records = [1]
     | _ => False
     end.
Proof. split_and!; vm_compute; reflexivity. Qed.

(** The end-to-end scenario: two records for "alpha"; the latest carries
    the ratio 6. *)
Example latest_alpha :
  get_latest_data (VStr "alpha") (Some db_three)
  = Some (DfRows [ {| row_id := 3; row_timestamp := 30; row_ticker := "alpha";
                      row_price := None;
                      row_market_cap := Some (Float.of_Z 6000000000);
                      row_annualized_revenue := Some (Float.of_Z 1000000000);
                      row_pe_ratio := Some (Float.of_Z 6) |} ]).
Proof. vm_compute. reflexivity. Qed.

End latest_examples.

(** * Further properties of the code *)

(** ** The parsers *)

Section parser_extras.

Import DefillamaPipeline.

Lemma sfilter_kept_dollar s : sfilter kept (sfilter (is_not "$") s) = sfilter kept s.
Proof.
  rewrite sfilter_sfilter. induction s as [|c s IH]; [done|]. cbn [sfilter].
  rewrite IH. unfold kept. by destruct (is_not "$" c).
Qed.

Lemma sfilter_kept_comma s : sfilter kept (sfilter (is_not ",") s) = sfilter kept s.
Proof.
  rewrite sfilter_sfilter. induction s as [|c s IH]; [done|]. cbn [sfilter].
  rewrite IH. unfold kept. by destruct (is_not "$" c), (is_not "," c).
Qed.

(** X1: currency symbols and thousands separators anywhere in a text, and
    white space at its ends, do not change what the parser returns. *)
Theorem convert_to_number_ignores_decoration s :
  _convert_to_number (VStr (Str.strip s)) = _convert_to_number (VStr s)
  /\ _convert_to_number (VStr (Str.replace "$" "" s)) = _convert_to_number (VStr s)
  /\ _convert_to_number (VStr (Str.replace "," "" s)) = _convert_to_number (VStr s)
  /\ _convert_to_number (VStr (clean s)) = _convert_to_number (VStr s).
Proof.
  split_and!; apply convert_clean.
  - apply clean_strip.
  - by rewrite !clean_kept, replace_single, sfilter_kept_dollar.
  - by rewrite !clean_kept, replace_single, sfilter_kept_comma.
  - apply clean_idem.
Qed.

Lemma float_of_str_digits D :
  sall FloatParse.is_digit D = true -> D <> EmptyString ->
  FloatParse.float_of_str D = Returns (Float.of_decimal false (dval 0 D) 0).
Proof.
  intros HD Hne.
  assert (sall fixed_char D = true) as Hall by (eapply sall_impl; [apply digit_fixed|done]).
  unfold FloatParse.float_of_str.
  rewrite ltrim_nospace, rtrim_nospace
    by (eapply sall_impl; [apply fixed_char_nospace|done]).
  assert (sall (fun c => negb (Ascii.eqb c "_")) D = true) as Hus.
  { eapply sall_impl; [|exact Hall].
    intros c Hc. by rewrite (fixed_char_no_underscore c Hc). }
  rewrite underscores_ok_none, drop_underscores_none by done.
  destruct D as [|c D]; [done|]. clear Hne.
  pose proof HD as HD'. cbn [sall] in HD. apply andb_true_iff in HD as [Hc HD].
  assert (FloatParse.sign (String c D) = (false, String c D)) as ->.
  { unfold FloatParse.sign. by destruct (digit_no_sign c Hc) as [-> ->]. }
  rewrite (lower_id (String c D)) by (eapply sall_impl; [apply digit_lower|done]).
  destruct (digit_not_letter c Hc) as [Hi Hn].
  assert (forall w, (w = "inf" \/ w = "infinity" \/ w = "nan") ->
                    String.eqb (String c D) w = false) as Hw.
  { intros w [->|[->| ->]]; simpl; by rewrite ?Hi, ?Hn. }
  rewrite !Hw by auto. cbn [orb].
  assert (FloatParse.decimal (String c D) = Some (dval 0 (String c D), 0)) as ->; [|done].
  unfold FloatParse.decimal.
  rewrite <- (append_empty_r (String c D)) at 1.
  rewrite digits_app by done. cbn [FloatParse.digits].
  assert ((0 + slen (String c D) + 0 =? 0) = false) as ->; [|done].
  apply Z.eqb_neq. unfold slen. cbn [String.length]. lia.
Qed.

Lemma digits_numeral D F frac :
  sall FloatParse.is_digit D = true -> sall FloatParse.is_digit F = true ->
  (frac = "" /\ F = "" \/ frac = "." +:+ F) ->
  sall numeral_char (D +:+ frac) = true
  /\ Str.replace "," "" (D +:+ frac) = D +:+ frac.
Proof.
  intros HD HF Hfrac.
  assert (forall c, FloatParse.is_digit c = true -> numeral_char c = true) as Hnum
    by (intros c Hc; unfold numeral_char; by rewrite Hc).
  assert (sall numeral_char (D +:+ frac) = true) as Hall.
  { rewrite sall_app, (sall_impl _ _ _ Hnum HD).
    destruct Hfrac as [[-> _]| ->]; [done|].
    change ("." +:+ F) with (String "."%char F). cbn [sall].
    by rewrite (sall_impl _ _ _ Hnum HF). }
  split; [done|]. rewrite replace_single. apply sfilter_id.
  rewrite sall_app.
  assert (forall c, FloatParse.is_digit c = true -> is_not "," c = true) as Hcomma
    by (intros c; by_chars c).
  rewrite (sall_impl _ _ _ Hcomma HD).
  destruct Hfrac as [[-> _]| ->]; [done|].
  change ("." +:+ F) with (String "."%char F). cbn [sall].
  by rewrite (sall_impl _ _ _ Hcomma HF).
Qed.

Lemma float_of_str_numeral D F frac :
  sall FloatParse.is_digit D = true -> D <> EmptyString ->
  sall FloatParse.is_digit F = true ->
  (frac = "" /\ F = "" \/ frac = "." +:+ F) ->
  FloatParse.float_of_str (D +:+ frac) = Returns (numeral_value D F).
Proof.
  intros HD Hne HF [[-> ->]| ->].
  - rewrite append_empty_r, float_of_str_digits by done. done.
  - apply (float_of_str_fixed false D F HD Hne HF).
Qed.

(** X2: a well-formed magnitude always parses. An optional currency
    symbol, digits, an optional point with more digits, and a unit
    indicator give the number the digits denote times the unit's factor;
    without the indicator, that number itself. *)
Theorem convert_to_number_well_formed cur D F frac :
  (cur = "" \/ cur = "$") ->
  sall FloatParse.is_digit D = true -> D <> EmptyString ->
  sall FloatParse.is_digit F = true ->
  (frac = "" /\ F = "" \/ frac = "." +:+ F) ->
  (forall sfx k, unit_factor sfx = Some k ->
     _convert_to_number (VStr (cur +:+ (D +:+ frac) +:+ sfx))
     = Returns (Some (Float.mul (numeral_value D F) (Float.of_Z k))))
  /\ _convert_to_number (VStr (cur +:+ (D +:+ frac)))
     = Returns (Some (numeral_value D F)).
Proof.
  intros Hcur HD Hne HF Hfrac.
  destruct (digits_numeral D F frac HD HF Hfrac) as [Hnum Hcomma].
  pose proof (float_of_str_numeral D F frac HD Hne HF Hfrac) as Hfloat.
  remember (D +:+ frac) as p eqn:Hp. clear Hp.
  assert (forall c, numeral_char c = true -> is_not "$" c = true /\ negb (Str.isspace c) = true
            /\ Ascii.eqb (Str.lower_char c) c = true /\ is_not "b" c = true
            /\ is_not "m" c = true) as Hfacts by apply numeral_char_facts.
  split.
  - intros sfx k Hk. unfold unit_factor in Hk.
    destruct (String.eqb sfx "b" || String.eqb sfx "B") eqn:Hb.
    + injection Hk as <-.
      assert (sfx = "b" \/ sfx = "B") as Hsfx
        by (apply orb_true_iff in Hb as [?%String.eqb_eq|?%String.eqb_eq]; auto).
      destruct (magnitude_clean cur p sfx "b" Hcur) as [Hlow Hp'];
        [by left|done|].
      rewrite Hcomma in Hlow.
      rewrite convert_str, Hlow, contains_single, sany_app. cbn [sany].
      rewrite Ascii.eqb_refl, orb_true_r, (replace_single "b"), sfilter_app.
      rewrite sfilter_id by (eapply sall_impl; [|exact Hnum]; intros c Hc; by apply Hfacts).
      by rewrite append_empty_r, Hfloat.
    + destruct (String.eqb sfx "m" || String.eqb sfx "M") eqn:Hm; [|done].
      injection Hk as <-.
      assert (sfx = "m" \/ sfx = "M") as Hsfx
        by (apply orb_true_iff in Hm as [?%String.eqb_eq|?%String.eqb_eq]; auto).
      destruct (magnitude_clean cur p sfx "m" Hcur) as [Hlow Hp'];
        [by right|done|].
      rewrite Hcomma in Hlow.
      rewrite convert_str, Hlow, !contains_single, !sany_app. cbn [sany].
      assert (sany (Ascii.eqb "b") p = false) as ->.
      { rewrite sany_false_sall. apply negb_false_iff.
        eapply sall_impl; [|exact Hnum]. intros c Hc. by apply Hfacts. }
      rewrite Ascii.eqb_refl, orb_true_r. cbn [orb].
      change (Ascii.eqb "b" "m") with false. cbn match.
      rewrite (replace_single "m"), sfilter_app.
      rewrite sfilter_id by (eapply sall_impl; [|exact Hnum]; intros c Hc; by apply Hfacts).
      by rewrite append_empty_r, Hfloat.
  - assert (clean (cur +:+ p) = p) as Hclean.
    { unfold clean. rewrite !replace_single, !sfilter_app.
      rewrite (sfilter_id (is_not "$") p)
        by (eapply sall_impl; [|exact Hnum]; intros c Hc; by apply Hfacts).
      rewrite <- (replace_single "," p), Hcomma.
      assert (sfilter (is_not ",") (sfilter (is_not "$") cur) = "") as ->
        by (by destruct Hcur as [-> | ->]).
      rewrite append_empty_l. apply strip_nospace.
      eapply sall_impl; [|exact Hnum]. intros c Hc. by apply Hfacts. }
    rewrite convert_str, Hclean, (lower_id p)
      by (eapply sall_impl; [|exact Hnum]; intros c Hc; by apply Hfacts).
    rewrite !contains_single.
    assert (forall x, (x = "b"%char \/ x = "m"%char) -> sany (Ascii.eqb x) p = false)
      as Hno.
    { intros x Hx. rewrite sany_false_sall. apply negb_false_iff.
      eapply sall_impl; [|exact Hnum]. intros c Hc.
      destruct Hx as [-> | ->]; by apply Hfacts. }
    by rewrite !Hno, Hfloat by auto.
Qed.

Lemma convert_to_number_well_formed_witness :
  _convert_to_number (VStr ("$" +:+ ("12" +:+ ".75") +:+ "B"))
  = Returns (Some (Float.mul (numeral_value "12" "75") (Float.of_Z (10 ^ 9)))).
Proof.
  apply (proj1 (convert_to_number_well_formed "$" "12" "75" ".75"
                  (or_intror eq_refl) eq_refl ltac:(discriminate) eq_refl
                  (or_intror eq_refl))).
  reflexivity.
Defined.

(** *** What [float] rejects *)

Lemma sany_impl (P Q : ascii -> bool) s :
  (forall c, P c = true -> Q c = true) -> sany P s = true -> sany Q s = true.
Proof.
  intros HPQ. induction s as [|c s IH]; [done|]. cbn [sany].
  intros [Hc|Hs]%orb_true_iff; [by rewrite (HPQ c Hc)|].
  rewrite (IH Hs). apply orb_true_r.
Qed.

Lemma sany_ltrim P sp s :
  (forall c, sp c = true -> P c = false) -> sany P (ltrim sp s) = sany P s.
Proof.
  intros Hsp. induction s as [|c s IH]; [done|]. cbn [ltrim sany].
  destruct (sp c) eqn:Hc; [|done]. by rewrite IH, (Hsp c Hc).
Qed.

Lemma sany_rtrim P sp s :
  (forall c, sp c = true -> P c = false) -> sany P (rtrim sp s) = sany P s.
Proof.
  intros Hsp. induction s as [|c s IH]; [done|]. rewrite rtrim_cons. cbn [sany].
  destruct (sp c && String.eqb (rtrim sp s) "") eqn:Hcase.
  - apply andb_true_iff in Hcase as [Hc He%String.eqb_eq].
    rewrite <- IH, He, (Hsp c Hc). done.
  - cbn [sany]. by rewrite IH.
Qed.

Lemma sany_sfilter P f s :
  (forall c, P c = true -> f c = true) -> sany P (sfilter f s) = sany P s.
Proof.
  intros HPf. induction s as [|c s IH]; [done|]. cbn [sfilter sany].
  destruct (f c) eqn:Hf; cbn [sany]; rewrite IH; [done|].
  destruct (P c) eqn:HP; [|done]. by rewrite (HPf c HP) in Hf.
Qed.

Lemma sany_lower P s :
  (forall c, P (Str.lower_char c) = P c) -> sany P (Str.lower s) = sany P s.
Proof. intros HP. induction s as [|c s IH]; [done|]. cbn [Str.lower sany]. by rewrite HP, IH. Qed.

Lemma foreign_facts c :
  foreign c = true ->
  FloatParse.isspace c = false /\ Ascii.eqb c "_" = false
  /\ Ascii.eqb c "-" = false /\ Ascii.eqb c "+" = false
  /\ FloatParse.digit c = None /\ Ascii.eqb c "." = false
  /\ Ascii.eqb c "e" = false /\ Ascii.eqb c "E" = false.
Proof.
  destruct c as [[] [] [] [] [] [] [] []]; vm_compute;
    try discriminate; intros _; repeat split.
Qed.

Lemma foreign_lower c : foreign (Str.lower_char c) = foreign c.
Proof. by_chars c. Qed.

Lemma drop_underscores_foreign s :
  sany foreign (FloatParse.drop_underscores s) = sany foreign s.
Proof.
  induction s as [|c s IH]; [done|]. cbn [FloatParse.drop_underscores sany].
  destruct (Ascii.eqb c "_") eqn:Hc; cbn [sany]; rewrite IH; [|done].
  apply Ascii.eqb_eq in Hc. by subst.
Qed.

Lemma sign_foreign s : sany foreign (FloatParse.sign s).2 = sany foreign s.
Proof.
  destruct s as [|c s]; [done|]. unfold FloatParse.sign.
  destruct (Ascii.eqb c "-") eqn:Hm; [apply Ascii.eqb_eq in Hm; by subst|].
  destruct (Ascii.eqb c "+") eqn:Hp; [apply Ascii.eqb_eq in Hp; by subst|done].
Qed.

Lemma digits_foreign s : forall acc n,
  sany foreign (FloatParse.digits acc n s).2 = sany foreign s.
Proof.
  induction s as [|c s IH]; intros acc n; [done|]. cbn [FloatParse.digits].
  destruct (FloatParse.digit c) as [d|] eqn:Hd; [|done].
  rewrite IH. cbn [sany].
  destruct (foreign c) eqn:Hc; [|done].
  destruct (foreign_facts c Hc) as (_ & _ & _ & _ & Hnone & _). congruence.
Qed.

Lemma decimal_foreign s : sany foreign s = true -> FloatParse.decimal s = None.
Proof.
  intros Hs. unfold FloatParse.decimal.
  pose proof (digits_foreign s 0 0) as H1.
  destruct (FloatParse.digits 0 0 s) as [[ip ni] r1]. cbn [snd] in H1.
  rewrite Hs in H1.
  assert (exists m nf r2,
            match r1 with
            | String c r => if Ascii.eqb c "." then FloatParse.digits ip 0 r else (ip, 0, r1)
            | EmptyString => (ip, 0, r1)
            end = (m, nf, r2) /\ sany foreign r2 = true) as (m & nf & r2 & -> & H2).
  { destruct r1 as [|c r]; [done|].
    destruct (Ascii.eqb c ".") eqn:Hc; [|by eexists _, _, _].
    apply Ascii.eqb_eq in Hc. subst c.
    pose proof (digits_foreign r ip 0) as H2.
    destruct (FloatParse.digits ip 0 r) as [[m nf] r2]. cbn [snd] in H2.
    exists m, nf, r2. split; [done|]. by rewrite H2. }
  destruct (ni + nf =? 0); [done|].
  destruct r2 as [|c r3]; [done|].
  destruct (Ascii.eqb c "e" || Ascii.eqb c "E") eqn:He; [|done].
  assert (sany foreign r3 = true) as H3.
  { cbn [sany] in H2. apply orb_true_iff in H2 as [Hc|?]; [|done].
    destruct (foreign_facts c Hc) as (_ & _ & _ & _ & _ & _ & H & H').
    by rewrite H, H' in He. }
  pose proof (sign_foreign r3) as H4. rewrite H3 in H4.
  destruct (FloatParse.sign r3) as [eneg r4]. cbn [snd] in H4.
  pose proof (digits_foreign r4 0 0) as H5. rewrite H4 in H5.
  destruct (FloatParse.digits 0 0 r4) as [[ev ne] r5]. cbn [snd] in H5.
  destruct (ne =? 0); [done|]. by destruct r5.
Qed.

(** [float] rejects every text that holds a foreign character. *)
Lemma float_of_str_foreign s :
  sany foreign s = true -> FloatParse.float_of_str s = Raises ValueError.
Proof.
  intros Hs. unfold FloatParse.float_of_str.
  assert (forall c, FloatParse.isspace c = true -> foreign c = false) as Hsp
    by (intros c; by_chars c).
  set (t := rtrim FloatParse.isspace (ltrim FloatParse.isspace s)).
  assert (sany foreign t = true) as Ht
    by (subst t; by rewrite sany_rtrim, sany_ltrim).
  destruct (FloatParse.underscores_ok None t); [|done].
  pose proof (sign_foreign (FloatParse.drop_underscores t)) as Hb.
  rewrite drop_underscores_foreign, Ht in Hb.
  destruct (FloatParse.sign (FloatParse.drop_underscores t)) as [neg body].
  cbn [snd] in Hb.
  assert (sany foreign (Str.lower body) = true) as Hlow
    by (by rewrite sany_lower by apply foreign_lower).
  destruct (String.eqb_spec (Str.lower body) "inf") as [He|_];
    [by rewrite He in Hlow|].
  destruct (String.eqb_spec (Str.lower body) "infinity") as [He|_];
    [by rewrite He in Hlow|].
  destruct (String.eqb_spec (Str.lower body) "nan") as [He|_];
    [by rewrite He in Hlow|].
  cbn [orb]. by rewrite decimal_foreign.
Qed.

(** X3: the spider's copy of the parser does no cleaning. It returns
    [None] for every text that holds a currency symbol or a thousands
    separator, and the pipeline's parser is the spider's applied to the
    cleaned text. *)
Theorem spider_convert_to_number_uncleaned s :
  (Str.contains "$" s = true \/ Str.contains "," s = true ->
   DefillamaSpider._convert_to_number (VStr s) = Returns None)
  /\ _convert_to_number (VStr s) = DefillamaSpider._convert_to_number (VStr (clean s)).
Proof.
  split; [|done].
  intros Hs.
  assert (exists x, (x = "$"%char \/ x = ","%char) /\ sany (Ascii.eqb x) s = true)
    as (x & Hx & Hin).
  { destruct Hs as [H|H]; rewrite contains_single in H; eauto. }
  assert (forall c, Ascii.eqb x c = true -> foreign c = true) as Hfor.
  { intros c Hc%Ascii.eqb_eq. subst c. by destruct Hx as [-> | ->]. }
  assert (sany (Ascii.eqb x) (Str.lower s) = true) as Hlow.
  { rewrite sany_lower; [done|]. intros c. destruct Hx as [-> | ->]; by_chars c. }
  assert (forall y, (y = "b"%char \/ y = "m"%char) ->
            FloatParse.float_of_str (Str.replace (String y "") "" (Str.lower s))
            = Raises ValueError) as Hrep.
  { intros y Hy. apply float_of_str_foreign, (sany_impl _ _ _ Hfor).
    rewrite replace_single, sany_sfilter; [done|].
    intros c Hc%Ascii.eqb_eq. subst c. by destruct Hx as [-> | ->], Hy as [-> | ->]. }
  unfold DefillamaSpider._convert_to_number. cbn [str_method mbind outcome_bind obind].
  destruct (Str.contains "b" _); [by rewrite Hrep by auto|].
  destruct (Str.contains "m" _); [by rewrite Hrep by auto|].
  rewrite float_of_str_foreign; [done|].
  by apply (sany_impl _ _ _ Hfor).
Qed.

Lemma spider_convert_to_number_uncleaned_witness :
  DefillamaSpider._convert_to_number (VStr "$1.5B") = Returns None.
Proof.
  apply (proj1 (spider_convert_to_number_uncleaned "$1.5B")).
  left. reflexivity.
Defined.

End parser_extras.

(** ** The pipeline *)

Section pipeline_extras.

Import DefillamaPipeline.

Context {rt : RealText}.

Lemma sall_ltrim P sp s : sall P s = true -> sall P (ltrim sp s) = true.
Proof.
  induction s as [|c s IH]; [done|]. cbn [ltrim]. intros H.
  destruct (sp c); [|done]. cbn [sall] in H. apply andb_true_iff in H as [_ H]. auto.
Qed.

Lemma sall_rtrim P sp s : sall P s = true -> sall P (rtrim sp s) = true.
Proof.
  induction s as [|c s IH]; [done|]. rewrite rtrim_cons. cbn [sall].
  intros [Hc Hs]%andb_true_iff. destruct (sp c && _); [done|].
  cbn [sall]. by rewrite Hc, IH.
Qed.

Lemma sfilter_true s : sfilter (fun _ => true) s = s.
Proof. induction s as [|c s IH]; [done|]. cbn [sfilter]. by rewrite IH. Qed.

Lemma strip_idem s : Str.strip (Str.strip s) = Str.strip s.
Proof.
  pose proof (strip_sfilter (fun _ => true) s (fun _ _ => eq_refl)) as H.
  by rewrite !sfilter_true in H.
Qed.

(** X4: the cleaned text of a field has no currency symbol, no thousands
    separator and no white space at its ends; cleaning leaves such a text
    as it is; and after [process_item], whether it returns or raises, a
    field that held a non-empty [str] holds its cleaned text. *)
Theorem clean_tidy :
  (forall s, tidy (clean s))
  /\ (forall s, tidy s -> clean s = s)
  /\ (forall item now db item' db' field s,
        process_item item now db = Returned item' db'
        \/ (exists e, process_item item now db = Raised e item' db') ->
        field = "market_cap" \/ field = "annual_revenue" ->
        item !! field = Some (VStr s) -> s <> "" ->
        item' !! field = Some (VStr (clean s))).
Proof.
  split_and!.
  - intros s. rewrite clean_kept. split.
    + unfold Str.strip. apply sall_rtrim, sall_ltrim, sall_sfilter.
    + apply strip_idem.
  - intros s [Hk Hs]. by rewrite clean_kept, sfilter_id.
  - intros item now db item' db' field s Hend Hf Hs Hne.
    assert (item' !! field = cleaned <$> item !! field) as ->.
    { destruct Hend as [Hret|[e Hraise]].
      - destruct (process_item_returns _ _ _ _ _ Hret) as [-> _].
        destruct Hf as [-> | ->];
          [apply processed_market_cap|apply processed_annual_revenue].
      - apply process_item_raised in Hraise as (_ & -> & _).
        rewrite cleaning_lookup. by rewrite decide_True. }
    rewrite Hs. cbn. apply String.eqb_neq in Hne. by rewrite Hne.
Qed.

(** The three keys of a spider item. *)
Lemma parse_lookup protocol mc rev :
  let field (found : option string) :=
    match found with
    | Some s => if truthy (VStr s) then VStr (Str.strip s) else VStr "Not found"
    | None => VStr "Not found"
    end in
  DefillamaSpider.parse protocol mc rev !! "protocol" = Some (VStr protocol)
  /\ DefillamaSpider.parse protocol mc rev !! "market_cap" = Some (field mc)
  /\ DefillamaSpider.parse protocol mc rev !! "annual_revenue" = Some (field rev)
  /\ DefillamaSpider.parse protocol mc rev !! "pe_ratio" = None.
Proof.
  intros field. unfold DefillamaSpider.parse. fold field.
  split_and!.
  - by rewrite !lookup_insert_ne, lookup_insert_eq by done.
  - by rewrite lookup_insert_ne, lookup_insert_eq by done.
  - by rewrite lookup_insert_eq.
  - by rewrite !lookup_insert_ne by done.
Qed.

Lemma not_found_field (found : option string) :
  found = None \/ found = Some "" ->
  match found with
  | Some s => if truthy (VStr s) then VStr (Str.strip s) else VStr "Not found"
  | None => VStr "Not found"
  end = VStr "Not found".
Proof. by intros [-> | ->]. Qed.

(** X5: the pipeline never fails on what the spider yields. For every
    protocol and every outcome of the two page queries, [process_item]
    returns and stores exactly one record, with a fresh id, the clock
    reading and the protocol as ticker; a field the page did not have
    becomes "Not found" in the item and null in the record, and the ratio
    is then null too. *)
Theorem spider_item_stored protocol mc rev now db :
  exists item' r,
    process_item (DefillamaSpider.parse protocol mc rev) now db
    = Returned item' (append_row db r)
    /\ row_id r = next_rowid db /\ row_timestamp r = now
    /\ row_ticker r = protocol /\ row_price r = None
    /\ (mc = None \/ mc = Some "" ->
        item' !! "market_cap" = Some (VStr "Not found")
        /\ row_market_cap r = None /\ row_pe_ratio r = None)
    /\ (rev = None \/ rev = Some "" ->
        item' !! "annual_revenue" = Some (VStr "Not found")
        /\ row_annualized_revenue r = None /\ row_pe_ratio r = None).
Proof.
  destruct (parse_lookup protocol mc rev) as (Hp & Hm & Hr & _).
  set (item := DefillamaSpider.parse protocol mc rev) in *.
  assert (item_get_default item "protocol" (VStr "") = VStr protocol) as Hticker
    by (unfold item_get_default; by rewrite Hp).
  eexists _, _. split.
  { rewrite process_item_raw, (stored_with_ticker _ _ _ protocol);
      [done|by rewrite Hticker|..];
      unfold item_get; rewrite ?Hm, ?Hr; cbn [default]; by repeat case_match. }
  cbn [metric_row row_id row_timestamp row_ticker row_price row_market_cap
         row_annualized_revenue row_pe_ratio bind_real].
  split_and!; try done.
  - intros Hmc. rewrite processed_market_cap, Hm, (not_found_field mc Hmc).
    unfold item_get_default, item_get. rewrite Hm, (not_found_field mc Hmc).
    split_and!; first [done|by rewrite (quotient_none_l (VStr "Not found"))].
  - intros Hrev. rewrite processed_annual_revenue, Hr, (not_found_field rev Hrev).
    unfold item_get_default, item_get. rewrite Hr, (not_found_field rev Hrev).
    split_and!; first [done|by rewrite (quotient_none_r _ (VStr "Not found"))].
Qed.

Lemma guard_raw_str a b :
  guard a b = true -> raw_field a = true -> exists s, a = VStr s.
Proof. destruct a; try done. by eexists. Qed.

(** X6: [process_item] raises exactly when both fields are truthy, neither
    is "Not found", and one of them is not a [str] (a number): the
    [strip] of the ratio computation then raises [AttributeError]. By
    then the cleaning loop has run on the caller's item; no [pe_ratio] is
    set and nothing is stored. *)
Theorem process_item_raises item now db e item' db' :
  process_item item now db = Raised e item' db' <->
  e = AttributeError
  /\ guard (item_get item "market_cap") (item_get item "annual_revenue") = true
  /\ raw_field (item_get item "market_cap")
     && raw_field (item_get item "annual_revenue") = false
  /\ (forall k, item' !! k = if decide (k = "market_cap" \/ k = "annual_revenue")
                            then cleaned <$> item !! k else item !! k)
  /\ db' = db.
Proof.
  set (a := item_get item "market_cap"). set (b := item_get item "annual_revenue").
  rewrite process_item_raised. fold a b.
  assert (item' = foldl clean_field item ["market_cap"; "annual_revenue"]
          <-> forall k, item' !! k = if decide (k = "market_cap" \/ k = "annual_revenue")
                                     then cleaned <$> item !! k else item !! k) as Hitem.
  { split.
    - intros -> k. apply cleaning_lookup.
    - intros Hk. apply map_eq. intros k. by rewrite Hk, cleaning_lookup. }
  rewrite Hitem.
  assert (pe_ratio_text a b = Raises e
          <-> e = AttributeError /\ guard a b = true
              /\ raw_field a && raw_field b = false) as ->; [|tauto].
  destruct (raw_field a && raw_field b) eqn:Hraw.
  { apply andb_true_iff in Hraw as [Ha Hb]. rewrite pe_ratio_text_raw by done.
    split; [done|by intros (_ & _ & ?)]. }
  rewrite pe_ratio_text_guard. destruct (guard a b) eqn:Hg;
    [|split; [done|by intros (_ & ? & _)]].
  assert ((a0 ← str_method a;
           market_cap_num ← _convert_to_number (VStr (Str.strip a0));
           b0 ← str_method b;
           annual_revenue_num ← _convert_to_number (VStr (Str.strip b0));
           match market_cap_num, annual_revenue_num with
           | Some m, Some r =>
               if Float.truthy m && Float.truthy r && Float.ltb Float.zero r then
                 pe_ratio ← truediv m r;
                 mret (FloatFormat.format_2f pe_ratio)
               else mret "Not calculable"
           | _, _ => mret "Not calculable"
           end) = Raises AttributeError) as ->.
  { destruct a as [|s|?|?]; try done.
    cbn [str_method mbind outcome_bind obind]. rewrite number_of_returns.
    cbn [obind]. by destruct b. }
  split; [by intros [= <-]|by intros (-> & _)].
Qed.

(** X7: what [store_in_database] makes of missing keys. In the record it
    appends, a missing [protocol] gives the empty ticker, and a missing
    [market_cap], [annual_revenue] or [pe_ratio] gives 0.0 (the default
    "0" is parsed), whereas a key that holds [None] gives null. *)
Theorem store_in_database_missing_keys item now db r :
  (store_in_database item now db).2 = append_row db r ->
  (item !! "protocol" = None -> row_ticker r = "")
  /\ (item !! "market_cap" = None -> row_market_cap r = Some Float.zero)
  /\ (item !! "annual_revenue" = None -> row_annualized_revenue r = Some Float.zero)
  /\ (item !! "pe_ratio" = None -> row_pe_ratio r = Some Float.zero)
  /\ (item !! "market_cap" = Some VNone -> row_market_cap r = None)
  /\ (item !! "annual_revenue" = Some VNone -> row_annualized_revenue r = None).
Proof.
  rewrite store_in_database_unfold. cbn [snd]. intros H0.
  destruct (ratio_bound item) as [pe|] eqn:Hpe;
    [|by destruct (append_row_changes db r)].
  destruct (ticker_bound item) as [t|] eqn:Ht;
    [|by destruct (append_row_changes db r)].
  apply append_row_inj in H0. subst r.
  cbn [metric_row row_ticker row_market_cap row_annualized_revenue row_pe_ratio].
  unfold ticker_bound, item_get_default in *. split_and!; intros Hk; rewrite ?Hk in *;
    try done.
  - cbn in Ht. by injection Ht as <-.
  - unfold ratio_bound, item_get, item_get_default in Hpe. rewrite Hk in Hpe.
    by injection Hpe as <-.
Qed.

(** X8: [store_in_database] swallows its failures. The table is left as
    it was exactly when [float] rejects the item's ratio or the ticker is
    one the insert refuses ([None] or a NaN, which the [NOT NULL]
    constraint rejects, or an [int] outside 64 bits, which [sqlite3] does
    not bind); in every other case exactly one record is appended and the
    earlier records are untouched. *)
Theorem store_in_database_skips item now db :
  ((store_in_database item now db).2 = db <->
   (exists e, ratio_bound item = Raises e)
   \/ refused (item_get_default item "protocol" (VStr "")))
  /\ ((store_in_database item now db).2 <> db ->
      exists r, (store_in_database item now db).2 = append_row db r
                /\ row_id r = next_rowid db /\ row_timestamp r = now
                /\ bind_text (item_get_default item "protocol" (VStr ""))
                   = Returns (Some (row_ticker r))).
Proof.
  rewrite store_in_database_unfold. cbn [snd].
  pose proof (ticker_refused (item_get_default item "protocol" (VStr ""))) as Href.
  destruct (ratio_bound item) as [pe|e].
  - destruct (ticker_bound item) as [t|e] eqn:Ht.
    + apply ticker_bound_returns in Ht. split.
      * split; [by intros ?%append_row_changes|].
        intros [[? ?]|Hr]; [done|]. by destruct (proj2 Href Hr t).
      * intros _. by exists (metric_row item now db t pe).
    + split; [|done]. split; [|done]. intros _. right. apply (proj1 Href).
      intros t Hb%ticker_bound_returns. congruence.
  - split; [|done]. split; [intros _; left; by eexists|done].
Qed.

End pipeline_extras.

Section pipeline_extras_examples.

Import DefillamaPipeline.

#[local] Existing Instance example_real_text.

Lemma clean_tidy_witness :
  processed item_hyperliquid !! "market_cap" = Some (VStr (clean "$1.5B")).
Proof.
  apply (proj2 (proj2 clean_tidy) item_hyperliquid 10 empty_db
           (processed item_hyperliquid) (stored item_hyperliquid 10 empty_db)
           "market_cap" "$1.5B").
  - left. apply process_item_raw; reflexivity.
  - left. reflexivity.
  - vm_compute. reflexivity.
  - discriminate.
Defined.

Lemma store_in_database_missing_keys_witness :
  ((∅ : Item) !! "protocol" = None ->
   row_ticker (metric_row ∅ 10 empty_db "" (Some Float.zero)) = "")
  /\ ((∅ : Item) !! "market_cap" = None ->
      row_market_cap (metric_row ∅ 10 empty_db "" (Some Float.zero)) = Some Float.zero)
  /\ ((∅ : Item) !! "annual_revenue" = None ->
      row_annualized_revenue (metric_row ∅ 10 empty_db "" (Some Float.zero))
      = Some Float.zero)
  /\ ((∅ : Item) !! "pe_ratio" = None ->
      row_pe_ratio (metric_row ∅ 10 empty_db "" (Some Float.zero)) = Some Float.zero)
  /\ ((∅ : Item) !! "market_cap" = Some VNone ->
      row_market_cap (metric_row ∅ 10 empty_db "" (Some Float.zero)) = None)
  /\ ((∅ : Item) !! "annual_revenue" = Some VNone ->
      row_annualized_revenue (metric_row ∅ 10 empty_db "" (Some Float.zero)) = None).
Proof.
  apply (store_in_database_missing_keys ∅ 10 empty_db
           (metric_row ∅ 10 empty_db "" (Some Float.zero))).
  vm_compute. reflexivity.
Defined.

(** A ticker that is a NaN: [process_item] returns, nothing is stored. *)
Example nan_ticker_not_stored :
  process_item (<["protocol" := VFloat S754_nan]> item_alpha) 10 empty_db
  = Returned (processed (<["protocol" := VFloat S754_nan]> item_alpha)) empty_db.
Proof. vm_compute. reflexivity. Qed.

End pipeline_extras_examples.
(** ** The table the pipeline builds *)

Section table_extras.

Import DefillamaPipeline.

Context {rt : RealText}.

Lemma max_rowid_le rs n :
  0 <= n -> (forall r, r ∈ rs -> row_id r <= n) -> max_rowid rs <= n.
Proof.
  intros Hn. induction rs as [|r rs IH]; intros H0; cbn [max_rowid foldr]; [done|].
  fold (max_rowid rs). apply Z.max_lub.
  - apply H0. by left.
  - apply IH. intros r' Hr'. apply H0. by right.
Qed.

Lemma bind_real_idem v : bind_real (bind_real v) = bind_real v.
Proof.
  destruct v as [x|]; [|done]. cbn [bind_real].
  destruct (Float.is_nan x) eqn:Hx; [done|]. by destruct x.
Qed.

Lemma pipeline_table_next db : pipeline_table db -> next_rowid db = Z.of_nat (length (rows db)) + 1.
Proof.
  intros (Hid & Hseq & _). unfold next_rowid. rewrite Hseq.
  rewrite Z.max_l; [done|]. apply max_rowid_le; [lia|].
  intros r (i & Hi)%list_elem_of_lookup_1. rewrite (Hid i r Hi).
  apply lookup_lt_Some in Hi. lia.
Qed.

Lemma pipeline_table_store item now db :
  pipeline_table db -> pipeline_table (store_in_database item now db).2.
Proof.
  intros Hdb. rewrite store_in_database_unfold. cbn [snd].
  destruct (ratio_bound item) as [pe|]; [|done].
  destruct (ticker_bound item) as [t|]; [|done].
  pose proof (pipeline_table_next db Hdb) as Hnext.
  destruct Hdb as (Hid & Hseq & Hrows). split_and!; cbn [append_row rows seq].
  - intros i r Hi. apply lookup_app_Some in Hi as [Hi|[Hlen Hi]]; [by apply Hid|].
    apply list_lookup_singleton_Some in Hi as [Hi <-].
    cbn [metric_row row_id]. rewrite Hnext. lia.
  - cbn [metric_row row_id]. rewrite Hnext, length_app. cbn. lia.
  - apply Forall_app. split; [done|]. apply Forall_singleton.
    unfold pipeline_row.
    cbn [metric_row row_price row_market_cap row_annualized_revenue row_pe_ratio].
    by rewrite !bind_real_idem.
Qed.

Lemma pipeline_table_appends batch : forall db,
  pipeline_table db -> pipeline_table (appends batch db).
Proof.
  induction batch as [|[item now] rest IH]; intros db Hdb; [done|].
  cbn [appends]. by apply IH, pipeline_table_store.
Qed.

Lemma pipeline_table_empty : pipeline_table empty_db.
Proof. split_and!; [by intros i r ?|done|constructor]. Qed.

(** X9: the table invariant of the pipeline. A table opened on a fresh
    file, and any table with the invariant reopened and fed any batch of
    items at any clock readings, has the ids 1, 2, ... in insertion order,
    the sequence at the number of records, no price, and numbers as
    SQLite keeps them: no NaN and no negative zero. *)
Theorem pipeline_table_kept :
  pipeline_table (setup_database None)
  /\ forall db batch,
       pipeline_table db -> pipeline_table (appends batch (setup_database (Some db))).
Proof.
  split; [apply pipeline_table_empty|].
  intros db batch Hdb. by apply pipeline_table_appends.
Qed.

(** ** The queries *)

Lemma newest_first_head (F : list row) :
  match order_by_timestamp_desc F with
  | [] => F = []
  | h :: _ => h ∈ F /\ forall r, r ∈ F -> row_timestamp r <= row_timestamp h
  end.
Proof.
  pose proof (order_by_timestamp_desc_perm F) as Hperm.
  pose proof (order_by_timestamp_desc_sorted F) as Hsorted.
  destruct (order_by_timestamp_desc F) as [|h S'].
  - by apply Permutation_nil_l in Hperm.
  - apply StronglySorted_cons in Hsorted as [Hh _]. rewrite Forall_forall in Hh.
    split; [rewrite <- Hperm; by left|].
    intros r Hr. rewrite <- Hperm in Hr.
    apply elem_of_cons in Hr as [->|Hr]; [done|]. by apply Hh.
Qed.

Lemma get_latest_data_bound t db k :
  truthy t = true -> bind_text t = Returns (Some k) ->
  get_latest_data t (Some db)
  = Some (DfRows (take 1 (order_by_timestamp_desc
                            (filter (fun r => row_ticker r = k) (rows db))))).
Proof.
  intros Ht Hk. unfold get_latest_data. rewrite Ht, Hk.
  cbn [mbind outcome_bind obind mret outcome_ret or_none].
  rewrite (filter_equiv _ (fun r => row_ticker r = k)); [done|].
  apply Forall_forall. intros r _. split; congruence.
Qed.

Lemma get_latest_data_spec t db k :
  truthy t = true -> bind_text t = Returns (Some k) ->
  (k ∉ row_ticker <$> rows db -> get_latest_data t (Some db) = Some (DfRows []))
  /\ (k ∈ row_ticker <$> rows db ->
      exists r, get_latest_data t (Some db) = Some (DfRows [r])
                /\ newest_of k (rows db) r).
Proof.
  intros Ht Hk. rewrite (get_latest_data_bound t db k) by done.
  pose proof (newest_first_head (filter (fun r => row_ticker r = k) (rows db))) as Hhead.
  destruct (order_by_timestamp_desc _) as [|h S'].
  - split; [done|]. intros (r & -> & Hr)%list_elem_of_fmap_1.
    assert (r ∈ filter (fun r0 => row_ticker r0 = row_ticker r) (rows db)) as Hin
      by by apply list_elem_of_filter.
    rewrite Hhead in Hin. by apply elem_of_nil in Hin.
  - destruct Hhead as [[Hht Hh]%list_elem_of_filter Hmax]. split.
    + intros Hno. destruct Hno. rewrite <- Hht. by apply list_elem_of_fmap_2.
    + intros _. exists h. split; [by destruct S'|].
      split_and!; try done. intros r' Hr' Ht'. apply Hmax. by apply list_elem_of_filter.
Qed.

(** X10: [get_latest_data(ticker)] for a ticker. Without the table, and
    for an [int] that [sqlite3] cannot bind, the query raises and the
    result is [None]. Otherwise the ticker is compared as text: the frame
    is empty when no record has that text (for a NaN, which is bound as
    [NULL], always), and else holds exactly one record, one of that
    ticker whose timestamp no other record of the ticker exceeds. *)
Theorem get_latest_data_newest t :
  truthy t = true ->
  get_latest_data t None = None
  /\ forall db,
       (forall e, bind_text t = Raises e -> get_latest_data t (Some db) = None)
       /\ (bind_text t = Returns None -> get_latest_data t (Some db) = Some (DfRows []))
       /\ forall k, bind_text t = Returns (Some k) ->
            (k ∉ row_ticker <$> rows db -> get_latest_data t (Some db) = Some (DfRows []))
            /\ (k ∈ row_ticker <$> rows db ->
                exists r, get_latest_data t (Some db) = Some (DfRows [r])
                          /\ newest_of k (rows db) r).
Proof.
  intros Ht. split; [done|]. intros db. split_and!.
  - intros e He. unfold get_latest_data. by rewrite Ht, He.
  - intros Hn. unfold get_latest_data. rewrite Ht, Hn.
    cbn [mbind outcome_bind obind mret outcome_ret or_none].
    rewrite filter_none; [done|]. by apply Forall_forall.
  - intros k Hk. by apply get_latest_data_spec.
Qed.

Lemma omap_group_max_fst col rs (ts : list string) :
  (forall t, t ∈ ts -> t ∈ row_ticker <$> rs) ->
  (omap (fun t => (fun m => (t, m)) <$> group_max col t rs) ts).*1 = ts.
Proof.
  induction ts as [|t ts IH]; intros H0; [done|]. cbn [omap list_omap].
  destruct (group_max col t rs) as [m|] eqn:Hm.
  - cbn. f_equal. apply IH. intros t' Ht'. apply H0. by right.
  - assert (t ∈ row_ticker <$> rs) as (r & -> & Hr)%list_elem_of_fmap_1
      by (apply H0; by left).
    by destruct (proj1 (group_max_none _ _ _) Hm r Hr).
Qed.

(** X11: [get_latest_data()] without a ticker ([None], or an empty one):
    one pair for every distinct ticker of the table and no other, each
    with the latest timestamp among the ticker's records; [None] when
    there is no table. *)
Theorem get_latest_data_all t :
  truthy t = false ->
  get_latest_data t None = None
  /\ forall db,
       exists l,
         get_latest_data t (Some db) = Some (DfTickers l)
         /\ NoDup l.*1
         /\ (forall t', t' ∈ l.*1 <-> t' ∈ row_ticker <$> rows db)
         /\ forall t' m, (t', m) ∈ l ->
              exists r, newest_of t' (rows db) r /\ row_timestamp r = m.
Proof.
  intros Ht. split; [done|]. intros db.
  unfold get_latest_data. rewrite Ht. eexists. split; [done|].
  assert ((omap (fun t0 => (fun m => (t0, m)) <$> group_max row_timestamp t0 (rows db))
             (tickers (rows db))).*1 = tickers (rows db)) as Hfst.
  { apply omap_group_max_fst. intros t0. by rewrite elem_of_tickers. }
  split_and!.
  - rewrite Hfst. apply NoDup_tickers.
  - intros t'. by rewrite Hfst, elem_of_tickers.
  - intros t' m (t0 & _ & H0)%list_elem_of_omap.
    destruct (group_max row_timestamp t0 (rows db)) as [m0|] eqn:Hm; [|done].
    injection H0 as -> ->.
    destruct (group_max_some _ _ _ _ Hm) as [(r & Hr & Hrt & Hrm) Hle].
    exists r. split; [|done]. split_and!; try done.
    intros r' Hr' Ht'. rewrite Hrm. by apply Hle.
Qed.

(** X12: the two notions of "latest" agree when time does not run
    backwards. With unique ids and timestamps that grow with the id, for
    every ticker of the table the record [get_latest_data] returns is the
    one with the largest id, the one whose entry [query_database] lists. *)
Theorem latest_queries_agree db t k :
  NoDup (row_id <$> rows db) ->
  (forall r1 r2, r1 ∈ rows db -> r2 ∈ rows db ->
                 row_id r1 < row_id r2 -> row_timestamp r1 < row_timestamp r2) ->
  truthy t = true -> bind_text t = Returns (Some k) -> k ∈ row_ticker <$> rows db ->
  exists r,
    latest_of k (rows db) r
    /\ get_latest_data t (Some db) = Some (DfRows [r])
    /\ filter (fun e => entry_ticker e = k) (listed (query_database (Some db)).2)
       = [print_entry (latest_entries db) r].
Proof.
  intros Hnd Hclock Ht Hk Hin.
  destruct (latest_exists k (rows db) Hin) as [r Hr].
  destruct (proj2 (get_latest_data_spec t db k Ht Hk) Hin) as (h & Hget & Hh).
  exists r. split_and!; [done| |by apply latest_entry].
  rewrite Hget. do 3 f_equal.
  destruct Hr as (Hrin & Hrt & Hrmax), Hh as (Hhin & Hht & Hhmax).
  apply (unique_id (rows db)); try done.
  specialize (Hrmax h Hhin Hht). specialize (Hhmax r Hrin Hrt).
  destruct (Z.eq_dec (row_id h) (row_id r)) as [|Hne]; [done|].
  specialize (Hclock h r Hhin Hrin). lia.
Qed.

End table_extras.

Section table_extras_examples.

Import DefillamaPipeline.

#[local] Existing Instance example_real_text.

Lemma pipeline_table_kept_witness :
  pipeline_table
    (appends [(processed item_alpha, 10); (∅, 20)] (setup_database (Some empty_db))).
Proof.
  apply (proj2 pipeline_table_kept empty_db).
  split_and!; [by intros i r ?|reflexivity|constructor].
Defined.

Lemma get_latest_data_newest_witness :
  exists r,
    get_latest_data (VStr "alpha") (Some db_clock_back) = Some (DfRows [r])
    /\ newest_of "alpha" (rows db_clock_back) r.
Proof.
  apply (get_latest_data_newest (VStr "alpha")).
  - reflexivity.
  - reflexivity.
  - apply (bool_decide_unpack _). vm_compute. exact I.
Defined.

(** A ticker given as the [int] 5 finds the records stored under "5", and
    one beyond 64 bits gives [None]. *)
Example get_latest_data_int :
  get_latest_data (VInt 5)
    (Some (appends [(<["protocol" := VStr "5"]> (processed item_alpha), 10)] empty_db))
  = get_latest_data (VStr "5")
      (Some (appends [(<["protocol" := VInt 5]> (processed item_alpha), 10)] empty_db))
  /\ (exists r, get_latest_data (VInt 5)
                  (Some (appends [(<["protocol" := VStr "5"]> (processed item_alpha), 10)]
                           empty_db)) = Some (DfRows [r]) /\ row_ticker r = "5")
  /\ get_latest_data (VInt (2 ^ 64)) (Some db_three) = None.
Proof. split_and!; [vm_compute; reflexivity| |vm_compute; reflexivity]. eexists. vm_compute. done. Qed.

Lemma get_latest_data_all_witness :
  exists l,
    get_latest_data VNone (Some db_three) = Some (DfTickers l)
    /\ NoDup l.*1
    /\ (forall t', t' ∈ l.*1 <-> t' ∈ row_ticker <$> rows db_three)
    /\ forall t' m, (t', m) ∈ l ->
         exists r, newest_of t' (rows db_three) r /\ row_timestamp r = m.
Proof. apply (get_latest_data_all VNone). reflexivity. Defined.

(** The tickers come in the order of their text, each with its latest
    timestamp. *)
Example latest_timestamps :
  get_latest_data VNone (Some db_three)
  = Some (DfTickers [("alpha", 30); ("hyperliquid", 20)]).
Proof. vm_compute. reflexivity. Qed.

Lemma latest_queries_agree_witness :
  exists r,
    latest_of "alpha" (rows db_three) r
    /\ get_latest_data (VStr "alpha") (Some db_three) = Some (DfRows [r])
    /\ filter (fun e => entry_ticker e = "alpha")
         (listed (query_database (Some db_three)).2)
       = [print_entry (latest_entries db_three) r].
Proof.
  apply (latest_queries_agree db_three (VStr "alpha") "alpha").
  - apply (bool_decide_unpack _). vm_compute. exact I.
  - assert (Forall (fun r1 => Forall (fun r2 => row_id r1 < row_id r2 ->
                                               row_timestamp r1 < row_timestamp r2)
                                (rows db_three)) (rows db_three)) as H0
      by (apply (bool_decide_unpack _); vm_compute; exact I).
    intros r1 r2 H1 H2. rewrite Forall_forall in H0. specialize (H0 r1 H1).
    rewrite Forall_forall in H0. by apply H0.
  - reflexivity.
  - reflexivity.
  - apply (bool_decide_unpack _). vm_compute. exact I.
Defined.

End table_extras_examples.
(** ** The history readers *)

Section frame_extras.

Lemma min_timestamp_perm l l' : l ≡ₚ l' -> min_timestamp l = min_timestamp l'.
Proof.
  induction 1 as [|x l l' _ IH|x y l|l l' l'' _ IH1 _ IH2]; cbn [min_timestamp foldr].
  - done.
  - fold (min_timestamp l) (min_timestamp l'). by rewrite IH.
  - fold (min_timestamp l). destruct (min_timestamp l); f_equal; lia.
  - congruence.
Qed.

Lemma max_timestamp_perm l l' : l ≡ₚ l' -> max_timestamp l = max_timestamp l'.
Proof.
  induction 1 as [|x l l' _ IH|x y l|l l' l'' _ IH1 _ IH2]; cbn [max_timestamp foldr].
  - done.
  - fold (max_timestamp l) (max_timestamp l'). by rewrite IH.
  - fold (max_timestamp l). destruct (max_timestamp l); f_equal; lia.
  - congruence.
Qed.

Lemma timestamp_range l r :
  r ∈ l ->
  exists lo hi, min_timestamp l = Some lo /\ max_timestamp l = Some hi
                /\ lo <= row_timestamp r <= hi.
Proof.
  induction l as [|x l IH]; [by intros ?%elem_of_nil|].
  cbn [min_timestamp max_timestamp foldr]. fold (min_timestamp l) (max_timestamp l).
  intros [->|Hr]%elem_of_cons.
  - destruct (min_timestamp l), (max_timestamp l); eexists _, _; split_and!; try done; lia.
  - destruct (IH Hr) as (lo & hi & -> & -> & ?). eexists _, _. split_and!; try done; lia.
Qed.

Lemma unique_elem l : forall seen x, x ∈ unique seen l <-> x ∈ l /\ x ∉ seen.
Proof.
  induction l as [|y l IH]; intros seen x; cbn [unique].
  - split; [by intros ?%elem_of_nil|by intros [?%elem_of_nil _]].
  - destruct (decide (y ∈ seen)) as [Hy|Hy].
    + rewrite IH. split.
      * intros [? ?]. split; [by right|done].
      * intros [[->|?]%elem_of_cons ?]; done.
    + rewrite elem_of_cons, IH. split.
      * intros [->|[Hl Hx]]; [split; [by left|done]|].
        split; [by right|]. intros ?. apply Hx. by right.
      * intros [[->|Hl]%elem_of_cons Hx]; [by left|].
        destruct (decide (x = y)) as [->|Hne]; [by left|].
        right. split; [done|]. by intros [?|?]%elem_of_cons.
Qed.

Lemma unique_NoDup l : forall seen, NoDup (unique seen l).
Proof.
  induction l as [|y l IH]; intros seen; cbn [unique]; [constructor|].
  destruct (decide (y ∈ seen)); [done|]. constructor; [|done].
  rewrite unique_elem. intros [_ H]. apply H. by left.
Qed.

Lemma unique_perm df rs :
  df ≡ₚ rs -> unique [] (row_ticker <$> df) ≡ₚ unique [] (row_ticker <$> rs).
Proof.
  intros Hperm. apply NoDup_Permutation; [apply unique_NoDup..|].
  intros t. by rewrite !unique_elem, Hperm.
Qed.

Lemma to_datetime_id column column' : to_datetime column = Returns column' -> column' = column.
Proof.
  destruct column as [|t column]; cbn [to_datetime]; [by intros [= <-]|].
  destruct (forallb _ _); [by intros [= <-]|done].
Qed.

Lemma to_datetime_raises column e : to_datetime column = Raises e -> e = ValueError.
Proof.
  destruct column as [|t column]; cbn [to_datetime]; [done|].
  destruct (forallb _ _); [done|by intros [= <-]].
Qed.

Lemma to_datetime_convertible (df : list row) :
  to_datetime (row_timestamp <$> df) = Returns (row_timestamp <$> df) <-> convertible df.
Proof.
  unfold convertible, one_format.
  destruct df as [|r0 df].
  { split; [|done]. intros _. split; [by intros r r' ?%elem_of_nil|by intros r ?%elem_of_nil]. }
  rewrite fmap_cons. cbn [to_datetime]. rewrite <- fmap_cons.
  destruct (forallb _ _) eqn:Hall.
  - split; [intros _|done]. rewrite forallb_forall in Hall.
    assert (forall r, r ∈ r0 :: df ->
                      whole_second (row_timestamp r) = whole_second (row_timestamp r0)
                      /\ nanoseconds_fit (row_timestamp r) = true) as Hr0.
    { intros r Hr.
      assert (In (row_timestamp r) (row_timestamp <$> r0 :: df)) as Hin
        by (apply list_elem_of_In; by apply list_elem_of_fmap_2).
      apply Hall, andb_true_iff in Hin as [Hws Hfit]. by apply Bool.eqb_prop in Hws. }
    split.
    + intros r r' Hr Hr'. by rewrite (proj1 (Hr0 r Hr)), (proj1 (Hr0 r' Hr')).
    + intros r Hr. apply (Hr0 r Hr).
  - split; [done|]. intros [Hsame Hfit]. exfalso.
    assert (forallb (fun t => Bool.eqb (whole_second t) (whole_second (row_timestamp r0))
                              && nanoseconds_fit t)
              (row_timestamp <$> r0 :: df) = true) as Hall'; [|congruence].
    apply forallb_forall. intros t (r & -> & Hr)%list_elem_of_In%list_elem_of_fmap_1.
    rewrite (Hsame r r0 Hr) by (by left). by rewrite Bool.eqb_reflx, (Hfit r Hr).
Qed.

Lemma one_format_perm df df' : df ≡ₚ df' -> one_format df <-> one_format df'.
Proof.
  intros Hperm. unfold one_format. split; intros H0 r r' Hr Hr'; apply H0.
  - by rewrite Hperm.
  - by rewrite Hperm.
  - by rewrite <- Hperm.
  - by rewrite <- Hperm.
Qed.

Lemma convertible_perm df df' : df ≡ₚ df' -> convertible df <-> convertible df'.
Proof.
  intros Hperm. unfold convertible. rewrite (one_format_perm _ _ Hperm).
  split; intros [? Hfit]; (split; [done|]); intros r Hr; apply Hfit.
  - by rewrite Hperm.
  - by rewrite <- Hperm.
Qed.

(** The conversion of the frame of a table goes through exactly when the
    timestamps are convertible, and fails with [ValueError]. *)
Lemma history_converts db :
  let df := order_by_timestamp_desc (rows db) in
  (convertible (rows db) ->
   to_datetime (row_timestamp <$> df) = Returns (row_timestamp <$> df))
  /\ (~ convertible (rows db) -> to_datetime (row_timestamp <$> df) = Raises ValueError).
Proof.
  intros df.
  pose proof (convertible_perm df (rows db) (order_by_timestamp_desc_perm _)) as Hperm.
  pose proof (to_datetime_convertible df) as Hconv. split.
  - intros Hone. apply Hconv, Hperm, Hone.
  - intros Hnot. destruct (to_datetime (row_timestamp <$> df)) as [c|e] eqn:Hdt.
    + destruct Hnot. apply Hperm, Hconv. by rewrite (to_datetime_id _ _ Hdt).
    + by rewrite (to_datetime_raises _ _ Hdt).
Qed.

Lemma extract_all_data_some db df :
  ExtractHistoricalData.extract_all_data (Some db) = Some df <->
  convertible (rows db) /\ df = order_by_timestamp_desc (rows db).
Proof.
  unfold ExtractHistoricalData.extract_all_data, select_history.
  cbn [mbind outcome_bind obind].
  destruct (history_converts db) as [Hyes Hno].
  destruct (to_datetime _) as [c|e] eqn:Hdt;
    cbn [mbind outcome_bind obind or_none mret outcome_ret].
  - split.
    + intros [= <-]. split; [|done].
      apply (convertible_perm _ _ (order_by_timestamp_desc_perm _)), to_datetime_convertible.
      by pose proof (to_datetime_id _ _ Hdt) as ->.
    + by intros [_ ->].
  - split; [done|]. intros [Hone _]. by specialize (Hyes Hone).
Qed.

(** X13: reading the history. The three readers give nothing without
    the table ([df_database], which has no [try], raises). With the table
    they go through when the timestamps have one format, all on a whole
    second or none, and fit the nanoseconds of [pandas]: then
    [load_historical_data] and [extract_all_data] give every record of
    the table exactly once, newest first, and [df_database] shows the
    first five, which are at least as new as all it leaves out. When the
    table holds a timestamp on a whole second and one off it, the
    conversion of the timestamps raises: the two functions return [None]
    and the script ends on the [ValueError]. *)
Theorem load_historical_data_all :
  LoadDataframe.load_historical_data None = None
  /\ ExtractHistoricalData.extract_all_data None = None
  /\ df_database None = Raises DatabaseError
  /\ forall db,
       (convertible (rows db) ->
        exists df,
          LoadDataframe.load_historical_data (Some db) = Some df
          /\ ExtractHistoricalData.extract_all_data (Some db) = Some df
          /\ df_database (Some db) = Returns (take 5 df)
          /\ df ≡ₚ rows db
          /\ StronglySorted newer_first df
          /\ forall r r', r ∈ take 5 df -> r' ∈ drop 5 df ->
                          row_timestamp r' <= row_timestamp r)
       /\ (~ one_format (rows db) ->
           LoadDataframe.load_historical_data (Some db) = None
           /\ ExtractHistoricalData.extract_all_data (Some db) = None
           /\ df_database (Some db) = Raises ValueError).
Proof.
  split_and!; [done..|]. intros db. destruct (history_converts db) as [Hyes Hno].
  unfold LoadDataframe.load_historical_data, ExtractHistoricalData.extract_all_data,
    df_database, select_history. cbn [mbind outcome_bind obind].
  split.
  - intros Hone. rewrite (Hyes Hone). cbn [obind or_none mret outcome_ret].
    exists (order_by_timestamp_desc (rows db)).
    pose proof (order_by_timestamp_desc_sorted (rows db)) as Hsorted.
    split_and!; try done.
    + apply order_by_timestamp_desc_perm.
    + intros r r' Hr Hr'. rewrite <- (take_drop 5) in Hsorted.
      apply (StronglySorted_app_1_elem_of _ _ _ _ _ Hsorted Hr Hr').
  - intros Hnot. rewrite Hno; [done|]. by intros [? _].
Qed.

(** X14: the two summaries of a table agree. When the history loads,
    what [get_database_info] reads with SQL and what [get_data_summary]
    computes on the loaded frame have the same record count, the same
    distinct tickers, the same first and last timestamp and the same
    columns; every timestamp of the table lies between that first and
    last one. *)
Theorem info_matches_summary db df :
  ExtractHistoricalData.extract_all_data (Some db) = Some df ->
  exists info,
    ExtractHistoricalData.get_database_info (Some db) = Some info
    /\ ExtractHistoricalData.total_records info
       = LoadDataframe.total_records (LoadDataframe.get_data_summary df)
    /\ LoadDataframe.summary_tickers (LoadDataframe.get_data_summary df)
       ≡ₚ ExtractHistoricalData.info_tickers info
    /\ LoadDataframe.date_range (LoadDataframe.get_data_summary df)
       = (ExtractHistoricalData.earliest_date info, ExtractHistoricalData.latest_date info)
    /\ LoadDataframe.summary_columns (LoadDataframe.get_data_summary df)
       = ExtractHistoricalData.info_columns info
    /\ forall r, r ∈ rows db ->
         exists lo hi,
           ExtractHistoricalData.earliest_date info = Some lo
           /\ ExtractHistoricalData.latest_date info = Some hi
           /\ lo <= row_timestamp r <= hi.
Proof.
  intros [_ ->]%extract_all_data_some. eexists. split; [reflexivity|].
  pose proof (order_by_timestamp_desc_perm (rows db)) as Hperm.
  cbn [LoadDataframe.get_data_summary
         ExtractHistoricalData.total_records LoadDataframe.total_records
         ExtractHistoricalData.info_tickers LoadDataframe.summary_tickers
         ExtractHistoricalData.earliest_date ExtractHistoricalData.latest_date
         LoadDataframe.date_range LoadDataframe.summary_columns
         ExtractHistoricalData.info_columns].
  split_and!.
  - by rewrite Hperm.
  - by apply unique_perm.
  - by rewrite (min_timestamp_perm _ _ Hperm), (max_timestamp_perm _ _ Hperm).
  - done.
  - apply timestamp_range.
Qed.

Lemma isnull_read_real column v :
  bind_real v = v -> isnull (read_real column v) = true <-> v = None.
Proof.
  destruct v as [x|]; cbn [bind_real read_real].
  - destruct (Float.is_nan x) eqn:Hx; [done|]. intros _. cbn [isnull]. by rewrite Hx.
  - intros _. split; [done|]. intros _. by destruct (forallb _ _).
Qed.

Lemma count_null_stored (col : row -> option float) df rs :
  df ≡ₚ rs -> Forall (fun r => bind_real (col r) = col r) rs ->
  LoadDataframe.count_null col df = length (filter (fun r => col r = None) rs).
Proof.
  intros Hperm Hrs. unfold LoadDataframe.count_null.
  rewrite (filter_equiv _ (fun r => col r = None)).
  - by rewrite Hperm.
  - rewrite Hperm. eapply Forall_impl; [exact Hrs|].
    intros r Hr. by apply isnull_read_real.
Qed.

(** X15: the summary of a table the pipeline built, when its history
    loads. No id, timestamp or ticker is missing, the price is missing
    in every record (the pipeline never has one), and the count for each
    numeric column is the number of records where it is null. *)
Theorem summary_of_pipeline_table db df :
  pipeline_table db ->
  ExtractHistoricalData.extract_all_data (Some db) = Some df ->
  LoadDataframe.missing_values (LoadDataframe.get_data_summary df)
  = [("id", 0%nat); ("timestamp", 0%nat); ("ticker", 0%nat);
     ("price", length (rows db));
     ("market_cap", length (filter (fun r => row_market_cap r = None) (rows db)));
     ("annualized_revenue",
      length (filter (fun r => row_annualized_revenue r = None) (rows db)));
     ("pe_ratio", length (filter (fun r => row_pe_ratio r = None) (rows db)))].
Proof.
  intros (_ & _ & Hrows) [_ ->]%extract_all_data_some.
  pose proof (order_by_timestamp_desc_perm (rows db)) as Hperm.
  cbn [LoadDataframe.get_data_summary LoadDataframe.missing_values].
  rewrite (count_null_stored row_price _ _ Hperm),
    (count_null_stored row_market_cap _ _ Hperm),
    (count_null_stored row_annualized_revenue _ _ Hperm),
    (count_null_stored row_pe_ratio _ _ Hperm);
    try (eapply Forall_impl; [exact Hrows|]; by intros r (? & ? & ? & ?)).
  - rewrite (filter_all (fun r => row_price r = None)); [done|].
    eapply Forall_impl; [exact Hrows|]. by intros r (? & _).
  - eapply Forall_impl; [exact Hrows|]. intros r (-> & _). done.
Qed.

End frame_extras.

Section frame_extras_examples.

#[local] Existing Instance example_real_text.

(** A table with one record on a whole second and one off it: the
    history does not load. *)
Example mixed_formats_do_not_load :
  let db := appends [(processed item_alpha, 1000000); (processed item_alpha, 1500000)]
              empty_db in
  LoadDataframe.load_historical_data (Some db) = None
  /\ ExtractHistoricalData.extract_all_data (Some db) = None
  /\ df_database (Some db) = Raises ValueError
  /\ LoadDataframe.load_historical_data
       (Some (appends [(processed item_alpha, 1000000)] empty_db)) <> None.
Proof. cbn zeta. split_and!; vm_compute; done. Qed.

Lemma info_matches_summary_witness :
  exists info,
    ExtractHistoricalData.get_database_info (Some db_three) = Some info
    /\ ExtractHistoricalData.total_records info
       = LoadDataframe.total_records
           (LoadDataframe.get_data_summary (order_by_timestamp_desc (rows db_three)))
    /\ LoadDataframe.summary_tickers
         (LoadDataframe.get_data_summary (order_by_timestamp_desc (rows db_three)))
       ≡ₚ ExtractHistoricalData.info_tickers info
    /\ LoadDataframe.date_range
         (LoadDataframe.get_data_summary (order_by_timestamp_desc (rows db_three)))
       = (ExtractHistoricalData.earliest_date info, ExtractHistoricalData.latest_date info)
    /\ LoadDataframe.summary_columns
         (LoadDataframe.get_data_summary (order_by_timestamp_desc (rows db_three)))
       = ExtractHistoricalData.info_columns info
    /\ forall r, r ∈ rows db_three ->
         exists lo hi,
           ExtractHistoricalData.earliest_date info = Some lo
           /\ ExtractHistoricalData.latest_date info = Some hi
           /\ lo <= row_timestamp r <= hi.
Proof.
  apply (info_matches_summary db_three (order_by_timestamp_desc (rows db_three))).
  vm_compute. reflexivity.
Defined.

Lemma summary_of_pipeline_table_witness :
  LoadDataframe.missing_values
    (LoadDataframe.get_data_summary (order_by_timestamp_desc (rows db_three)))
  = [("id", 0%nat); ("timestamp", 0%nat); ("ticker", 0%nat);
     ("price", length (rows db_three));
     ("market_cap", length (filter (fun r => row_market_cap r = None) (rows db_three)));
     ("annualized_revenue",
      length (filter (fun r => row_annualized_revenue r = None) (rows db_three)));
     ("pe_ratio", length (filter (fun r => row_pe_ratio r = None) (rows db_three)))].
Proof.
  apply (summary_of_pipeline_table db_three (order_by_timestamp_desc (rows db_three))).
  - apply (pipeline_table_appends _ empty_db). apply pipeline_table_empty.
  - vm_compute. reflexivity.
Defined.

End frame_extras_examples.
(** ** More on [process_item] *)

Section process_extras.

Import DefillamaPipeline.

Context {rt : RealText}.

(** X16: a call of [process_item] that returns has stored exactly one
    record, whose ticker is the text SQLite makes of the item's
    [protocol], unless the insert refuses that value ([None], a NaN, an
    [int] outside 64 bits): then the failure is swallowed, and the table
    is as it was although the call returns the item. *)
Theorem process_item_stores_one item now db item' db' :
  process_item item now db = Returned item' db' ->
  (refused (item_get_default item "protocol" (VStr "")) -> db' = db)
  /\ (~ refused (item_get_default item "protocol" (VStr "")) ->
      exists r, db' = append_row db r /\ row_id r = next_rowid db
                /\ row_timestamp r = now
                /\ bind_text (item_get_default item "protocol" (VStr ""))
                   = Returns (Some (row_ticker r))).
Proof.
  intros H0. destruct (process_item_returns _ _ _ _ _ H0) as [_ ->]. split.
  - apply stored_refused.
  - intros Hacc. unfold stored.
    destruct (ticker_bound item) as [t|e] eqn:Ht.
    + apply ticker_bound_returns in Ht. eexists. split_and!; try reflexivity. done.
    + destruct Hacc. apply (proj1 (ticker_refused _)).
      intros t Hb%ticker_bound_returns. congruence.
Qed.

(** X17: a missing field short-circuits the ratio. When either field is
    falsy ([None], the empty string, zero) or is the "Not found"
    sentinel, the ratio text is "Not calculable" whatever the other field
    holds, a number included: nothing is parsed and nothing raises. *)
Theorem pe_ratio_text_missing a b :
  truthy a = false \/ a = VStr "Not found" \/ truthy b = false \/ b = VStr "Not found" ->
  pe_ratio_text a b = Returns "Not calculable".
Proof.
  intros H0. rewrite pe_ratio_text_guard.
  assert (guard a b = false) as ->; [|done].
  unfold guard. destruct H0 as [-> | [-> | [-> | ->]]]; cbn [ne_str];
    rewrite ?andb_false_r; try done; by destruct (truthy a), (truthy b).
Qed.

Lemma pe_ratio_text_missing_witness :
  pe_ratio_text (VStr "Not found") (VInt 7) = Returns "Not calculable".
Proof. apply (pe_ratio_text_missing (VStr "Not found") (VInt 7)). right. left. reflexivity. Defined.

End process_extras.

Section process_extras_examples.

Import DefillamaPipeline.

#[local] Existing Instance example_real_text.

Lemma process_item_stores_one_witness :
  (refused (item_get_default item_alpha "protocol" (VStr "")) ->
   stored item_alpha 10 empty_db = empty_db)
  /\ (~ refused (item_get_default item_alpha "protocol" (VStr "")) ->
      exists r, stored item_alpha 10 empty_db = append_row empty_db r
                /\ row_id r = next_rowid empty_db
                /\ row_timestamp r = 10
                /\ bind_text (item_get_default item_alpha "protocol" (VStr ""))
                   = Returns (Some (row_ticker r))).
Proof.
  apply (process_item_stores_one item_alpha 10 empty_db (processed item_alpha)).
  apply process_item_raw; reflexivity.
Defined.

End process_extras_examples.
